(** * HuMo audio attention nodes: a shallow embedding and its properties

    The development follows the two source files of the plugin:
    - [comfyui-humo-audio-motion/nodes.py], the node class
      [HuMoAudioAttentionBoostV3] (module [V3] below);
    - [nodes.py], the node classes [HuMoAudioAttentionControlV4] and
      [HuMoLipsyncSuppressAttn] (modules [V4] and [Suppress] below).

    Python floats are IEEE binary64 numbers and are modelled by Rocq's
    primitive floats; Python integers are unbounded and are modelled by [Z];
    text is modelled by [string], one character per code point below 256.

    Two limits of the interpreter are part of the model, at the values of a
    64-bit CPython with its default settings: [int] refuses a literal of
    more than 4300 digits ([sys.get_int_max_str_digits()]), and a range of
    more than [sys.maxsize] elements cannot report its length.  Memory is not
    modelled: a list may be as long as its length can be counted. *)

From Stdlib Require Import ZArith List Bool Ascii String Lia.
From Stdlib Require Import Sorting.Sorted Sorting.Permutation.
From Stdlib Require Import Floats.PrimFloat.
Import ListNotations.

Open Scope string_scope.
Open Scope list_scope.
Open Scope Z_scope.

(** ** Exceptions and results *)

Inductive exn : Type :=
| ValueError
| IndexError
| TypeError
| AttributeError
| RuntimeError
| OverflowError.

Inductive result (A : Type) : Type :=
| Ok (a : A)
| Raise (e : exn).

Arguments Ok {A} a.
Arguments Raise {A} e.

Definition rbind {A B : Type} (r : result A) (k : A -> result B) : result B :=
  match r with
  | Ok a => k a
  | Raise e => Raise e
  end.

(** ** Forward-hook callbacks *)

Module Hooks.

Section WithTensor.

(** The tensor runtime is external: a tensor type and its product with a
    Python float are taken as given. *)
Variable tensor : Type.
Variable tensor_mul : tensor -> float -> tensor.

(** What a hooked sub-module may hand to its forward hook. *)
#[warnings="-register-all"]
Inductive pyobj : Type :=
| PNone
| PTensor (t : tensor)
| PTuple (items : list pyobj).

(** [output * scale] with [scale] a float: defined on tensors only;
    [None * 2.0] and [(a, b) * 2.0] are both a [TypeError]. *)
Definition py_mul (output : pyobj) (scale : float) : result pyobj :=
  match output with
  | PTensor t => Ok (PTensor (tensor_mul t scale))
  | PNone => Raise TypeError
  | PTuple _ => Raise TypeError
  end.

(** [HuMoAudioAttentionBoostV3.create_boost_hook]: the returned [hook_fn],
    applied to the module's output. *)
Definition create_boost_hook (boost_factor : float) (output : pyobj)
  : result pyobj :=
  match output with
  | PNone => Ok PNone
  | PTuple items =>
      match items with
      | [] => Raise IndexError
      | first :: rest =>
          rbind (py_mul first boost_factor)
                (fun boosted => Ok (PTuple (boosted :: rest)))
      end
  | _ => py_mul output boost_factor
  end.

(** [HuMoAudioAttentionControlV4.create_scale_hook]: the returned [hook]. *)
Definition create_scale_hook (scale : float) (output : pyobj)
  : result pyobj :=
  py_mul output scale.

(** The local [create_suppress_hook] of [HuMoLipsyncSuppressAttn.suppress]. *)
Definition create_suppress_hook (scale : float) (output : pyobj)
  : result pyobj :=
  py_mul output scale.

End WithTensor.

End Hooks.

(** ** Python text primitives used by the range parser *)

Module PyStr.

Definition code (c : ascii) : Z := Z.of_N (N_of_ascii c).

(** [str.isspace] on code points below 256. *)
Definition is_space (c : ascii) : bool :=
  ((9 <=? code c) && (code c <=? 13))
  || ((28 <=? code c) && (code c <=? 32))
  || (code c =? 133) || (code c =? 160).

Definition is_digit (c : ascii) : bool :=
  (48 <=? code c) && (code c <=? 57).

Definition digit_value (c : ascii) : Z := code c - 48.

(** The white space [int] skips around a literal: the ASCII white space of
    C and the two non-ASCII spaces below 256. *)
Definition is_int_space (c : ascii) : bool :=
  ((9 <=? code c) && (code c <=? 13))
  || (code c =? 32) || (code c =? 133) || (code c =? 160).

(** Dropping the leading, the trailing characters that satisfy [sp]. *)
Fixpoint lstrip (sp : ascii -> bool) (s : string) : string :=
  match s with
  | EmptyString => EmptyString
  | String c s' => if sp c then lstrip sp s' else s
  end.

Fixpoint rstrip (sp : ascii -> bool) (s : string) : string :=
  match s with
  | EmptyString => EmptyString
  | String c s' =>
      match rstrip sp s' with
      | EmptyString => if sp c then EmptyString else String c EmptyString
      | r => String c r
      end
  end.

Definition strip_by (sp : ascii -> bool) (s : string) : string :=
  rstrip sp (lstrip sp s).

(** [s.strip()] *)
Definition strip (s : string) : string := strip_by is_space s.

(** [c in s] for a one-character [c]. *)
Fixpoint contains (c : ascii) (s : string) : bool :=
  match s with
  | EmptyString => false
  | String d s' => Ascii.eqb d c || contains c s'
  end.

(** [s.split(sep)] for a one-character separator: never the empty list. *)
Fixpoint split (sep : ascii) (s : string) : list string :=
  match s with
  | EmptyString => [EmptyString]
  | String c s' =>
      if Ascii.eqb c sep then EmptyString :: split sep s'
      else match split sep s' with
           | [] => [String c EmptyString]
           | p :: ps => String c p :: ps
           end
  end.

(** [sep.join(parts)] *)
Fixpoint join (sep : ascii) (parts : list string) : string :=
  match parts with
  | [] => EmptyString
  | [p] => p
  | p :: ps => (p ++ String sep (join sep ps))%string
  end.

(** The digits of an integer literal, most significant first; single
    underscores may separate digits.  [prev] tells whether the previous
    character was a digit. *)
Fixpoint int_digits (prev : bool) (acc : Z) (s : string) : result Z :=
  match s with
  | EmptyString => if prev then Ok acc else Raise ValueError
  | String c s' =>
      if is_digit c then int_digits true (10 * acc + digit_value c) s'
      else if Ascii.eqb c "_" && prev then int_digits false acc s'
      else Raise ValueError
  end.

(** [sys.get_int_max_str_digits()], as the interpreter sets it by default. *)
Definition int_max_str_digits : Z := 4300.

(** The number of digits of a literal; signs and underscores do not count. *)
Fixpoint count_digits (s : string) : Z :=
  match s with
  | EmptyString => 0
  | String c s' => (if is_digit c then 1 else 0) + count_digits s'
  end.

(** [int(s)] for a text argument: surrounding white space is dropped, one
    sign is allowed, and a literal of more than [int_max_str_digits] digits
    is refused with a [ValueError] like any other text [int] cannot read. *)
Definition py_int (s : string) : result Z :=
  let literal := strip_by is_int_space s in
  rbind
    (match literal with
     | String c r =>
         if Ascii.eqb c "+" then int_digits false 0 r
         else if Ascii.eqb c "-" then
           rbind (int_digits false 0 r) (fun n => Ok (- n))
         else int_digits false 0 (String c r)
     | EmptyString => Raise ValueError
     end)
    (fun n =>
       if int_max_str_digits <? count_digits literal then Raise ValueError
       else Ok n).

End PyStr.

(** ** Python list primitives *)

(** [list(range(a, b))] *)
Definition py_range (a b : Z) : list Z :=
  map (fun i => a + Z.of_nat i) (seq 0 (Z.to_nat (b - a))).

(** [sys.maxsize], the largest length a sequence can report. *)
Definition py_ssize_t_max : Z := 9223372036854775807.

(** What [blocks.extend(range(a, b))] appends: [extend] asks the range for
    its length before it reads it, and the length of a range of more than
    [sys.maxsize] elements is an [OverflowError]. *)
Definition extend_range (a b : Z) : result (list Z) :=
  if py_ssize_t_max <? b - a then Raise OverflowError
  else Ok (py_range a b).

Fixpoint insert_unique (x : Z) (l : list Z) : list Z :=
  match l with
  | [] => [x]
  | y :: t =>
      if x <? y then x :: l
      else if x =? y then l
      else y :: insert_unique x t
  end.

(** [sorted(set(l))] *)
Definition sorted_set (l : list Z) : list Z := fold_right insert_unique [] l.

(** [d.get(key, default)] on a dictionary written as a literal. *)
Fixpoint dict_get {V : Type} (d : list (string * V)) (key : string)
  (default : V) : V :=
  match d with
  | [] => default
  | (k, v) :: d' => if String.eqb k key then v else dict_get d' key default
  end.

Definition dict_has {V : Type} (d : list (string * V)) (key : string) : bool :=
  existsb (fun kv => String.eqb (fst kv) key) d.

(** ** The host's model object *)

Inductive attn_kind : Type := Audio | Cross | Self.

Inductive component : Type := Q | K | V | O.

(** The factory that built a callback. *)
Inductive maker : Type := BoostHook | ScaleHook | SuppressHook.

(** An attention sub-object: which of [q], [k], [v], [o] it exposes. *)
Record attention : Type := {
  has_q : bool;
  has_k : bool;
  has_v : bool;
  has_o : bool
}.

(** [hasattr(attn, comp)] *)
Definition hasattr_comp (attn : attention) (comp : component) : bool :=
  match comp with
  | Q => has_q attn
  | K => has_k attn
  | V => has_v attn
  | O => has_o attn
  end.

(** A block: [None] where the attribute is absent.  The wrapper is an
    object of its own, whose [audio_cross_attn] attribute may be absent. *)
Record block : Type := {
  audio_cross_attn_wrapper : option (option attention);
  cross_attn : option attention;
  self_attn : option attention
}.

(** A registered forward hook: its handle, the sub-module it sits on, the
    factor its callback multiplies by and the factory of the callback. *)
Record hook : Type := {
  hook_id : nat;
  hook_block : nat;
  hook_kind : attn_kind;
  hook_comp : component;
  hook_scale : float;
  hook_maker : maker
}.

(** What the nodes print, without the decoration. *)
Inductive diag : Type :=
| DBanner (who : maker)
| DConfig (kind : attn_kind) (first last : Z)
| DRemoving (count : nat)
| DBlockMissing (block_idx max_idx : Z)
| DPatched (block_idx : Z) (kind : attn_kind)
| DNoAudioWrapper (block_idx : Z)
| DRegistered (count : nat)
| DSuppressPatched (count : nat) (first last : Z).

(** The model handle with everything the nodes read or write through it:
    the block collection, the three bookkeeping attributes ([None] when
    [hasattr] is false), the forward hooks currently registered on the
    sub-modules, the handle counter of the host, the handles whose [remove]
    raises (none, with the handles of the host), and the console. *)
Record model : Type := {
  blocks : list block;
  attention_boost_hooks : option (list nat);
  attention_control_hooks : option (list nat);
  lipsync_suppress_hooks : option (list nat);
  active : list hook;
  next_id : nat;
  invalid : list nat;
  console : list diag
}.

Definition set_attention_boost_hooks (v : option (list nat)) (m : model) :=
  {| blocks := blocks m; attention_boost_hooks := v;
     attention_control_hooks := attention_control_hooks m;
     lipsync_suppress_hooks := lipsync_suppress_hooks m;
     active := active m; next_id := next_id m; invalid := invalid m;
     console := console m |}.

Definition set_attention_control_hooks (v : option (list nat)) (m : model) :=
  {| blocks := blocks m; attention_boost_hooks := attention_boost_hooks m;
     attention_control_hooks := v;
     lipsync_suppress_hooks := lipsync_suppress_hooks m;
     active := active m; next_id := next_id m; invalid := invalid m;
     console := console m |}.

Definition set_lipsync_suppress_hooks (v : option (list nat)) (m : model) :=
  {| blocks := blocks m; attention_boost_hooks := attention_boost_hooks m;
     attention_control_hooks := attention_control_hooks m;
     lipsync_suppress_hooks := v;
     active := active m; next_id := next_id m; invalid := invalid m;
     console := console m |}.

Definition set_active (v : list hook) (n : nat) (m : model) :=
  {| blocks := blocks m; attention_boost_hooks := attention_boost_hooks m;
     attention_control_hooks := attention_control_hooks m;
     lipsync_suppress_hooks := lipsync_suppress_hooks m;
     active := v; next_id := n; invalid := invalid m;
     console := console m |}.

Definition set_console (v : list diag) (m : model) :=
  {| blocks := blocks m; attention_boost_hooks := attention_boost_hooks m;
     attention_control_hooks := attention_control_hooks m;
     lipsync_suppress_hooks := lipsync_suppress_hooks m;
     active := active m; next_id := next_id m; invalid := invalid m;
     console := v |}.

(** ** Node procedures as state transformers that may raise *)

Definition M (A : Type) : Type := model -> result A * model.

Definition ret {A : Type} (a : A) : M A := fun m => (Ok a, m).

Definition raise {A : Type} (e : exn) : M A := fun m => (Raise e, m).

Definition bind {A B : Type} (c : M A) (k : A -> M B) : M B :=
  fun m =>
    match c m with
    | (Ok a, m') => k a m'
    | (Raise e, m') => (Raise e, m')
    end.

Definition lift {A : Type} (r : result A) : M A := fun m => (r, m).

Notation "x <- c ;; k" := (bind c (fun x => k))
  (at level 61, c at next level, right associativity).
Notation "c ;; k" := (bind c (fun _ => k))
  (at level 61, right associativity).

(** [try: c  except: pass] *)
Definition try_pass (c : M unit) : M unit :=
  fun m =>
    match c m with
    | (Raise _, m') => (Ok tt, m')
    | done => done
    end.

Definition print (d : diag) : M unit :=
  fun m => (Ok tt, set_console (console m ++ [d]) m).

(** [handle.remove()]: drops the hook from its sub-module; on a handle whose
    hook is already gone it does nothing.  The handles listed in [invalid]
    are those whose [remove] raises, the failure the [try] of the v4 nodes is
    written for; the handles the host itself returns never do. *)
Definition remove (h : nat) : M unit :=
  fun m =>
    if existsb (Nat.eqb h) (invalid m) then (Raise RuntimeError, m)
    else (Ok tt,
          set_active (filter (fun e => negb (Nat.eqb (hook_id e) h)) (active m))
                     (next_id m) m).

(** [module.register_forward_hook(callback)]: the fresh handle. *)
Definition register_forward_hook (pos : nat) (kind : attn_kind)
  (comp : component) (scale : float) (who : maker) : M nat :=
  fun m =>
    let h := {| hook_id := next_id m; hook_block := pos; hook_kind := kind;
                hook_comp := comp; hook_scale := scale; hook_maker := who |} in
    (Ok (next_id m), set_active (active m ++ [h]) (S (next_id m)) m).

(** [for x in l: st = body x st] *)
Fixpoint for_each {A S : Type} (l : list A) (body : A -> S -> M S) (st : S)
  : M S :=
  match l with
  | [] => ret st
  | x :: rest => st' <- body x st ;; for_each rest body st'
  end.

(** [len(diffusion_model.blocks)] *)
Definition len_blocks (m : model) : Z := Z.of_nat (List.length (blocks m)).

(** [diffusion_model.blocks[i]], with Python's negative indices; the
    position found is returned with the block. *)
Definition get_block (i : Z) : M (nat * block) :=
  fun m =>
    let pos := if i <? 0 then len_blocks m + i else i in
    if (pos <? 0) || (len_blocks m <=? pos) then (Raise IndexError, m)
    else match nth_error (blocks m) (Z.to_nat pos) with
         | Some b => (Ok (Z.to_nat pos, b), m)
         | None => (Raise IndexError, m)
         end.

(** [x in l] on integers *)
Definition mem (x : Z) (l : list Z) : bool := existsb (Z.eqb x) l.

(** [scale != 1.0] *)
Definition differs_from_one (scale : float) : bool :=
  negb (PrimFloat.eqb scale one).

(** The inputs of one attention kind: the enable flag, the block selector
    and the four factors. *)
Record settings (C : Type) : Type := {
  enable : bool;
  preset : string;
  custom_range : C;
  q_scale : float;
  k_scale : float;
  v_scale : float;
  o_scale : float
}.

Arguments enable {C} s.
Arguments preset {C} s.
Arguments custom_range {C} s.
Arguments q_scale {C} s.
Arguments k_scale {C} s.
Arguments v_scale {C} s.
Arguments o_scale {C} s.

(** [[('q', q), ('k', k), ('v', v), ('o', o)]] *)
Definition components {C : Type} (s : settings C) : list (component * float) :=
  [(Q, q_scale s); (K, k_scale s); (V, v_scale s); (O, o_scale s)].

(** The guarded registration shared by the two general nodes: [st] is
    [(hook_handles, patch_count)]. *)
Definition attach_component (who : maker) (pos : nat) (kind : attn_kind)
  (attn : attention) (cs : component * float) (st : list nat * nat)
  : M (list nat * nat) :=
  if differs_from_one (snd cs) && hasattr_comp attn (fst cs) then
    h <- register_forward_hook pos kind (fst cs) (snd cs) who ;;
    ret (fst st ++ [h], S (snd st))
  else ret st.

(** [getattr(model, attr)] and [setattr(model, attr, value)] *)
Definition get {A : Type} (f : model -> A) : M A := fun m => (Ok (f m), m).

Definition modify (f : model -> model) : M unit := fun m => (Ok tt, f m).

(** The clean-up loop of the v4 nodes for one bookkeeping attribute:
    [if hasattr(model, attr): for hook in ...: try: hook.remove() except:
    pass; setattr(model, attr, [])]. *)
Definition clear_attr (attr : model -> option (list nat))
  (set_attr : option (list nat) -> model -> model) : M unit :=
  tracked <- get attr ;;
  match tracked with
  | Some hooks =>
      for_each hooks (fun h _ => try_pass (remove h)) tt ;;
      modify (set_attr (Some []))
  | None => ret tt
  end.

(** ** HuMoAudioAttentionControlV4 *)

Module V4.


(** The [block_presets] list that [INPUT_TYPES] offers for the three block
    selectors. *)
Definition block_presets : list string :=
  [ "custom";
    "early_0-5_structure";
    "early_0-10_body";
    "mid_6-24_lipsync";
    "mid_10-25_gestures";
    "late_25-39_texture";
    "most_0-30_aggressive";
    "all_0-39_maximum" ].

Definition range_map : list (string * string) :=
  [ ("early_0-5_structure", "0-5");
    ("early_0-10_body", "0-10");
    ("mid_6-24_lipsync", "6-24");
    ("mid_10-25_gestures", "10-25");
    ("late_25-39_texture", "25-39");
    ("most_0-30_aggressive", "0-30");
    ("all_0-39_maximum", "0-39") ].

(** One turn of the [for part in range_str.split(',')] loop: the integers
    the segment adds to [blocks]. *)
Definition parse_part (part : string) : result (list Z) :=
  let part := PyStr.strip part in
  if PyStr.contains "-" part then
    match PyStr.split "-" part with
    | [start; end_] =>
        rbind (PyStr.py_int start) (fun s =>
        rbind (PyStr.py_int end_) (fun e =>
        extend_range s (e + 1)))
    | _ => Raise ValueError
    end
  else rbind (PyStr.py_int part) (fun n => Ok [n]).

Fixpoint parse_parts (parts : list string) (blocks : list Z)
  : result (list Z) :=
  match parts with
  | [] => Ok blocks
  | part :: rest =>
      rbind (parse_part part) (fun xs => parse_parts rest (blocks ++ xs))
  end.

(** [HuMoAudioAttentionControlV4.parse_block_range] *)
Definition parse_block_range (preset custom_range : string)
  : result (list Z) :=
  let range_str :=
    if String.eqb preset "custom" then custom_range
    else dict_get range_map preset "0-10" in
  rbind (parse_parts (PyStr.split "," range_str) [])
        (fun blocks => Ok (sorted_set blocks)).


Definition resolve (s : settings string) : result (list Z) :=
  if enable s then parse_block_range (preset s) (custom_range s) else Ok [].

(** The [Blocks: {indices[0]}-{indices[-1]}] line of an enabled kind. *)
Definition print_config (kind : attn_kind) (s : settings string)
  (indices : list Z) : M unit :=
  if enable s then
    match indices with
    | [] => raise IndexError
    | first :: _ => print (DConfig kind first (last indices first))
    end
  else ret tt.

(** The three attention sections of the loop body, for the block [pb] found
    at [block_idx]; [st] is [(hook_handles, patch_count)]. *)
Definition patch_block (audio cross self_ : settings string)
  (audio_block_indices cross_block_indices self_block_indices : list Z)
  (block_idx : Z) (pb : nat * block) (st : list nat * nat)
  : M (list nat * nat) :=
  st <- (if mem block_idx audio_block_indices then
           match audio_cross_attn_wrapper (snd pb) with
           | Some wrapper =>
               match wrapper with
               | Some audio_attn =>
                   for_each (components audio)
                     (attach_component ScaleHook (fst pb) Audio audio_attn) st
               | None => raise AttributeError
               end
           | None => ret st
           end
         else ret st) ;;
  st <- (if mem block_idx cross_block_indices then
           match cross_attn (snd pb) with
           | Some attn =>
               for_each (components cross)
                 (attach_component ScaleHook (fst pb) Cross attn) st
           | None => ret st
           end
         else ret st) ;;
  (if mem block_idx self_block_indices then
     match self_attn (snd pb) with
     | Some attn =>
         for_each (components self_)
           (attach_component ScaleHook (fst pb) Self attn) st
     | None => ret st
     end
   else ret st).

(** The body of [for block_idx in sorted(all_blocks)]: the bounds check,
    then the three sections. *)
Definition visit (audio cross self_ : settings string)
  (audio_block_indices cross_block_indices self_block_indices : list Z)
  (block_idx : Z) (st : list nat * nat) : M (list nat * nat) :=
  n <- get len_blocks ;;
  if n <=? block_idx then
    print (DBlockMissing block_idx (n - 1)) ;; ret st
  else
    pb <- get_block block_idx ;;
    patch_block audio cross self_ audio_block_indices cross_block_indices
      self_block_indices block_idx pb st.

(** [HuMoAudioAttentionControlV4.apply_attention_control]; the returned
    handle is the state itself. *)
Definition apply_attention_control (audio cross self_ : settings string)
  : M unit :=
  audio_block_indices <- lift (resolve audio) ;;
  cross_block_indices <- lift (resolve cross) ;;
  self_block_indices <- lift (resolve self_) ;;
  print (DBanner ScaleHook) ;;
  print_config Audio audio audio_block_indices ;;
  print_config Cross cross cross_block_indices ;;
  print_config Self self_ self_block_indices ;;
  clear_attr attention_control_hooks set_attention_control_hooks ;;
  clear_attr lipsync_suppress_hooks set_lipsync_suppress_hooks ;;
  st <- for_each
          (sorted_set (audio_block_indices ++ cross_block_indices
                       ++ self_block_indices))
          (visit audio cross self_ audio_block_indices cross_block_indices
                 self_block_indices)
          ([], 0%nat) ;;
  print (DRegistered (snd st)) ;;
  modify (set_attention_control_hooks (Some (fst st))).

End V4.

(** ** HuMoLipsyncSuppressAttn *)

Module Suppress.

(** The body of [for block_idx in range(block_start, block_end + 1)]; [st]
    is [(hook_handles, patched_blocks)]. *)
Definition visit (suppression_strength : float) (block_idx : Z)
  (st : list nat * list Z) : M (list nat * list Z) :=
  n <- get len_blocks ;;
  if n <=? block_idx then ret st
  else
    pb <- get_block block_idx ;;
    match audio_cross_attn_wrapper (snd pb) with
    | Some wrapper =>
        match wrapper with
        | Some audio_attn =>
            if has_o audio_attn then
              h <- register_forward_hook (fst pb) Audio O
                     suppression_strength SuppressHook ;;
              ret (fst st ++ [h], snd st ++ [block_idx])
            else ret st
        | None => raise AttributeError
        end
    | None => ret st
    end.

(** [HuMoLipsyncSuppressAttn.suppress] *)
Definition suppress (enabled : bool) (suppression_strength : float)
  (block_start block_end : Z) : M unit :=
  if negb enabled then ret tt
  else
    print (DBanner SuppressHook) ;;
    clear_attr lipsync_suppress_hooks set_lipsync_suppress_hooks ;;
    clear_attr attention_control_hooks set_attention_control_hooks ;;
    st <- for_each (py_range block_start (block_end + 1))
            (visit suppression_strength) ([], []) ;;
    match snd st with
    | [] => raise IndexError
    | first :: _ =>
        print (DSuppressPatched (List.length (snd st)) first
                 (last (snd st) first))
    end ;;
    modify (set_lipsync_suppress_hooks (Some (fst st))).

End Suppress.

(** ** HuMoAudioAttentionBoostV3 *)

Module V3.


(** The [block_presets] list that [INPUT_TYPES] offers for the three block
    selectors. *)
Definition block_presets : list string :=
  [ "custom";
    "early_0-10_body";
    "early_mid_0-20_full_body";
    "mid_10-25_gestures";
    "most_0-30_aggressive";
    "all_0-39_maximum" ].

Definition ranges : list (string * list Z) :=
  [ ("early_0-10_body", py_range 0 11);
    ("early_mid_0-20_full_body", py_range 0 21);
    ("mid_10-25_gestures", py_range 10 26);
    ("most_0-30_aggressive", py_range 0 31);
    ("all_0-39_maximum", py_range 0 40) ].

(** [start, end = map(int, part.split('-'))]: the conversions run while the
    two names are unpacked, and a third piece is an error. *)
Definition parse_part (part : string) : result (list Z) :=
  let part := PyStr.strip part in
  if PyStr.contains "-" part then
    match PyStr.split "-" part with
    | first :: second :: more =>
        rbind (PyStr.py_int first) (fun s =>
        rbind (PyStr.py_int second) (fun e =>
        match more with
        | [] => extend_range s (e + 1)
        | _ => Raise ValueError
        end))
    | _ => Raise ValueError
    end
  else rbind (PyStr.py_int part) (fun n => Ok [n]).

Fixpoint parse_parts (parts : list string) (blocks : list Z)
  : result (list Z) :=
  match parts with
  | [] => Ok blocks
  | part :: rest =>
      rbind (parse_part part) (fun xs => parse_parts rest (blocks ++ xs))
  end.

(** Truth value of an optional text argument ([None] and [""] are false). *)
Definition truthy (custom_range : option string) : bool :=
  match custom_range with
  | None => false
  | Some EmptyString => false
  | Some _ => true
  end.

(** [HuMoAudioAttentionBoostV3.parse_block_range] *)
Definition parse_block_range (preset : string) (custom_range : option string)
  : result (list Z) :=
  if String.eqb preset "custom" && truthy custom_range then
    match custom_range with
    | Some text =>
        rbind (parse_parts (PyStr.split "," text) [])
              (fun blocks => Ok (sorted_set blocks))
    | None => Raise TypeError
    end
  else Ok (dict_get ranges preset (py_range 0 11)).


Definition resolve (s : settings (option string)) : result (list Z) :=
  if enable s then parse_block_range (preset s) (custom_range s) else Ok [].

(** [min(l)] and [max(l)] of a list of integers *)
Definition py_min (l : list Z) : result Z :=
  match l with
  | [] => Raise ValueError
  | x :: t => Ok (fold_left Z.min t x)
  end.

Definition py_max (l : list Z) : result Z :=
  match l with
  | [] => Raise ValueError
  | x :: t => Ok (fold_left Z.max t x)
  end.

(** The [Blocks: {min(indices)}-{max(indices)}] line of an enabled kind. *)
Definition print_config (kind : attn_kind) (s : settings (option string))
  (indices : list Z) : M unit :=
  if enable s then
    lo <- lift (py_min indices) ;;
    hi <- lift (py_max indices) ;;
    print (DConfig kind lo hi)
  else ret tt.

(** The four guarded registrations of one attention kind, written out one
    after the other in the source. *)
Definition attach_all (pos : nat) (kind : attn_kind) (attn : attention)
  (s : settings (option string)) (st : list nat * nat) : M (list nat * nat) :=
  st <- attach_component BoostHook pos kind attn (Q, q_scale s) st ;;
  st <- attach_component BoostHook pos kind attn (K, k_scale s) st ;;
  st <- attach_component BoostHook pos kind attn (V, v_scale s) st ;;
  attach_component BoostHook pos kind attn (O, o_scale s) st.

(** A progress line, printed when [cond] holds. *)
Definition note (cond : bool) (d : diag) : M unit :=
  if cond then print d else ret tt.

(** The three attention sections of the loop body, for the block [pb] found
    at [block_idx]; [st] is [(hook_handles, patch_count)].  The counter
    [block_patches] of the text and self sections is the growth of
    [patch_count] within the section. *)
Definition patch_block (audio cross self_ : settings (option string))
  (audio_block_indices cross_block_indices self_block_indices : list Z)
  (block_idx : Z) (pb : nat * block) (st : list nat * nat)
  : M (list nat * nat) :=
  st <- (if mem block_idx audio_block_indices then
           match audio_cross_attn_wrapper (snd pb) with
           | Some wrapper =>
               match wrapper with
               | Some audio_attn =>
                   st' <- attach_all (fst pb) Audio audio_attn audio st ;;
                   note (0 <? snd st')%nat (DPatched block_idx Audio) ;;
                   ret st'
               | None => raise AttributeError
               end
           | None => print (DNoAudioWrapper block_idx) ;; ret st
           end
         else ret st) ;;
  st <- (if mem block_idx cross_block_indices then
           match cross_attn (snd pb) with
           | Some attn =>
               st' <- attach_all (fst pb) Cross attn cross st ;;
               note (snd st <? snd st')%nat (DPatched block_idx Cross) ;;
               ret st'
           | None => ret st
           end
         else ret st) ;;
  (if mem block_idx self_block_indices then
     match self_attn (snd pb) with
     | Some attn =>
         st' <- attach_all (fst pb) Self attn self_ st ;;
         note (snd st <? snd st')%nat (DPatched block_idx Self) ;;
         ret st'
     | None => ret st
     end
   else ret st).

(** The body of [for block_idx in sorted(all_blocks)]: the bounds check,
    then the three sections. *)
Definition visit (audio cross self_ : settings (option string))
  (audio_block_indices cross_block_indices self_block_indices : list Z)
  (block_idx : Z) (st : list nat * nat) : M (list nat * nat) :=
  n <- get len_blocks ;;
  if n <=? block_idx then
    print (DBlockMissing block_idx (n - 1)) ;; ret st
  else
    pb <- get_block block_idx ;;
    patch_block audio cross self_ audio_block_indices cross_block_indices
      self_block_indices block_idx pb st.

(** [HuMoAudioAttentionBoostV3.boost_attention] *)
Definition boost_attention (audio cross self_ : settings (option string))
  : M unit :=
  old <- get attention_boost_hooks ;;
  match old with
  | Some hooks =>
      print (DRemoving (List.length hooks)) ;;
      for_each hooks (fun h _ => remove h) tt ;;
      modify (set_attention_boost_hooks (Some []))
  | None => ret tt
  end ;;
  audio_block_indices <- lift (resolve audio) ;;
  cross_block_indices <- lift (resolve cross) ;;
  self_block_indices <- lift (resolve self_) ;;
  print (DBanner BoostHook) ;;
  print_config Audio audio audio_block_indices ;;
  print_config Cross cross cross_block_indices ;;
  print_config Self self_ self_block_indices ;;
  st <- for_each
          (sorted_set (audio_block_indices ++ cross_block_indices
                       ++ self_block_indices))
          (visit audio cross self_ audio_block_indices cross_block_indices
                 self_block_indices)
          ([], 0%nat) ;;
  print (DRegistered (snd st)) ;;
  tracked <- get attention_boost_hooks ;;
  modify (set_attention_boost_hooks
            (Some (match tracked with
                   | Some hooks => hooks ++ fst st
                   | None => [] ++ fst st
                   end))).

End V3.

(** ** Vocabulary of the statements *)

(** Every character of [s] satisfies [p]. *)
Fixpoint all_chars (p : ascii -> bool) (s : string) : bool :=
  match s with
  | EmptyString => true
  | String c s' => p c && all_chars p s'
  end.

(** *** Custom range texts, as one reads them

    The definitions of this part are written from the notation of a custom
    range, not from the parser: decimal numerals in positional notation, the
    segments of a range with the integers they stand for, and the grammar of
    the integer literals that the conversion accepts. *)

Definition decimal_digits : list ascii :=
  ["0"; "1"; "2"; "3"; "4"; "5"; "6"; "7"; "8"; "9"]%char.

(** The place of a character in a list, counted from 0. *)
Fixpoint place_of (c : ascii) (l : list ascii) : option Z :=
  match l with
  | [] => None
  | d :: l' =>
      if Ascii.eqb c d then Some 0 else option_map Z.succ (place_of c l')
  end.

(** The value of a decimal digit. *)
Definition digit_of (c : ascii) : option Z := place_of c decimal_digits.









(** The longest numeral the conversion reads, and the most indices one pair
    may list. *)
Definition digit_limit : Z := 4300.




(** White space: what [str.isspace] accepts below 256, and the part of it
    that [int] skips around a literal. *)
Definition blank (c : ascii) : bool :=
  existsb (Nat.eqb (nat_of_ascii c))
          [9; 10; 11; 12; 13; 28; 29; 30; 31; 32; 133; 160]%nat.

Definition int_blank (c : ascii) : bool :=
  existsb (Nat.eqb (nat_of_ascii c)) [9; 10; 11; 12; 13; 32; 133; 160]%nat.

(** The digits of an integer literal: decimal digits, with single
    underscores allowed between two of them.  [digits s n k]: the text [s]
    holds [k] digits and denotes [n]. *)
Inductive digits : string -> Z -> nat -> Prop :=
| digits_one (c : ascii) (d : Z) :
    digit_of c = Some d -> digits (String c EmptyString) d 1
| digits_next (c : ascii) (d : Z) (s : string) (n : Z) (k : nat) :
    digit_of c = Some d -> digits s n k ->
    digits (String c s) (d * 10 ^ Z.of_nat k + n) (S k)
| digits_group (c : ascii) (d : Z) (s : string) (n : Z) (k : nat) :
    digit_of c = Some d -> digits s n k ->
    digits (String c (String "_" s)) (d * 10 ^ Z.of_nat k + n) (S k).

(** An integer literal without a minus sign, as the conversion reads it:
    digits of at most [digit_limit], after an optional plus sign, with white
    space allowed before and after. *)
Inductive literal : string -> Z -> Prop :=
| literal_intro (pre sign body post : string) (n : Z) (k : nat) :
    all_chars int_blank pre = true -> all_chars int_blank post = true ->
    sign = EmptyString \/ sign = "+" ->
    digits body n k -> Z.of_nat k <= digit_limit ->
    literal (pre ++ sign ++ body ++ post)%string n.

(** A numeric segment, from its first to its last integer: one literal, or
    two literals joined by a minus sign; white space may surround it. *)
Inductive reads : string -> Z -> Z -> Prop :=
| reads_single (l s r : string) (n : Z) :
    all_chars blank l = true -> all_chars blank r = true ->
    literal s n -> reads (l ++ s ++ r)%string n n
| reads_pair (l a b r : string) (lo hi : Z) :
    all_chars blank l = true -> all_chars blank r = true ->
    literal a lo -> literal b hi ->
    reads (l ++ a ++ String "-" b ++ r)%string lo hi.


(** A segment that is not numeric. *)
Definition malformed (p : string) : Prop :=
  forall lo hi, ~ reads p lo hi.

(** The handles recorded under a bookkeeping attribute ([[]] when the
    attribute is absent). *)
Definition tracked_by (attr : model -> option (list nat)) (m : model)
  : list nat :=
  match attr m with
  | Some hooks => hooks
  | None => []
  end.

(** The handles recorded under the two keys the v4 nodes share. *)
Definition shared_tracked (m : model) : list nat :=
  tracked_by attention_control_hooks m ++ tracked_by lipsync_suppress_hooks m.

Definition has_id (ids : list nat) (h : hook) : bool :=
  existsb (Nat.eqb (hook_id h)) ids.

(** The active hooks whose handle is not among [ids]. *)
Definition without (ids : list nat) (hooks : list hook) : list hook :=
  filter (fun h => negb (has_id ids h)) hooks.

(** Handles are issued in increasing order: every handle the model knows
    is below the counter, and a handle whose removal fails no longer
    has an active hook. *)
Definition wf (m : model) : Prop :=
  Forall (fun h => (hook_id h < next_id m)%nat) (active m) /\
  Forall (fun i => (i < next_id m)%nat)
         (tracked_by attention_boost_hooks m ++ shared_tracked m) /\
  Forall (fun i => (i < next_id m)%nat /\ ~ In i (map hook_id (active m)))
         (invalid m).

(** Every audio wrapper carries its [audio_cross_attn] attribute. *)
Definition complete (bs : list block) : Prop :=
  Forall (fun b => audio_cross_attn_wrapper b <> Some None) bs.

(** What a node leaves alone while it attaches hooks. *)
Definition frame (m m' : model) : Prop :=
  blocks m' = blocks m /\
  attention_boost_hooks m' = attention_boost_hooks m /\
  attention_control_hooks m' = attention_control_hooks m /\
  lipsync_suppress_hooks m' = lipsync_suppress_hooks m /\
  invalid m' = invalid m.

(** From [m] to [m'] the hooks [new], all satisfying [P], were registered
    with consecutive fresh handles, and nothing else changed but the
    console. *)
Definition grows (P : hook -> Prop) (m m' : model) (new : list hook) : Prop :=
  frame m m' /\
  active m' = active m ++ new /\
  next_id m' = (next_id m + List.length new)%nat /\
  map hook_id new = seq (next_id m) (List.length new) /\
  Forall P new.

(** A loop body over the state [(hook_handles, _)]: it only registers hooks
    satisfying [P], appends exactly their handles to [hook_handles], and
    returns normally when [good] holds on a model with complete wrappers. *)
Definition attaches {X : Type} (P : hook -> Prop) (good : Prop)
  (c : list nat * X -> M (list nat * X)) : Prop :=
  forall st m r m', c st m = (r, m') ->
    exists new,
      grows P m m' new /\
      (forall st', r = Ok st' -> fst st' = fst st ++ map hook_id new) /\
      (good -> complete (blocks m) -> exists st', r = Ok st').

(** The selector of an attention kind resolves to [indices], which are not
    empty when the kind is enabled. *)
Definition accepted {C : Type} (resolve : settings C -> result (list Z))
  (s : settings C) (indices : list Z) : Prop :=
  resolve s = Ok indices /\ (enable s = true -> indices <> []).


(** A hook built by [who] with a factor other than 1.0. *)
Definition scaling_hook (who : maker) (h : hook) : Prop :=
  hook_maker h = who /\ differs_from_one (hook_scale h) = true.

(** A step that always returns and changes nothing but the console. *)
Definition quiet_step (c : M unit) : Prop :=
  forall m, exists m',
    c m = (Ok tt, m') /\ frame m m' /\
    active m' = active m /\ next_id m' = next_id m.

(** A hook of the suppression node: on the output projection of the audio
    attention, with the node's single factor. *)
Definition suppress_hook (strength : float) (h : hook) : Prop :=
  hook_maker h = SuppressHook /\ hook_scale h = strength /\
  hook_kind h = Audio /\ hook_comp h = O.

(** [P] holds of every hook [who] can register for the factors of [s] that
    differ from 1.0. *)
Definition permits {C : Type} (P : hook -> Prop) (who : maker)
  (s : settings C) : Prop :=
  forall cs, In cs (components s) -> differs_from_one (snd cs) = true ->
    forall id pos kind,
      P {| hook_id := id; hook_block := pos; hook_kind := kind;
           hook_comp := fst cs; hook_scale := snd cs; hook_maker := who |}.

(** The outcome of a node run from [m]: the hooks whose handles were in
    [old] are gone, the hooks [new], all satisfying [P], were registered with
    consecutive fresh handles, the other hooks are as they were. *)
Definition reattached (P : hook -> Prop) (old : list nat) (m m' : model)
  (new : list hook) : Prop :=
  blocks m' = blocks m /\ invalid m' = invalid m /\
  active m' = without old (active m) ++ new /\
  next_id m' = (next_id m + List.length new)%nat /\
  map hook_id new = seq (next_id m) (List.length new) /\
  Forall P new.

(** Every active hook built by one of the v4 factories is recorded under
    one of the two shared keys. *)
Definition owned (m : model) : Prop :=
  Forall (fun h => hook_maker h = BoostHook \/ In (hook_id h) (shared_tracked m))
         (active m).






(** ** Sample inputs *)

Definition full_attention : attention :=
  {| has_q := true; has_k := true; has_v := true; has_o := true |}.

Definition full_block : block :=
  {| audio_cross_attn_wrapper := Some (Some full_attention);
     cross_attn := Some full_attention;
     self_attn := Some full_attention |}.

(** A freshly loaded model with two blocks. *)
Definition fresh_model : model :=
  {| blocks := [full_block; full_block];
     attention_boost_hooks := None;
     attention_control_hooks := None;
     lipsync_suppress_hooks := None;
     active := []; next_id := 0; invalid := []; console := [] |}.




(** The same with the hooks made and recorded by the v4 control node, and
    with a handle 0 whose removal fails. *)
Definition stale_control_model : model :=
  {| blocks := [full_block; full_block];
     attention_boost_hooks := None;
     attention_control_hooks := Some [0%nat; 1%nat];
     lipsync_suppress_hooks := None;
     active := [ {| hook_id := 1; hook_block := 0; hook_kind := Audio;
                    hook_comp := V; hook_scale := two;
                    hook_maker := ScaleHook |} ];
     next_id := 2; invalid := [0%nat]; console := [] |}.

(** An attention kind switched off, all factors at 1.0. *)
Definition off {C : Type} (custom : C) : settings C :=
  {| enable := false; preset := "early_0-10_body"; custom_range := custom;
     q_scale := one; k_scale := one; v_scale := one; o_scale := one |}.

(** An enabled kind on the custom range [text], with the value factor [f]
    and the other factors at 1.0. *)
Definition on_custom {C : Type} (custom : C) (f : float) : settings C :=
  {| enable := true; preset := "custom"; custom_range := custom;
     q_scale := one; k_scale := one; v_scale := f; o_scale := one |}.


(** The range a preset name announces: the first of its
    underscore-separated fields that holds a minus sign, as in
    [mid_6-24_lipsync]. *)
Definition announced (name : string) : string :=
  hd EmptyString (filter (PyStr.contains "-") (PyStr.split "_" name)).

(** A selector that is switched off or uses a preset of the table's kind
    (anything but the custom marker). *)
Definition preset_selector {C : Type} (s : settings C) : Prop :=
  enable s = false \/ preset s <> "custom".






(** * Properties *)

(** ** The parsers on sample texts *)

Example v4_default_preset :
  V4.parse_block_range "mid_6-24_lipsync" "" = Ok (py_range 6 25).
Proof. reflexivity. Qed.

Example v4_custom_mixed :
  V4.parse_block_range "custom" "25-27, 0-2,1,26" = Ok [0; 1; 2; 25; 26; 27].
Proof. reflexivity. Qed.

Example v4_custom_repeated :
  V4.parse_block_range "custom" "5-5,5" = Ok [5].
Proof. reflexivity. Qed.

Example v3_custom_repeated :
  V3.parse_block_range "custom" (Some "5-5,5") = Ok [5].
Proof. reflexivity. Qed.

Example v4_custom_letters :
  V4.parse_block_range "custom" "0-5,abc" = Raise ValueError.
Proof. reflexivity. Qed.

Example v4_custom_negative :
  V4.parse_block_range "custom" "-5" = Raise ValueError.
Proof. reflexivity. Qed.

Example v3_documented_presets :
  V3.parse_block_range "early_mid_0-20_full_body" None = Ok (py_range 0 21) /\
  V3.parse_block_range "all_0-39_maximum" None = Ok (py_range 0 40).
Proof. split; reflexivity. Qed.

Example v3_custom_without_text :
  V3.parse_block_range "custom" (Some "") = Ok (py_range 0 11) /\
  V3.parse_block_range "custom" None = Ok (py_range 0 11).
Proof. split; reflexivity. Qed.

Example v4_custom_without_text :
  V4.parse_block_range "custom" "" = Raise ValueError.
Proof. reflexivity. Qed.

(** ** Ranges and sorted sets *)

Lemma In_py_range (a b x : Z) : In x (py_range a b) <-> a <= x < b.
Proof.
  unfold py_range. rewrite in_map_iff. split.
  - intros [i [<- Hi]]. apply in_seq in Hi. lia.
  - intros H. exists (Z.to_nat (x - a)). split; [lia|].
    apply in_seq. lia.
Qed.

Lemma py_range_empty (a b : Z) : b <= a -> py_range a b = [].
Proof.
  intros H. unfold py_range. replace (Z.to_nat (b - a)) with 0%nat by lia.
  reflexivity.
Qed.

Lemma insert_unique_In (x y : Z) (l : list Z) :
  In x (insert_unique y l) <-> x = y \/ In x l.
Proof.
  induction l as [|z t IH]; simpl.
  - intuition.
  - destruct (y <? z) eqn:Hlt; simpl; [intuition|].
    destruct (y =? z) eqn:Heq; simpl.
    + apply Z.eqb_eq in Heq. subst. intuition.
    + rewrite IH. intuition.
Qed.

Lemma insert_unique_sorted (y : Z) (l : list Z) :
  StronglySorted Z.lt l -> StronglySorted Z.lt (insert_unique y l).
Proof.
  induction 1 as [|z t Hs IH Hall]; simpl.
  - repeat constructor.
  - destruct (y <? z) eqn:Hlt.
    + apply Z.ltb_lt in Hlt. constructor.
      * constructor; assumption.
      * constructor; [assumption|].
        eapply Forall_impl; [|exact Hall]. intros; lia.
    + destruct (y =? z) eqn:Heq.
      * constructor; assumption.
      * apply Z.ltb_ge in Hlt. apply Z.eqb_neq in Heq.
        constructor; [assumption|].
        apply Forall_forall. intros x Hx.
        apply insert_unique_In in Hx. destruct Hx as [->|Hx]; [lia|].
        rewrite Forall_forall in Hall. auto.
Qed.

Lemma sorted_set_In (x : Z) (l : list Z) : In x (sorted_set l) <-> In x l.
Proof.
  induction l as [|y t IH]; simpl; [tauto|].
  rewrite insert_unique_In, IH. intuition.
Qed.

Lemma sorted_set_sorted (l : list Z) : StronglySorted Z.lt (sorted_set l).
Proof.
  induction l; simpl; [constructor | now apply insert_unique_sorted].
Qed.

(** Two strictly ascending lists with the same elements are equal. *)
Lemma ascending_unique (l1 l2 : list Z) :
  StronglySorted Z.lt l1 -> StronglySorted Z.lt l2 ->
  (forall x, In x l1 <-> In x l2) -> l1 = l2.
Proof.
  intros H1. revert l2.
  induction H1 as [|a t1 Hs1 IH Ha]; intros l2 H2 Hin.
  - destruct l2 as [|b t2]; [reflexivity|].
    exfalso. apply (Hin b). now left.
  - destruct H2 as [|b t2 Hs2 Hb].
    + exfalso. apply (Hin a). now left.
    + rewrite Forall_forall in Ha, Hb.
      assert (a = b) as ->.
      { destruct (proj1 (Hin a) (or_introl eq_refl)) as [E|Hab]; [auto|].
        destruct (proj2 (Hin b) (or_introl eq_refl)) as [E|Hba]; [auto|].
        specialize (Ha _ Hba). specialize (Hb _ Hab). lia. }
      f_equal. apply IH; [assumption|].
      intros x. split; intros Hx.
      * destruct (proj1 (Hin x) (or_intror Hx)) as [E|]; [|assumption].
        specialize (Ha _ Hx). lia.
      * destruct (proj2 (Hin x) (or_intror Hx)) as [E|]; [|assumption].
        specialize (Hb _ Hx). lia.
Qed.

Lemma sorted_set_ext (l1 l2 : list Z) :
  (forall x, In x l1 <-> In x l2) -> sorted_set l1 = sorted_set l2.
Proof.
  intros H. apply ascending_unique; try apply sorted_set_sorted.
  intros x. rewrite !sorted_set_In. apply H.
Qed.

Lemma dict_get_missing {V : Type} (d : list (string * V)) (key : string)
  (default : V) :
  dict_has d key = false -> dict_get d key default = default.
Proof.
  induction d as [|[k v] d IH]; simpl; [reflexivity|].
  destruct (String.eqb k key); simpl; [discriminate|exact IH].
Qed.

(** ** Text primitives *)

Lemma digit_not_space (c : ascii) :
  PyStr.is_digit c = true -> PyStr.is_space c = false.
Proof.
  unfold PyStr.is_digit, PyStr.is_space. intros H.
  apply andb_true_iff in H. destruct H as [H1 H2].
  apply Z.leb_le in H1. apply Z.leb_le in H2.
  repeat (apply orb_false_iff; split);
    try (apply andb_false_iff);
    try (apply Z.eqb_neq; lia).
  - right. apply Z.leb_gt. lia.
  - right. apply Z.leb_gt. lia.
Qed.

Lemma all_chars_impl (p q : ascii -> bool) (s : string) :
  (forall c, p c = true -> q c = true) ->
  all_chars p s = true -> all_chars q s = true.
Proof.
  intros Hpq. induction s as [|c s IH]; simpl; [reflexivity|].
  intros H. apply andb_true_iff in H. destruct H as [Hc Hs].
  rewrite (Hpq _ Hc). simpl. auto.
Qed.

Lemma all_chars_app (p : ascii -> bool) (s t : string) :
  all_chars p (s ++ t)%string = all_chars p s && all_chars p t.
Proof.
  induction s as [|c s IH]; simpl; [reflexivity|].
  rewrite IH. apply andb_assoc.
Qed.

Lemma all_chars_contains (p : ascii -> bool) (c : ascii) (s : string) :
  all_chars p s = true -> p c = false -> PyStr.contains c s = false.
Proof.
  intros Hs Hc. induction s as [|d s IH]; simpl; [reflexivity|].
  simpl in Hs. apply andb_true_iff in Hs. destruct Hs as [Hd Hs].
  rewrite (IH Hs), orb_false_r.
  destruct (Ascii.eqb d c) eqn:E; [|reflexivity].
  apply Ascii.eqb_eq in E. congruence.
Qed.

Lemma int_space_is_space (c : ascii) :
  PyStr.is_space c = false -> PyStr.is_int_space c = false.
Proof.
  unfold PyStr.is_space, PyStr.is_int_space. intros H.
  repeat (apply orb_false_iff in H; destruct H as [H ?]).
  apply andb_false_iff in H.
  repeat (apply orb_false_iff; split); try assumption.
  - apply andb_false_iff. exact H.
  - apply Z.eqb_neq. intros E.
    match goal with
    | H' : (_ <=? _) && (_ <=? 32) = false |- _ =>
        apply andb_false_iff in H'; destruct H' as [H'|H'];
        apply Z.leb_gt in H'; lia
    end.
Qed.

Lemma lstrip_no_space (sp : ascii -> bool) (s : string) :
  all_chars (fun c => negb (sp c)) s = true -> PyStr.lstrip sp s = s.
Proof.
  destruct s as [|c s]; simpl; [reflexivity|].
  intros H. apply andb_true_iff in H. destruct H as [Hc _].
  apply negb_true_iff in Hc. now rewrite Hc.
Qed.

Lemma rstrip_no_space (sp : ascii -> bool) (s : string) :
  all_chars (fun c => negb (sp c)) s = true -> PyStr.rstrip sp s = s.
Proof.
  induction s as [|c s IH]; simpl; [reflexivity|].
  intros H. apply andb_true_iff in H. destruct H as [Hc Hs].
  apply negb_true_iff in Hc. rewrite (IH Hs), Hc.
  destruct s; reflexivity.
Qed.

Lemma strip_by_no_space (sp : ascii -> bool) (s : string) :
  all_chars (fun c => negb (sp c)) s = true -> PyStr.strip_by sp s = s.
Proof.
  intros H. unfold PyStr.strip_by. rewrite (lstrip_no_space _ _ H).
  now apply rstrip_no_space.
Qed.

Lemma strip_no_space (s : string) :
  all_chars (fun c => negb (PyStr.is_space c)) s = true -> PyStr.strip s = s.
Proof. apply strip_by_no_space. Qed.

Lemma split_no_sep (sep : ascii) (s : string) :
  PyStr.contains sep s = false -> PyStr.split sep s = [s].
Proof.
  induction s as [|c s IH]; simpl; [reflexivity|].
  intros H. apply orb_false_iff in H. destruct H as [Hc Hs].
  rewrite Hc, (IH Hs). reflexivity.
Qed.

Lemma split_app (sep : ascii) (a b : string) :
  PyStr.contains sep a = false ->
  PyStr.split sep (a ++ String sep b)%string = a :: PyStr.split sep b.
Proof.
  induction a as [|c a IH]; simpl.
  - intros _. now rewrite Ascii.eqb_refl.
  - intros H. apply orb_false_iff in H. destruct H as [Hc Ha].
    rewrite Hc, (IH Ha). reflexivity.
Qed.

Lemma split_join (sep : ascii) (parts : list string) :
  parts <> [] ->
  Forall (fun p => PyStr.contains sep p = false) parts ->
  PyStr.split sep (PyStr.join sep parts) = parts.
Proof.
  induction parts as [|p ps IH]; [congruence|].
  intros _ H. inversion H as [|? ? Hp Hps]; subst.
  destruct ps as [|q ps].
  - simpl. now apply split_no_sep.
  - change (PyStr.join sep (p :: q :: ps))
      with (p ++ String sep (PyStr.join sep (q :: ps)))%string.
    rewrite (split_app _ _ _ Hp), IH; [reflexivity|discriminate|assumption].
Qed.

Lemma contains_app (c : ascii) (a b : string) :
  PyStr.contains c (a ++ b)%string
  = PyStr.contains c a || PyStr.contains c b.
Proof.
  induction a as [|d a IH]; simpl; [reflexivity|].
  rewrite IH. apply orb_assoc.
Qed.

(** ** White space around a text *)

Lemma lstrip_app_space (sp : ascii -> bool) (l x : string) :
  all_chars sp l = true -> PyStr.lstrip sp (l ++ x)%string = PyStr.lstrip sp x.
Proof.
  induction l as [|c l IH]; simpl; [reflexivity|].
  intros H. apply andb_true_iff in H. destruct H as [Hc Hl].
  rewrite Hc. now apply IH.
Qed.

Lemma rstrip_all_space (sp : ascii -> bool) (r : string) :
  all_chars sp r = true -> PyStr.rstrip sp r = EmptyString.
Proof.
  induction r as [|c r IH]; simpl; [reflexivity|].
  intros H. apply andb_true_iff in H. destruct H as [Hc Hr].
  now rewrite (IH Hr), Hc.
Qed.

Lemma rstrip_app_space (sp : ascii -> bool) (x r : string) :
  all_chars sp r = true -> PyStr.rstrip sp (x ++ r)%string = PyStr.rstrip sp x.
Proof.
  intros Hr. induction x as [|c x IH]; simpl.
  - now apply rstrip_all_space.
  - now rewrite IH.
Qed.

Lemma lstrip_all_space_aux (sp : ascii -> bool) (r : string) :
  all_chars sp r = true -> PyStr.lstrip sp r = EmptyString.
Proof.
  induction r as [|c r IH]; simpl; [reflexivity|].
  intros H. apply andb_true_iff in H. destruct H as [Hc Hr].
  rewrite Hc. now apply IH.
Qed.

Lemma strip_by_app_space (sp : ascii -> bool) (p r : string) :
  all_chars sp r = true ->
  PyStr.strip_by sp (p ++ r)%string = PyStr.strip_by sp p.
Proof.
  intros Hr. unfold PyStr.strip_by. induction p as [|c p IH].
  - simpl. rewrite (lstrip_all_space_aux sp r Hr). reflexivity.
  - simpl. destruct (sp c); [exact IH|].
    apply (rstrip_app_space sp (String c p) r Hr).
Qed.

Lemma strip_by_pad (sp : ascii -> bool) (l p r : string) :
  all_chars sp l = true -> all_chars sp r = true ->
  PyStr.strip_by sp (l ++ p ++ r)%string = PyStr.strip_by sp p.
Proof.
  intros Hl Hr.
  rewrite <- (strip_by_app_space sp p r Hr).
  unfold PyStr.strip_by. now rewrite lstrip_app_space.
Qed.

Lemma strip_pad (l p r : string) :
  all_chars PyStr.is_space l = true -> all_chars PyStr.is_space r = true ->
  PyStr.strip (l ++ p ++ r)%string = PyStr.strip p.
Proof. apply strip_by_pad. Qed.

(** A text is the white space [strip] drops before it, what [strip] keeps,
    and the white space it drops after it. *)
Lemma lstrip_cut (sp : ascii -> bool) (s : string) :
  exists pre, s = (pre ++ PyStr.lstrip sp s)%string /\ all_chars sp pre = true.
Proof.
  induction s as [|c s IH]; simpl.
  - now exists EmptyString.
  - destruct (sp c) eqn:Hc.
    + destruct IH as [pre [E Hpre]]. exists (String c pre). split.
      * simpl. now rewrite <- E.
      * simpl. now rewrite Hc.
    + now exists EmptyString.
Qed.

Lemma rstrip_cut (sp : ascii -> bool) (s : string) :
  exists post, s = (PyStr.rstrip sp s ++ post)%string
               /\ all_chars sp post = true.
Proof.
  induction s as [|c s IH]; simpl.
  - now exists EmptyString.
  - destruct IH as [post [E Hpost]].
    destruct (PyStr.rstrip sp s) as [|x r] eqn:Er.
    + destruct (sp c) eqn:Hc.
      * exists (String c post). split.
        -- simpl in E. now rewrite <- E.
        -- simpl. now rewrite Hc.
      * exists post. split; [|exact Hpost]. simpl in *. now rewrite <- E.
    + exists post. split; [|exact Hpost]. simpl in *. now rewrite <- E.
Qed.

Lemma strip_by_cut (sp : ascii -> bool) (s : string) :
  exists pre post,
    s = (pre ++ PyStr.strip_by sp s ++ post)%string /\
    all_chars sp pre = true /\ all_chars sp post = true.
Proof.
  destruct (lstrip_cut sp s) as [pre [E Hpre]].
  destruct (rstrip_cut sp (PyStr.lstrip sp s)) as [post [E' Hpost]].
  exists pre, post. unfold PyStr.strip_by. split; [|auto].
  now rewrite <- E'.
Qed.

Lemma append_assoc (a b c : string) :
  ((a ++ b) ++ c = a ++ b ++ c)%string.
Proof. induction a as [|x a IH]; simpl; [reflexivity|now rewrite IH]. Qed.

Lemma append_nil_r (a : string) : (a ++ "" = a)%string.
Proof. induction a as [|x a IH]; simpl; [reflexivity|now rewrite IH]. Qed.

Lemma join_split (sep : ascii) (s : string) :
  PyStr.join sep (PyStr.split sep s) = s.
Proof.
  induction s as [|c s IH]; simpl; [reflexivity|].
  destruct (Ascii.eqb c sep) eqn:E.
  - apply Ascii.eqb_eq in E. subst c.
    destruct (PyStr.split sep s) as [|p ps] eqn:Es.
    + simpl in IH. now subst s.
    + simpl in *. now rewrite IH.
  - destruct (PyStr.split sep s) as [|p ps] eqn:Es.
    + simpl in *. now subst s.
    + destruct ps as [|q qs]; simpl in *; now rewrite <- IH.
Qed.

Lemma split_pieces_no_sep (sep : ascii) (s p : string) :
  In p (PyStr.split sep s) -> PyStr.contains sep p = false.
Proof.
  revert p. induction s as [|d s IH]; intros p; simpl.
  - intros [<-|[]]. reflexivity.
  - destruct (Ascii.eqb d sep) eqn:E.
    + intros [<-|H]; [reflexivity|now apply IH].
    + destruct (PyStr.split sep s) as [|q qs].
      * intros [<-|[]]. simpl. now rewrite E.
      * intros [<-|H].
        -- simpl. rewrite E. apply IH. now left.
        -- apply IH. now right.
Qed.

(** What it means for a text to split in two at a separator. *)
Lemma split_two (sep : ascii) (s a b : string) :
  PyStr.split sep s = [a; b] ->
  s = (a ++ String sep b)%string /\
  PyStr.contains sep a = false /\ PyStr.contains sep b = false.
Proof.
  intros H. pose proof (join_split sep s) as J.
  pose proof (split_pieces_no_sep sep s) as P.
  rewrite H in J, P. simpl in J. repeat split.
  - now symmetry.
  - apply P. now left.
  - apply P. right. now left.
Qed.

Lemma lstrip_sub (sp : ascii -> bool) (c : ascii) (s : string) :
  PyStr.contains c (PyStr.lstrip sp s) = true -> PyStr.contains c s = true.
Proof.
  induction s as [|d s IH]; simpl; [auto|].
  destruct (sp d); [|auto].
  intros H. rewrite (IH H). apply orb_true_r.
Qed.

Lemma rstrip_sub (sp : ascii -> bool) (c : ascii) (s : string) :
  PyStr.contains c (PyStr.rstrip sp s) = true -> PyStr.contains c s = true.
Proof.
  induction s as [|d s IH]; simpl; [auto|].
  destruct (PyStr.rstrip sp s) as [|x r] eqn:E.
  - destruct (sp d); simpl; [discriminate|].
    rewrite orb_false_r. intros ->. reflexivity.
  - simpl. intros H. apply orb_true_iff in H. destruct H as [->|H];
      [reflexivity|].
    simpl in IH. rewrite (IH H). apply orb_true_r.
Qed.

Lemma strip_by_sub (sp : ascii -> bool) (c : ascii) (s : string) :
  PyStr.contains c (PyStr.strip_by sp s) = true -> PyStr.contains c s = true.
Proof.
  intros H. eapply lstrip_sub, rstrip_sub, H.
Qed.

(** ** Integer literals *)

(** The characters of the notation are those the primitives test for. *)
Lemma digit_of_spec (c : ascii) :
  digit_of c
  = if PyStr.is_digit c then Some (PyStr.digit_value c) else None.
Proof. destruct c as [[] [] [] [] [] [] [] []]; reflexivity. Qed.

Lemma blank_spec (c : ascii) : blank c = PyStr.is_space c.
Proof. destruct c as [[] [] [] [] [] [] [] []]; reflexivity. Qed.

Lemma int_blank_spec (c : ascii) : int_blank c = PyStr.is_int_space c.
Proof. destruct c as [[] [] [] [] [] [] [] []]; reflexivity. Qed.

Lemma all_chars_ext (p q : ascii -> bool) (s : string) :
  (forall c, p c = q c) -> all_chars p s = all_chars q s.
Proof.
  intros H. induction s as [|c s IH]; simpl; [reflexivity|].
  now rewrite H, IH.
Qed.

Lemma int_blank_is_blank (c : ascii) : int_blank c = true -> blank c = true.
Proof. destruct c as [[] [] [] [] [] [] [] []]; simpl; auto. Qed.

Lemma digit_is_digit (c : ascii) (d : Z) :
  digit_of c = Some d ->
  PyStr.is_digit c = true /\ PyStr.digit_value c = d /\ 0 <= d <= 9.
Proof.
  rewrite digit_of_spec. destruct (PyStr.is_digit c) eqn:E; [|discriminate].
  intros [= <-]. repeat split.
  - unfold PyStr.is_digit in E. apply andb_true_iff in E.
    destruct E as [E _]. apply Z.leb_le in E. unfold PyStr.digit_value. lia.
  - unfold PyStr.is_digit in E. apply andb_true_iff in E.
    destruct E as [_ E]. apply Z.leb_le in E. unfold PyStr.digit_value. lia.
Qed.

Lemma digit_not_blank (c : ascii) :
  PyStr.is_digit c = true ->
  PyStr.is_space c = false /\ PyStr.is_int_space c = false /\
  c <> "+"%char /\ c <> "-"%char /\ c <> "_"%char /\ c <> ","%char.
Proof.
  destruct c as [[] [] [] [] [] [] [] []]; simpl; intros H;
    try discriminate H; repeat split; discriminate.
Qed.

Lemma int_digits_only_value_error (prev : bool) (acc : Z) (s : string)
  (e : exn) :
  PyStr.int_digits prev acc s = Raise e -> e = ValueError.
Proof.
  revert prev acc. induction s as [|c s IH]; intros prev acc; simpl.
  - destruct prev; congruence.
  - destruct (PyStr.is_digit c); [apply IH|].
    destruct (Ascii.eqb c "_" && prev); [apply IH|congruence].
Qed.

Lemma py_int_only_value_error (s : string) (e : exn) :
  PyStr.py_int s = Raise e -> e = ValueError.
Proof.
  unfold PyStr.py_int.
  set (t := PyStr.strip_by PyStr.is_int_space s).
  assert (H : forall r : result Z,
             (forall e', r = Raise e' -> e' = ValueError) ->
             rbind r (fun n => if PyStr.int_max_str_digits
                                    <? PyStr.count_digits t
                               then Raise ValueError else Ok n) = Raise e ->
             e = ValueError).
  { intros [n|e'] Hr; simpl.
    - destruct (_ <? _); congruence.
    - intros [= <-]. now apply Hr. }
  apply H. destruct t as [|c r]; [congruence|].
  destruct (Ascii.eqb c "+"); [apply int_digits_only_value_error|].
  destruct (Ascii.eqb c "-"); [|apply int_digits_only_value_error].
  destruct (PyStr.int_digits false 0 r) eqn:E; simpl; [discriminate|].
  intros e' [= <-]. eapply int_digits_only_value_error, E.
Qed.

(** The scanner reads the digits of a literal, and nothing else. *)
Lemma int_digits_digits (s : string) (n : Z) (k : nat) :
  digits s n k ->
  forall prev acc,
    PyStr.int_digits prev acc s = Ok (acc * 10 ^ Z.of_nat k + n).
Proof.
  induction 1 as [c d Hd|c d s n k Hd Hs IH|c d s n k Hd Hs IH];
    intros prev acc; cbn [PyStr.int_digits];
    destruct (digit_is_digit _ _ Hd) as (Hc & Hv & _); rewrite Hc, Hv.
  - f_equal. change (Z.of_nat 1) with 1. lia.
  - rewrite IH. f_equal. rewrite Nat2Z.inj_succ, Z.pow_succ_r by lia. lia.
  - destruct (digit_not_blank _ Hc) as (_ & _ & _ & _ & Hu & _).
    assert (E : PyStr.is_digit "_" = false) by reflexivity.
    rewrite E. change (Ascii.eqb "_" "_" && true) with true. cbv iota.
    rewrite IH. f_equal. rewrite Nat2Z.inj_succ, Z.pow_succ_r by lia. lia.
Qed.

Lemma digits_scanned (s : string) (prev : bool) (acc v : Z) :
  PyStr.int_digits prev acc s = Ok v ->
  (s = EmptyString /\ prev = true /\ v = acc) \/
  (exists n k, digits s n k /\ v = acc * 10 ^ Z.of_nat k + n) \/
  (prev = true /\
   exists s' n k, s = String "_" s' /\ digits s' n k
                  /\ v = acc * 10 ^ Z.of_nat k + n).
Proof.
  revert prev acc. induction s as [|c s IH]; intros prev acc;
    cbn [PyStr.int_digits].
  - destruct prev; [|discriminate]. intros [= <-]. now left.
  - destruct (PyStr.is_digit c) eqn:Hc.
    + assert (Hd : digit_of c = Some (PyStr.digit_value c)).
      { now rewrite digit_of_spec, Hc. }
      intros H. right. left.
      destruct (IH _ _ H) as [(-> & _ & ->)|[(n & k & Hs & ->)|(_ & H')]].
      * exists (PyStr.digit_value c), 1%nat. split; [now constructor|].
        change (Z.of_nat 1) with 1. lia.
      * eexists _, (S k). split; [apply digits_next; eassumption|].
        rewrite Nat2Z.inj_succ, Z.pow_succ_r by lia. lia.
      * destruct H' as (s' & n & k & -> & Hs & ->).
        eexists _, (S k). split; [apply digits_group; eassumption|].
        rewrite Nat2Z.inj_succ, Z.pow_succ_r by lia. lia.
    + destruct (Ascii.eqb c "_") eqn:Eu; [|discriminate].
      destruct prev; [|discriminate]. simpl andb. cbv iota.
      apply Ascii.eqb_eq in Eu. subst c. intros H. right. right.
      split; [reflexivity|].
      destruct (IH _ _ H) as [(_ & Hp & _)|[(n & k & Hs & ->)|(Hp & _)]];
        try discriminate.
      now exists s, n, k.
Qed.

Lemma count_digits_digits (s : string) (n : Z) (k : nat) :
  digits s n k -> PyStr.count_digits s = Z.of_nat k.
Proof.
  induction 1 as [c d Hd|c d s n k Hd Hs IH|c d s n k Hd Hs IH];
    cbn [PyStr.count_digits];
    destruct (digit_is_digit _ _ Hd) as (Hc & _ & _); rewrite Hc.
  - reflexivity.
  - rewrite IH. lia.
  - assert (E : PyStr.is_digit "_" = false) by reflexivity.
    rewrite E, IH. lia.
Qed.

(** The digits of a literal start and end with a digit. *)
Lemma digits_head (s : string) (n : Z) (k : nat) :
  digits s n k ->
  exists c r, s = String c r /\ PyStr.is_digit c = true.
Proof.
  intros H. destruct H as [c d Hd|c d s n k Hd _|c d s n k Hd _];
    destruct (digit_is_digit _ _ Hd) as (Hc & _); eauto.
Qed.

Lemma digits_rstrip (sp : ascii -> bool) (s : string) (n : Z) (k : nat) :
  (forall c, PyStr.is_digit c = true -> sp c = false) ->
  digits s n k -> PyStr.rstrip sp s = s /\ s <> EmptyString.
Proof.
  intros Hsp. induction 1 as [c d Hd|c d s n k Hd Hs IH|c d s n k Hd Hs IH];
    destruct (digit_is_digit _ _ Hd) as (Hc & _).
  - simpl. rewrite (Hsp _ Hc). split; [reflexivity|discriminate].
  - destruct IH as [IH Hne]. split; [|discriminate].
    simpl. rewrite IH. destruct s; [congruence|reflexivity].
  - destruct IH as [IH Hne]. split; [|discriminate].
    cbn [PyStr.rstrip]. rewrite IH. destruct s; [congruence|reflexivity].
Qed.

Lemma digits_chars (s : string) (n : Z) (k : nat) (c : ascii) :
  digits s n k -> PyStr.contains c s = true ->
  PyStr.is_digit c = true \/ c = "_"%char.
Proof.
  induction 1 as [x d Hd|x d s n k Hd Hs IH|x d s n k Hd Hs IH];
    destruct (digit_is_digit _ _ Hd) as (Hc & _); cbn [PyStr.contains].
  - rewrite orb_false_r. intros E. apply Ascii.eqb_eq in E. subst. now left.
  - intros E. apply orb_true_iff in E. destruct E as [E|E]; [|auto].
    apply Ascii.eqb_eq in E. subst. now left.
  - intros E. apply orb_true_iff in E. destruct E as [E|E].
    { apply Ascii.eqb_eq in E. subst. now left. }
    apply orb_true_iff in E. destruct E as [E|E]; [|auto].
    apply Ascii.eqb_eq in E. subst. now right.
Qed.

Lemma digits_nonneg (s : string) (n : Z) (k : nat) :
  digits s n k -> 0 <= n.
Proof.
  induction 1 as [c d Hd|c d s n k Hd Hs IH|c d s n k Hd Hs IH];
    destruct (digit_is_digit _ _ Hd) as (_ & _ & Hr);
    try lia;
    assert (0 <= 10 ^ Z.of_nat k) by (apply Z.pow_nonneg; lia); nia.
Qed.

Lemma py_int_pad (pre t post : string) :
  all_chars int_blank pre = true -> all_chars int_blank post = true ->
  PyStr.py_int (pre ++ t ++ post)%string = PyStr.py_int t.
Proof.
  intros Hpre Hpost. unfold PyStr.py_int.
  rewrite strip_by_pad; [reflexivity| |];
    erewrite all_chars_ext; try eassumption;
    intros c; symmetry; apply int_blank_spec.
Qed.

Lemma signed_digits_tight (sp : ascii -> bool) (sign body : string) (n : Z)
  (k : nat) :
  (forall c, PyStr.is_digit c = true -> sp c = false) -> sp "+"%char = false ->
  sign = EmptyString \/ sign = "+" -> digits body n k ->
  PyStr.strip_by sp (sign ++ body)%string = (sign ++ body)%string.
Proof.
  intros Hsp Hplus Hsign Hb.
  destruct (digits_rstrip sp _ _ _ Hsp Hb) as [Hr Hne].
  destruct (digits_head _ _ _ Hb) as (c & r & -> & Hc).
  unfold PyStr.strip_by.
  destruct Hsign as [->| ->]; cbn [append PyStr.lstrip].
  - rewrite (Hsp _ Hc). exact Hr.
  - rewrite Hplus. cbn [PyStr.rstrip] in *. now rewrite Hr.
Qed.

Lemma signed_digits_py_int (sign body : string) (n : Z) (k : nat) :
  sign = EmptyString \/ sign = "+" -> digits body n k ->
  Z.of_nat k <= digit_limit ->
  PyStr.py_int (sign ++ body)%string = Ok n.
Proof.
  intros Hsign Hb Hk. unfold PyStr.py_int.
  assert (Hsp : forall c, PyStr.is_digit c = true
                          -> PyStr.is_int_space c = false).
  { intros c Hc. now destruct (digit_not_blank _ Hc) as (_ & H & _). }
  rewrite (signed_digits_tight PyStr.is_int_space sign body n k Hsp
             eq_refl Hsign Hb).
  pose proof (count_digits_digits _ _ _ Hb) as Hcount.
  pose proof (int_digits_digits _ _ _ Hb false 0) as Hscan.
  replace (0 * 10 ^ Z.of_nat k + n) with n in Hscan by lia.
  assert (Hlim : (PyStr.int_max_str_digits <? Z.of_nat k) = false).
  { apply Z.ltb_ge. exact Hk. }
  destruct Hsign as [->| ->]; cbn [append].
  - destruct (digits_head _ _ _ Hb) as (c & r & E & Hc). subst body.
    destruct (digit_not_blank _ Hc) as (_ & _ & Hp & Hm & _).
    destruct (Ascii.eqb c "+") eqn:E1;
      [apply Ascii.eqb_eq in E1; congruence|].
    destruct (Ascii.eqb c "-") eqn:E2;
      [apply Ascii.eqb_eq in E2; congruence|].
    rewrite Hscan. cbn [rbind]. now rewrite Hcount, Hlim.
  - change (Ascii.eqb "+" "+") with true. cbv iota.
    rewrite Hscan. cbn [rbind PyStr.count_digits].
    change (PyStr.is_digit "+") with false. cbv iota.
    now rewrite Hcount, Z.add_0_l, Hlim.
Qed.

(** [int] accepts exactly the literals, and reads each as its value. *)
Lemma literal_py_int (s : string) (n : Z) :
  literal s n -> PyStr.py_int s = Ok n.
Proof.
  intros [pre sign body post v k Hpre Hpost Hsign Hb Hk].
  rewrite <- (append_assoc sign body post).
  rewrite (py_int_pad pre _ post Hpre Hpost).
  eapply signed_digits_py_int; eassumption.
Qed.

Lemma py_int_literal (s : string) (n : Z) :
  PyStr.contains "-" s = false -> PyStr.py_int s = Ok n -> literal s n.
Proof.
  intros Hminus. unfold PyStr.py_int.
  destruct (strip_by_cut PyStr.is_int_space s)
    as (pre & post & E & Hpre & Hpost).
  assert (Hpre' : all_chars int_blank pre = true).
  { erewrite all_chars_ext; [exact Hpre|]. apply int_blank_spec. }
  assert (Hpost' : all_chars int_blank post = true).
  { erewrite all_chars_ext; [exact Hpost|]. apply int_blank_spec. }
  assert (Hsub : PyStr.contains "-" (PyStr.strip_by PyStr.is_int_space s)
                 = false).
  { destruct (PyStr.contains "-" (PyStr.strip_by PyStr.is_int_space s))
      eqn:Ec; [|reflexivity].
    apply strip_by_sub in Ec. congruence. }
  destruct (PyStr.strip_by PyStr.is_int_space s) as [|c r] eqn:Et;
    [discriminate|].
  destruct (Ascii.eqb c "+") eqn:E1.
  - apply Ascii.eqb_eq in E1. subst c.
    destruct (PyStr.int_digits false 0 r) as [v|] eqn:Es; [|discriminate].
    cbn [rbind PyStr.count_digits].
    change (PyStr.is_digit "+") with false. cbv iota.
    destruct (_ <? _) eqn:Hlim; [discriminate|]. intros [= <-].
    apply Z.ltb_ge in Hlim.
    destruct (digits_scanned _ _ _ _ Es)
      as [(_ & Hp & _)|[(n & k & Hd & ->)|(Hp & _)]]; try discriminate.
    rewrite (count_digits_digits _ _ _ Hd) in Hlim.
    replace (0 * 10 ^ Z.of_nat k + n) with n by lia.
    rewrite E.
    apply (literal_intro pre "+" r post n k); auto.
  - destruct (Ascii.eqb c "-") eqn:E2.
    { apply Ascii.eqb_eq in E2. subst c. discriminate Hsub. }
    destruct (PyStr.int_digits false 0 (String c r)) as [v|] eqn:Es;
      [|discriminate].
    cbn [rbind]. destruct (_ <? _) eqn:Hlim; [discriminate|].
    intros [= <-]. apply Z.ltb_ge in Hlim.
    destruct (digits_scanned _ _ _ _ Es)
      as [(Hp & _)|[(n & k & Hd & ->)|(Hp & _)]]; try discriminate.
    rewrite (count_digits_digits _ _ _ Hd) in Hlim.
    replace (0 * 10 ^ Z.of_nat k + n) with n by lia.
    rewrite E.
    apply (literal_intro pre "" (String c r) post n k); auto.
Qed.

Lemma literal_nonneg (s : string) (n : Z) : literal s n -> 0 <= n.
Proof.
  intros [pre sign body post v k _ _ _ Hb _]. eapply digits_nonneg, Hb.
Qed.


(** ** One segment of a custom range *)

(** The two parsers treat a segment alike: unpacking the converted pieces
    (v3) fails on a third piece as unpacking the pieces (v4) does. *)
Lemma parse_part_agree (part : string) :
  V3.parse_part part = V4.parse_part part.
Proof.
  unfold V3.parse_part, V4.parse_part.
  destruct (PyStr.contains "-" (PyStr.strip part)); [|reflexivity].
  destruct (PyStr.split "-" (PyStr.strip part)) as [|a [|b [|c more]]];
    try reflexivity.
  destruct (PyStr.py_int a) as [x|e] eqn:Ea; simpl.
  - destruct (PyStr.py_int b) as [y|e] eqn:Eb; simpl; [reflexivity|].
    now rewrite (py_int_only_value_error _ _ Eb).
  - now rewrite (py_int_only_value_error _ _ Ea).
Qed.

Lemma parse_parts_agree (parts : list string) (blocks : list Z) :
  V3.parse_parts parts blocks = V4.parse_parts parts blocks.
Proof.
  revert blocks. induction parts as [|p ps IH]; intros blocks;
    [reflexivity|].
  simpl. rewrite parse_part_agree.
  destruct (V4.parse_part p); simpl; [apply IH|reflexivity].
Qed.

Lemma v4_parse_part_pad (l p r : string) :
  all_chars PyStr.is_space l = true -> all_chars PyStr.is_space r = true ->
  V4.parse_part (l ++ p ++ r)%string = V4.parse_part p.
Proof.
  intros Hl Hr. unfold V4.parse_part. now rewrite strip_pad.
Qed.

Lemma v3_parse_part_pad (l p r : string) :
  all_chars PyStr.is_space l = true -> all_chars PyStr.is_space r = true ->
  V3.parse_part (l ++ p ++ r)%string = V3.parse_part p.
Proof.
  intros Hl Hr. unfold V3.parse_part. now rewrite strip_pad.
Qed.

Lemma blank_is_space (s : string) :
  all_chars blank s = true -> all_chars PyStr.is_space s = true.
Proof.
  intros H. erewrite all_chars_ext; [exact H|].
  intros c. symmetry. apply blank_spec.
Qed.

Lemma int_blank_is_space (s : string) :
  all_chars int_blank s = true -> all_chars PyStr.is_space s = true.
Proof.
  intros H. apply blank_is_space.
  eapply all_chars_impl; [|exact H]. apply int_blank_is_blank.
Qed.

Lemma py_range_one (n : Z) : py_range n (n + 1) = [n].
Proof.
  unfold py_range. replace (n + 1 - n) with 1 by lia. simpl.
  f_equal. lia.
Qed.

Lemma extend_range_one (n : Z) : extend_range n (n + 1) = Ok [n].
Proof.
  unfold extend_range. replace (n + 1 - n) with 1 by lia.
  change (py_ssize_t_max <? 1) with false. cbv iota.
  now rewrite py_range_one.
Qed.

Lemma rstrip_app_tight (sp : ascii -> bool) (x y : string) :
  PyStr.rstrip sp y = y -> y <> EmptyString ->
  PyStr.rstrip sp (x ++ y)%string = (x ++ y)%string.
Proof.
  intros Hy Hne. induction x as [|c x IH]; simpl; [exact Hy|].
  rewrite IH. destruct (x ++ y)%string eqn:E; [|reflexivity].
  destruct x; simpl in E; [congruence|discriminate].
Qed.

(** The sign and digits of a literal, with nothing around them. *)
Lemma signed_digits_plain (sign body : string) (n : Z) (k : nat) (c : ascii) :
  sign = EmptyString \/ sign = "+" -> digits body n k ->
  c = "-"%char \/ c = ","%char ->
  PyStr.contains c (sign ++ body)%string = false.
Proof.
  intros Hsign Hb Hc. rewrite contains_app.
  assert (Hs : PyStr.contains c sign = false).
  { destruct Hsign as [->| ->]; destruct Hc; subst; reflexivity. }
  rewrite Hs.
  destruct (PyStr.contains c body) eqn:E; [|reflexivity].
  destruct (digits_chars _ _ _ _ Hb E) as [H|H];
    destruct Hc; subst; discriminate.
Qed.

Lemma parse_single (s : string) (n : Z) :
  literal s n -> V4.parse_part s = Ok [n].
Proof.
  intros [pre sign body post v k Hpre Hpost Hsign Hb Hk].
  rewrite <- (append_assoc sign body post).
  rewrite v4_parse_part_pad by now apply int_blank_is_space.
  unfold V4.parse_part, PyStr.strip.
  assert (Hsp : forall c, PyStr.is_digit c = true -> PyStr.is_space c = false).
  { intros c Hc. now destruct (digit_not_blank _ Hc) as (H & _). }
  rewrite (signed_digits_tight PyStr.is_space sign body v k Hsp eq_refl
             Hsign Hb).
  rewrite (signed_digits_plain sign body v k "-" Hsign Hb) by now left.
  now rewrite (signed_digits_py_int sign body v k Hsign Hb Hk).
Qed.

Lemma parse_pair (a b : string) (lo hi : Z) :
  literal a lo -> literal b hi ->
  V4.parse_part (a ++ String "-" b)%string = extend_range lo (hi + 1).
Proof.
  intros [pa sa ba qa va ka Hpa Hqa Hsa Hba Hka]
         [pb sb bb qb vb kb Hpb Hqb Hsb Hbb Hkb].
  set (first := ((sa ++ ba) ++ qa)%string).
  set (second := (pb ++ sb ++ bb)%string).
  replace ((pa ++ sa ++ ba ++ qa) ++ String "-" (pb ++ sb ++ bb ++ qb))%string
    with (pa ++ (first ++ String "-" second) ++ qb)%string.
  2:{ unfold first, second.
      repeat (rewrite append_assoc || cbn [append]). reflexivity. }
  rewrite v4_parse_part_pad by now apply int_blank_is_space.
  assert (Hsp : forall c, PyStr.is_digit c = true -> PyStr.is_space c = false).
  { intros c Hc. now destruct (digit_not_blank _ Hc) as (H & _). }
  assert (Hfirst : PyStr.contains "-" first = false).
  { unfold first. rewrite contains_app.
    rewrite (signed_digits_plain sa ba va ka "-" Hsa Hba) by now left.
    now apply all_chars_contains with (p := int_blank). }
  assert (Hsecond : PyStr.contains "-" second = false).
  { unfold second. rewrite contains_app.
    rewrite (signed_digits_plain sb bb vb kb "-" Hsb Hbb) by now left.
    rewrite orb_false_r. now apply all_chars_contains with (p := int_blank). }
  assert (Htight : PyStr.strip (first ++ String "-" second)
                   = (first ++ String "-" second)%string).
  { unfold PyStr.strip, PyStr.strip_by.
    assert (Hl : PyStr.lstrip PyStr.is_space (first ++ String "-" second)
                 = (first ++ String "-" second)%string).
    { unfold first. destruct (digits_head _ _ _ Hba) as (c & r & -> & Hc).
      destruct Hsa as [->| ->]; cbn [append PyStr.lstrip];
        [now rewrite (Hsp _ Hc)|reflexivity]. }
    rewrite Hl.
    replace (first ++ String "-" second)%string
      with ((first ++ String "-" pb) ++ sb ++ bb)%string.
    2:{ unfold second. repeat (rewrite append_assoc || cbn [append]).
        reflexivity. }
    apply rstrip_app_tight.
    - pose proof (signed_digits_tight PyStr.is_space sb bb vb kb Hsp eq_refl
                    Hsb Hbb) as Ht.
      unfold PyStr.strip_by in Ht.
      assert (Hl' : PyStr.lstrip PyStr.is_space (sb ++ bb) = (sb ++ bb)%string).
      { destruct (digits_head _ _ _ Hbb) as (c & r & -> & Hc).
        destruct Hsb as [->| ->]; cbn [append PyStr.lstrip];
          [now rewrite (Hsp _ Hc)|reflexivity]. }
      now rewrite Hl' in Ht.
    - destruct (digits_head _ _ _ Hbb) as (c & r & -> & _).
      destruct Hsb as [->| ->]; discriminate. }
  unfold V4.parse_part. rewrite Htight, contains_app. cbn [PyStr.contains].
  rewrite Ascii.eqb_refl, orb_true_r. cbn [orb]. cbv iota.
  rewrite (split_app "-" first second Hfirst).
  rewrite (split_no_sep "-" second Hsecond).
  assert (E1 : PyStr.py_int first = Ok va).
  { apply literal_py_int. unfold first. rewrite append_assoc.
    apply (literal_intro "" sa ba qa va ka); auto. }
  assert (E2 : PyStr.py_int second = Ok vb).
  { apply literal_py_int. unfold second.
    rewrite <- (append_nil_r bb).
    apply (literal_intro pb sb bb "" vb kb); auto. }
  rewrite E1, E2. reflexivity.
Qed.

(** A numeric segment resolves to its integers, unless it lists too many. *)
Lemma reads_parse_part (p : string) (lo hi : Z) :
  reads p lo hi -> V4.parse_part p = extend_range lo (hi + 1).
Proof.
  intros [l s r n Hl Hr Hs|l a b r x y Hl Hr Ha Hb].
  - rewrite v4_parse_part_pad by now apply blank_is_space.
    rewrite extend_range_one. now apply parse_single.
  - replace (l ++ a ++ String "-" b ++ r)%string
      with (l ++ (a ++ String "-" b) ++ r)%string.
    2:{ repeat (rewrite append_assoc || cbn [append]). reflexivity. }
    rewrite v4_parse_part_pad by now apply blank_is_space.
    now apply parse_pair.
Qed.

(** A segment the parser does not give up on with a [ValueError] is
    numeric. *)
Lemma parse_part_reads (p : string) :
  (exists lo hi, reads p lo hi) \/ V4.parse_part p = Raise ValueError.
Proof.
  unfold V4.parse_part.
  destruct (strip_by_cut PyStr.is_space p) as (l & r & E & Hl & Hr).
  fold (PyStr.strip p) in E.
  assert (Hl' : all_chars blank l = true).
  { erewrite all_chars_ext; [exact Hl|]. apply blank_spec. }
  assert (Hr' : all_chars blank r = true).
  { erewrite all_chars_ext; [exact Hr|]. apply blank_spec. }
  destruct (PyStr.contains "-" (PyStr.strip p)) eqn:Hc.
  - destruct (PyStr.split "-" (PyStr.strip p)) as [|a [|b [|c more]]] eqn:Es;
      try (now right).
    destruct (split_two _ _ _ _ Es) as (Et & Ha & Hb).
    destruct (PyStr.py_int a) as [x|e] eqn:Ea; cbn [rbind].
    2:{ right. now rewrite (py_int_only_value_error _ _ Ea). }
    destruct (PyStr.py_int b) as [y|e] eqn:Eb; cbn [rbind].
    2:{ right. now rewrite (py_int_only_value_error _ _ Eb). }
    left. exists x, y. rewrite E, Et.
    replace (l ++ (a ++ String "-" b) ++ r)%string
      with (l ++ a ++ String "-" b ++ r)%string.
    2:{ repeat (rewrite append_assoc || cbn [append]). reflexivity. }
    apply reads_pair; auto; now apply py_int_literal.
  - destruct (PyStr.py_int (PyStr.strip p)) as [n|e] eqn:En; cbn [rbind].
    2:{ right. now rewrite (py_int_only_value_error _ _ En). }
    left. exists n, n. rewrite E at 1.
    apply reads_single; auto. now apply py_int_literal.
Qed.


Lemma reads_nonneg (p : string) (lo hi : Z) :
  reads p lo hi -> 0 <= lo.
Proof.
  intros [l s r n _ _ Hs|l a b r x y _ _ Ha _]; eapply literal_nonneg;
    eassumption.
Qed.


(** ** A whole custom range *)



Lemma malformed_parse_part (p : string) :
  malformed p -> V4.parse_part p = Raise ValueError.
Proof.
  intros H. destruct (parse_part_reads p) as [(lo & hi & Hr)|E]; [|exact E].
  now elim (H lo hi).
Qed.









(** ** Well-formed custom ranges *)








Module RangeParser.




End RangeParser.

(** ** Malformed custom ranges *)

Module RangeErrors.




End RangeErrors.


Module Presets.

(** C9: a preset name that is neither ["custom"] nor a key of the parser's
    table resolves, without an error, to the blocks 0 to 10, in both node
    classes and whatever the custom range text is. *)
Theorem unknown_preset_falls_back (name : string) (custom4 : string)
  (custom3 : option string) :
  name <> "custom" ->
  (dict_has V4.range_map name = false ->
   V4.parse_block_range name custom4 = Ok [0; 1; 2; 3; 4; 5; 6; 7; 8; 9; 10])
  /\
  (dict_has V3.ranges name = false ->
   V3.parse_block_range name custom3 = Ok [0; 1; 2; 3; 4; 5; 6; 7; 8; 9; 10]).
Proof.
  intros Hname.
  assert (E : String.eqb name "custom" = false).
  { now apply String.eqb_neq. }
  split; intros Hmiss.
  - unfold V4.parse_block_range. rewrite E.
    rewrite (dict_get_missing _ _ _ Hmiss). reflexivity.
  - unfold V3.parse_block_range. rewrite E. simpl andb. cbv iota.
    rewrite (dict_get_missing _ _ _ Hmiss). reflexivity.
Qed.

Lemma unknown_preset_falls_back_witness :
  V4.parse_block_range "late_25-39_textures" "3-4"
    = Ok [0; 1; 2; 3; 4; 5; 6; 7; 8; 9; 10] /\
  V3.parse_block_range "late_25-39_textures" (Some "3-4")
    = Ok [0; 1; 2; 3; 4; 5; 6; 7; 8; 9; 10].
Proof.
  destruct (unknown_preset_falls_back "late_25-39_textures" "3-4"
              (Some "3-4")) as [H4 H3]; [discriminate|].
  split; [apply H4 | apply H3]; reflexivity.
Defined.

End Presets.

(** ** Resolved block indices are not negative *)

Lemma v4_parse_part_nonneg (part : string) (xs : list Z) :
  V4.parse_part part = Ok xs -> Forall (fun x => 0 <= x) xs.
Proof.
  intros E. destruct (parse_part_reads part) as [(lo & hi & Hr)|E'];
    [|congruence].
  pose proof (reads_nonneg _ _ _ Hr) as Hlo.
  apply reads_parse_part in Hr. rewrite E in Hr. unfold extend_range in Hr.
  destruct (_ <? _); [discriminate|]. injection Hr as ->.
  apply Forall_forall. intros x Hx. apply In_py_range in Hx. lia.
Qed.

Lemma v3_parse_part_nonneg (part : string) (xs : list Z) :
  V3.parse_part part = Ok xs -> Forall (fun x => 0 <= x) xs.
Proof. rewrite parse_part_agree. apply v4_parse_part_nonneg. Qed.

Lemma v4_parse_parts_nonneg (parts : list string) (blocks out : list Z) :
  Forall (fun x => 0 <= x) blocks ->
  V4.parse_parts parts blocks = Ok out -> Forall (fun x => 0 <= x) out.
Proof.
  revert blocks. induction parts as [|p ps IH]; intros blocks Hb; simpl.
  - now intros [= <-].
  - destruct (V4.parse_part p) as [xs|] eqn:E; [|discriminate]. simpl.
    apply IH. apply Forall_app. split; [exact Hb|].
    eapply v4_parse_part_nonneg, E.
Qed.

Lemma v3_parse_parts_nonneg (parts : list string) (blocks out : list Z) :
  Forall (fun x => 0 <= x) blocks ->
  V3.parse_parts parts blocks = Ok out -> Forall (fun x => 0 <= x) out.
Proof.
  revert blocks. induction parts as [|p ps IH]; intros blocks Hb; simpl.
  - now intros [= <-].
  - destruct (V3.parse_part p) as [xs|] eqn:E; [|discriminate]. simpl.
    apply IH. apply Forall_app. split; [exact Hb|].
    eapply v3_parse_part_nonneg, E.
Qed.

Lemma sorted_set_Forall (P : Z -> Prop) (l : list Z) :
  Forall P l -> Forall P (sorted_set l).
Proof.
  rewrite !Forall_forall. intros H x Hx. apply H. now apply sorted_set_In.
Qed.

Lemma v4_parse_block_range_nonneg (name custom : string) (out : list Z) :
  V4.parse_block_range name custom = Ok out -> Forall (fun x => 0 <= x) out.
Proof.
  unfold V4.parse_block_range.
  destruct (V4.parse_parts _ []) as [blocks|] eqn:E; [|discriminate].
  simpl. intros [= <-]. apply sorted_set_Forall.
  eapply v4_parse_parts_nonneg; [constructor|exact E].
Qed.

Lemma v3_parse_block_range_nonneg (name : string) (custom : option string)
  (out : list Z) :
  V3.parse_block_range name custom = Ok out -> Forall (fun x => 0 <= x) out.
Proof.
  unfold V3.parse_block_range.
  destruct (String.eqb name "custom" && V3.truthy custom).
  - destruct custom as [text|]; [|discriminate].
    destruct (V3.parse_parts _ []) as [blocks|] eqn:E; [|discriminate].
    simpl. intros [= <-]. apply sorted_set_Forall.
    eapply v3_parse_parts_nonneg; [constructor|exact E].
  - intros [= <-]. unfold V3.ranges. simpl dict_get.
    repeat match goal with
           | |- context [if ?b then _ else _] => destruct b
           end;
      apply Forall_forall; intros x Hx; apply In_py_range in Hx; lia.
Qed.

(** ** Registering hooks *)

Lemma frame_refl (m : model) : frame m m.
Proof. repeat split. Qed.

Lemma frame_trans (m1 m2 m3 : model) :
  frame m1 m2 -> frame m2 m3 -> frame m1 m3.
Proof.
  unfold frame. intros (A1 & A2 & A3 & A4 & A5) (B1 & B2 & B3 & B4 & B5).
  repeat split; congruence.
Qed.

Lemma grows_nil (P : hook -> Prop) (m m' : model) :
  frame m m' -> active m' = active m -> next_id m' = next_id m ->
  grows P m m' [].
Proof.
  intros Hf Ha Hn. unfold grows. simpl.
  rewrite app_nil_r, Nat.add_0_r.
  split; [exact Hf|]. repeat split; auto.
Qed.

Lemma grows_trans (P : hook -> Prop) (m1 m2 m3 : model)
  (new1 new2 : list hook) :
  grows P m1 m2 new1 -> grows P m2 m3 new2 -> grows P m1 m3 (new1 ++ new2).
Proof.
  intros (F1 & A1 & N1 & I1 & P1) (F2 & A2 & N2 & I2 & P2).
  unfold grows. repeat split.
  - apply (proj1 (frame_trans _ _ _ F1 F2)).
  - apply (frame_trans _ _ _ F1 F2).
  - apply (frame_trans _ _ _ F1 F2).
  - apply (frame_trans _ _ _ F1 F2).
  - apply (frame_trans _ _ _ F1 F2).
  - rewrite A2, A1. now rewrite app_assoc.
  - rewrite N2, N1, length_app. lia.
  - rewrite map_app, I1, I2, N1, length_app. now rewrite seq_app.
  - apply Forall_app. now split.
Qed.

Lemma grows_complete (P : hook -> Prop) (m m' : model) (new : list hook) :
  grows P m m' new -> complete (blocks m) -> complete (blocks m').
Proof.
  intros ((Hb & _) & _) H. now rewrite Hb.
Qed.

Lemma attaches_ret {X : Type} (P : hook -> Prop) :
  attaches (X := X) P True (fun st => ret st).
Proof.
  intros st m r m' [= <- <-]. exists []. split; [|split].
  - apply grows_nil; [apply frame_refl|reflexivity|reflexivity].
  - intros st' [= <-]. simpl. now rewrite app_nil_r.
  - eauto.
Qed.

Lemma attaches_weaken {X : Type} (P : hook -> Prop) (g g' : Prop)
  (c : list nat * X -> M (list nat * X)) :
  (g' -> g) -> attaches P g c -> attaches P g' c.
Proof.
  intros Hg H st m r m' E. destruct (H st m r m' E) as (new & G & Hh & Ht).
  exists new. split; [exact G|]. split; [exact Hh|]. auto.
Qed.

Lemma attaches_bind {X : Type} (P : hook -> Prop) (g1 g2 : Prop)
  (c1 : list nat * X -> M (list nat * X))
  (c2 : list nat * X -> list nat * X -> M (list nat * X)) :
  attaches P g1 c1 -> (forall st0, attaches P g2 (c2 st0)) ->
  attaches P (g1 /\ g2) (fun st => bind (c1 st) (c2 st)).
Proof.
  intros H1 H2 st m r m' E. unfold bind in E.
  destruct (c1 st m) as [[st1|e] m1] eqn:E1.
  - destruct (H1 _ _ _ _ E1) as (new1 & G1 & Hh1 & Ht1).
    destruct (H2 st _ _ _ _ E) as (new2 & G2 & Hh2 & Ht2).
    exists (new1 ++ new2). split; [|split].
    + eapply grows_trans; eassumption.
    + intros st' ->. rewrite (Hh2 _ eq_refl), (Hh1 _ eq_refl).
      now rewrite map_app, app_assoc.
    + intros [Hg1 Hg2] Hc. apply Ht2; [exact Hg2|].
      eapply grows_complete; eassumption.
  - injection E as <- <-.
    destruct (H1 _ _ _ _ E1) as (new1 & G1 & Hh1 & Ht1).
    exists new1. split; [exact G1|split].
    + discriminate.
    + intros [Hg1 _] Hc. destruct (Ht1 Hg1 Hc) as [st' Hst']. discriminate.
Qed.

Lemma attaches_for_each {A X : Type} (P : hook -> Prop) (G : A -> Prop)
  (body : A -> list nat * X -> M (list nat * X)) (l : list A) :
  (forall x, In x l -> attaches P (G x) (body x)) ->
  attaches P (Forall G l) (fun st => for_each l body st).
Proof.
  induction l as [|x l IH]; intros Hbody.
  - simpl. eapply attaches_weaken; [|apply attaches_ret]. auto.
  - simpl. eapply attaches_weaken;
      [|apply (attaches_bind P (G x) (Forall G l) (body x)
                 (fun _ st' => for_each l body st'))].
    + intros H. inversion H; subst. now split.
    + apply Hbody. now left.
    + intros _. apply IH. intros y Hy. apply Hbody. now right.
Qed.

Lemma attaches_component (P : hook -> Prop) (who : maker) (pos : nat)
  (kind : attn_kind) (attn : attention) (cs : component * float) :
  (differs_from_one (snd cs) = true ->
   forall id, P {| hook_id := id; hook_block := pos; hook_kind := kind;
                   hook_comp := fst cs; hook_scale := snd cs;
                   hook_maker := who |}) ->
  attaches P True (attach_component who pos kind attn cs).
Proof.
  intros HP st m r m'. unfold attach_component.
  destruct (differs_from_one (snd cs)) eqn:Hd; simpl andb;
    [destruct (hasattr_comp attn (fst cs))|]; cbv iota;
    try apply (attaches_ret P st m r m').
  unfold bind, register_forward_hook, ret. intros [= <- <-].
  eexists [_]. split; [|split].
  - unfold grows. simpl. repeat split; try reflexivity.
    + now rewrite Nat.add_1_r.
    + repeat constructor. now apply HP.
  - intros st' [= <-]. reflexivity.
  - eauto.
Qed.

Lemma attaches_components {C : Type} (P : hook -> Prop) (who : maker)
  (pos : nat) (kind : attn_kind) (attn : attention) (s : settings C) :
  permits P who s ->
  attaches P True
    (fun st => for_each (components s)
                 (attach_component who pos kind attn) st).
Proof.
  intros HP.
  apply attaches_weaken with (g := Forall (fun _ => True) (components s)).
  - intros _. apply Forall_forall. auto.
  - apply attaches_for_each. intros cs Hcs. apply attaches_component.
    intros Hd id. now apply HP.
Qed.

Lemma quiet_print (d : diag) : quiet_step (print d).
Proof.
  intros m. eexists. split; [reflexivity|]. repeat split.
Qed.

Lemma quiet_ret : quiet_step (ret tt).
Proof.
  intros m. exists m. repeat split.
Qed.

Lemma quiet_note (cond : bool) (d : diag) : quiet_step (V3.note cond d).
Proof.
  unfold V3.note. destruct cond; [apply quiet_print|apply quiet_ret].
Qed.

Lemma attaches_quiet {X : Type} (P : hook -> Prop)
  (c : list nat * X -> M unit) :
  (forall st, quiet_step (c st)) ->
  attaches P True (fun st => c st ;; ret st).
Proof.
  intros Hq st m r m' E. unfold bind in E.
  destruct (Hq st m) as (m1 & E1 & F & Ha & Hn). rewrite E1 in E.
  injection E as <- <-. exists []. split; [|split].
  - now apply grows_nil.
  - intros st' [= <-]. simpl. now rewrite app_nil_r.
  - eauto.
Qed.

Lemma attaches_raise {X : Type} (P : hook -> Prop) (e : exn) :
  attaches (X := X) P False (fun _ => raise e).
Proof.
  intros st m r m' [= <- <-]. exists []. split; [|split].
  - apply grows_nil; [apply frame_refl|reflexivity|reflexivity].
  - discriminate.
  - intros [].
Qed.

Lemma bind_get {A B : Type} (f : model -> A) (k : A -> M B) (m : model) :
  bind (get f) k m = k (f m) m.
Proof. reflexivity. Qed.

Lemma get_block_cases (i : Z) (m : model) :
  (exists pos b, get_block i m = (Ok (pos, b), m) /\
                 nth_error (blocks m) pos = Some b) \/
  (get_block i m = (Raise IndexError, m) /\ ~ (0 <= i < len_blocks m)).
Proof.
  unfold get_block.
  destruct (((if i <? 0 then len_blocks m + i else i) <? 0)
            || (len_blocks m <=? (if i <? 0 then len_blocks m + i else i)))
    eqn:Hout.
  - right. split; [reflexivity|].
    destruct (i <? 0) eqn:Hneg.
    + apply Z.ltb_lt in Hneg. lia.
    + apply orb_true_iff in Hout. destruct Hout as [H|H].
      * apply Z.ltb_lt in H. lia.
      * apply Z.leb_le in H. lia.
  - destruct (nth_error (blocks m) _) as [b|] eqn:Hnth.
    + left. eauto.
    + exfalso. apply nth_error_None in Hnth.
      apply orb_false_iff in Hout. destruct Hout as [H1 H2].
      apply Z.ltb_ge in H1. apply Z.leb_gt in H2.
      unfold len_blocks in *. lia.
Qed.

Lemma complete_nth (bs : list block) (pos : nat) (b : block) :
  complete bs -> nth_error bs pos = Some b ->
  audio_cross_attn_wrapper b <> Some None.
Proof.
  intros Hc Hn. unfold complete in Hc. rewrite Forall_forall in Hc.
  apply Hc. eapply nth_error_In, Hn.
Qed.

(** The shape shared by the three loop bodies: the bounds check, the
    look-up, then sections that attach hooks. *)
Lemma attaches_visit {X : Type} (P : hook -> Prop) (block_idx : Z)
  (skip : Z -> list nat * X -> M unit)
  (sections : nat * block -> list nat * X -> M (list nat * X)) :
  (forall n st, quiet_step (skip n st)) ->
  (forall pb, attaches P (audio_cross_attn_wrapper (snd pb) <> Some None)
                (sections pb)) ->
  attaches P (0 <= block_idx)
    (fun st =>
       n <- get len_blocks ;;
       if n <=? block_idx then skip n st ;; ret st
       else pb <- get_block block_idx ;; sections pb st).
Proof.
  intros Hskip Hsec st m r m' E. rewrite bind_get in E.
  destruct (len_blocks m <=? block_idx) eqn:Hlen.
  - destruct (attaches_quiet P (skip (len_blocks m)) (Hskip _) st m r m' E)
      as (new & G & Hh & Ht).
    exists new. repeat split; try apply G; auto.
  - apply Z.leb_gt in Hlen. unfold bind in E.
    destruct (get_block_cases block_idx m)
      as [(pos & b & Eg & Hn)|[Eg Hno]]; rewrite Eg in E.
    + destruct (Hsec (pos, b) st m r m' E) as (new & G & Hh & Ht).
      exists new. split; [exact G|split; [exact Hh|]].
      intros _ Hc. apply Ht; [|exact Hc].
      simpl. eapply complete_nth; eassumption.
    + injection E as <- <-. exists []. split; [|split].
      * apply grows_nil; [apply frame_refl|reflexivity|reflexivity].
      * discriminate.
      * intros Hpos _. exfalso. apply Hno. lia.
Qed.

Lemma v4_attaches_patch_block (P : hook -> Prop)
  (audio cross self_ : settings string)
  (ai ci si : list Z) (block_idx : Z) (pb : nat * block) :
  permits P ScaleHook audio -> permits P ScaleHook cross ->
  permits P ScaleHook self_ ->
  attaches P (audio_cross_attn_wrapper (snd pb) <> Some None)
    (V4.patch_block audio cross self_ ai ci si block_idx pb).
Proof.
  intros Ha Hc Hs. unfold V4.patch_block.
  eapply attaches_weaken;
    [|apply attaches_bind; [|intros _; apply attaches_bind]].
  - intros H. split; [exact H|exact (conj I I)].
  - destruct (mem block_idx ai);
      [|apply attaches_weaken with (g := True); auto using attaches_ret].
    destruct (audio_cross_attn_wrapper (snd pb)) as [[attn|]|].
    + apply attaches_weaken with (g := True); [auto|].
      now apply attaches_components.
    + apply attaches_weaken with (g := False); [congruence|].
      apply attaches_raise.
    + apply attaches_weaken with (g := True); auto using attaches_ret.
  - destruct (mem block_idx ci); [|apply attaches_ret].
    destruct (cross_attn (snd pb)) as [attn|]; [|apply attaches_ret].
    now apply attaches_components.
  - intros _. destruct (mem block_idx si); [|apply attaches_ret].
    destruct (self_attn (snd pb)) as [attn|]; [|apply attaches_ret].
    now apply attaches_components.
Qed.

Lemma v4_attaches_visit (P : hook -> Prop)
  (audio cross self_ : settings string)
  (ai ci si : list Z) (block_idx : Z) :
  permits P ScaleHook audio -> permits P ScaleHook cross ->
  permits P ScaleHook self_ ->
  attaches P (0 <= block_idx)
    (V4.visit audio cross self_ ai ci si block_idx).
Proof.
  intros Ha Hc Hs. unfold V4.visit.
  apply (attaches_visit _ block_idx
           (fun n _ => print (DBlockMissing block_idx (n - 1)))).
  - intros n st. apply quiet_print.
  - intros pb. now apply v4_attaches_patch_block.
Qed.

Lemma v3_attaches_attach_all (P : hook -> Prop) (pos : nat)
  (kind : attn_kind) (attn : attention) (s : settings (option string)) :
  permits P BoostHook s ->
  attaches P True (V3.attach_all pos kind attn s).
Proof.
  intros HP. unfold V3.attach_all.
  eapply attaches_weaken;
    [|apply attaches_bind;
      [|intros _; apply attaches_bind;
        [|intros _; apply attaches_bind; [|intros _]]]];
    try (apply attaches_component; intros Hd id;
         apply (HP (_, _)); [simpl; tauto|exact Hd]).
  tauto.
Qed.

Lemma v3_attaches_section (P : hook -> Prop) (pos : nat) (kind : attn_kind)
  (attn : attention) (s : settings (option string))
  (cond : list nat * nat -> list nat * nat -> bool) (d : diag) :
  permits P BoostHook s ->
  attaches P True
    (fun st =>
       st' <- V3.attach_all pos kind attn s st ;;
       V3.note (cond st st') d ;; ret st').
Proof.
  intros HP.
  eapply attaches_weaken;
    [|apply (attaches_bind _ True True (V3.attach_all pos kind attn s)
               (fun st st' => V3.note (cond st st') d ;; ret st'))].
  - tauto.
  - now apply v3_attaches_attach_all.
  - intros st0. apply (attaches_quiet _ (fun st' => V3.note (cond st0 st') d)).
    intros st'. apply quiet_note.
Qed.

Lemma v3_attaches_patch_block (P : hook -> Prop)
  (audio cross self_ : settings (option string))
  (ai ci si : list Z) (block_idx : Z) (pb : nat * block) :
  permits P BoostHook audio -> permits P BoostHook cross ->
  permits P BoostHook self_ ->
  attaches P (audio_cross_attn_wrapper (snd pb) <> Some None)
    (V3.patch_block audio cross self_ ai ci si block_idx pb).
Proof.
  intros Ha Hc Hs. unfold V3.patch_block.
  eapply attaches_weaken;
    [|apply attaches_bind; [|intros _; apply attaches_bind]].
  - intros H. split; [exact H|exact (conj I I)].
  - destruct (mem block_idx ai);
      [|apply attaches_weaken with (g := True); auto using attaches_ret].
    destruct (audio_cross_attn_wrapper (snd pb)) as [[attn|]|].
    + apply attaches_weaken with (g := True); [auto|].
      now apply (v3_attaches_section _ _ _ _ _
                   (fun _ st' => (0 <? snd st')%nat)).
    + apply attaches_weaken with (g := False); [congruence|].
      apply attaches_raise.
    + apply attaches_weaken with (g := True); [auto|].
      apply (attaches_quiet _ (fun _ => print (DNoAudioWrapper block_idx))).
      intros _. apply quiet_print.
  - destruct (mem block_idx ci); [|apply attaches_ret].
    destruct (cross_attn (snd pb)) as [attn|]; [|apply attaches_ret].
    now apply (v3_attaches_section _ _ _ _ _
                 (fun st st' => (snd st <? snd st')%nat)).
  - intros _. destruct (mem block_idx si); [|apply attaches_ret].
    destruct (self_attn (snd pb)) as [attn|]; [|apply attaches_ret].
    now apply (v3_attaches_section _ _ _ _ _
                 (fun st st' => (snd st <? snd st')%nat)).
Qed.

Lemma v3_attaches_visit (P : hook -> Prop)
  (audio cross self_ : settings (option string))
  (ai ci si : list Z) (block_idx : Z) :
  permits P BoostHook audio -> permits P BoostHook cross ->
  permits P BoostHook self_ ->
  attaches P (0 <= block_idx)
    (V3.visit audio cross self_ ai ci si block_idx).
Proof.
  intros Ha Hc Hs. unfold V3.visit.
  apply (attaches_visit _ block_idx
           (fun n _ => print (DBlockMissing block_idx (n - 1)))).
  - intros n st. apply quiet_print.
  - intros pb. now apply v3_attaches_patch_block.
Qed.

Lemma suppress_attaches_visit (strength : float) (block_idx : Z) :
  attaches (suppress_hook strength) (0 <= block_idx)
    (Suppress.visit strength block_idx).
Proof.
  unfold Suppress.visit.
  apply (attaches_visit _ block_idx (fun _ _ => ret tt)).
  - intros n st. apply quiet_ret.
  - intros pb.
    destruct (audio_cross_attn_wrapper (snd pb)) as [[attn|]|].
    + apply attaches_weaken with (g := True); [auto|].
      destruct (has_o attn); [|apply attaches_ret].
      intros st m r m'. unfold bind, register_forward_hook, ret.
      intros [= <- <-]. eexists [_]. split; [|split].
      * unfold grows. simpl. repeat split; try reflexivity.
        -- now rewrite Nat.add_1_r.
        -- repeat constructor.
      * intros st' [= <-]. reflexivity.
      * eauto.
    + apply attaches_weaken with (g := False); [congruence|].
      apply attaches_raise.
    + apply attaches_weaken with (g := True); [auto|]. apply attaches_ret.
Qed.

(** ** Removing hooks *)

Lemma has_id_In (ids : list nat) (h : hook) :
  has_id ids h = true <-> In (hook_id h) ids.
Proof.
  unfold has_id. rewrite existsb_exists. split.
  - intros [i [Hi E]]. apply Nat.eqb_eq in E. now subst.
  - intros H. exists (hook_id h). split; [exact H|apply Nat.eqb_refl].
Qed.

Lemma In_without (h : hook) (ids : list nat) (l : list hook) :
  In h (without ids l) <-> In h l /\ ~ In (hook_id h) ids.
Proof.
  unfold without. rewrite filter_In, negb_true_iff.
  rewrite <- has_id_In. destruct (has_id ids h); intuition congruence.
Qed.

Lemma without_ext (ids1 ids2 : list nat) (l : list hook) :
  (forall i, In i ids1 <-> In i ids2) -> without ids1 l = without ids2 l.
Proof.
  intros H. unfold without. apply filter_ext. intros h. f_equal.
  destruct (has_id ids1 h) eqn:E1, (has_id ids2 h) eqn:E2; try reflexivity.
  - apply has_id_In, H, has_id_In in E1. congruence.
  - apply has_id_In, H, has_id_In in E2. congruence.
Qed.

Lemma without_all (ids : list nat) (l : list hook) :
  (forall h, In h l -> ~ In (hook_id h) ids) -> without ids l = l.
Proof.
  intros H. induction l as [|h l IH]; [reflexivity|].
  unfold without in *. simpl.
  destruct (has_id ids h) eqn:E.
  - exfalso. apply (H h); [now left|]. now apply has_id_In.
  - simpl. f_equal. apply IH. intros x Hx. apply H. now right.
Qed.

Lemma without_none (ids : list nat) (l : list hook) :
  (forall h, In h l -> In (hook_id h) ids) -> without ids l = [].
Proof.
  intros H. induction l as [|h l IH]; [reflexivity|].
  unfold without in *. simpl.
  destruct (has_id ids h) eqn:E.
  - simpl. apply IH. intros x Hx. apply H. now right.
  - exfalso. assert (Hh : has_id ids h = true)
      by (apply has_id_In, H; now left). congruence.
Qed.

Lemma without_app (ids : list nat) (l1 l2 : list hook) :
  without ids (l1 ++ l2) = without ids l1 ++ without ids l2.
Proof. unfold without. apply filter_app. Qed.

Lemma without_without (a b : list nat) (l : list hook) :
  without a (without b l) = without (b ++ a) l.
Proof.
  induction l as [|h l IH]; [reflexivity|].
  unfold without in *. simpl.
  assert (E : has_id (b ++ a) h = has_id b h || has_id a h).
  { unfold has_id. apply existsb_app. }
  rewrite E. destruct (has_id b h); simpl.
  - exact IH.
  - destruct (has_id a h); simpl; [exact IH|now f_equal].
Qed.

Lemma without_remove (h : nat) (ids : list nat) (l : list hook) :
  without ids (filter (fun e => negb (Nat.eqb (hook_id e) h)) l)
  = without (h :: ids) l.
Proof.
  induction l as [|e l IH]; [reflexivity|].
  unfold without, has_id in *. simpl.
  destruct (Nat.eqb (hook_id e) h); simpl; [exact IH|].
  destruct (existsb (Nat.eqb (hook_id e)) ids); simpl; [exact IH|].
  now f_equal.
Qed.

Lemma without_cons_absent (h : nat) (ids : list nat) (l : list hook) :
  ~ In h (map hook_id l) -> without (h :: ids) l = without ids l.
Proof.
  intros Hh. unfold without. apply filter_ext_in. intros e He.
  unfold has_id. simpl.
  destruct (Nat.eqb (hook_id e) h) eqn:E; [|reflexivity].
  exfalso. apply Hh. apply Nat.eqb_eq in E. subst h. now apply in_map.
Qed.

(** The clean-up loop of the v4 nodes: every handle is tried, a failing
    removal is passed over, and the hooks of the handles are gone. *)
Lemma remove_quietly_spec (hooks : list nat) (m : model) :
  Forall (fun i => ~ In i (map hook_id (active m))) (invalid m) ->
  exists m',
    for_each hooks (fun h _ => try_pass (remove h)) tt m = (Ok tt, m') /\
    frame m m' /\ next_id m' = next_id m /\
    active m' = without hooks (active m).
Proof.
  revert m. induction hooks as [|h hooks IH]; intros m Hinv.
  - exists m. repeat split. symmetry. now apply without_all.
  - simpl. unfold bind at 1. unfold try_pass, remove.
    destruct (existsb (Nat.eqb h) (invalid m)) eqn:E.
    + destruct (IH m Hinv) as (m' & Em & F & N & A).
      exists m'. repeat split; try apply F; auto.
      rewrite A. apply existsb_exists in E.
      destruct E as [i [Hi Ei]]. apply Nat.eqb_eq in Ei. subst i.
      rewrite Forall_forall in Hinv. specialize (Hinv _ Hi).
      symmetry. apply without_cons_absent. exact Hinv.
    + set (m1 := set_active _ (next_id m) m).
      assert (Hinv1 : Forall (fun i => ~ In i (map hook_id (active m1)))
                             (invalid m1)).
      { simpl. eapply Forall_impl; [|exact Hinv].
        intros i Hi Hin. apply Hi. apply in_map_iff in Hin.
        destruct Hin as [x [<- Hx]]. apply filter_In in Hx.
        apply in_map, Hx. }
      destruct (IH m1 Hinv1) as (m' & Em & F & N & A).
      exists m'. split; [exact Em|]. split; [|split].
      * eapply frame_trans; [|exact F]. repeat split.
      * rewrite N. reflexivity.
      * rewrite A. simpl. apply without_remove.
Qed.

Lemma bind_ok {A B : Type} (c : M A) (k : A -> M B) (m m1 : model) (a : A) :
  c m = (Ok a, m1) -> bind c k m = k a m1.
Proof. intros E. unfold bind. now rewrite E. Qed.

Lemma clear_control_spec (m : model) :
  Forall (fun i => ~ In i (map hook_id (active m))) (invalid m) ->
  exists m',
    clear_attr attention_control_hooks set_attention_control_hooks m
      = (Ok tt, m') /\
    blocks m' = blocks m /\ invalid m' = invalid m /\
    next_id m' = next_id m /\
    attention_boost_hooks m' = attention_boost_hooks m /\
    lipsync_suppress_hooks m' = lipsync_suppress_hooks m /\
    tracked_by attention_control_hooks m' = [] /\
    (attention_control_hooks m = None -> attention_control_hooks m' = None) /\
    active m' = without (tracked_by attention_control_hooks m) (active m).
Proof.
  intros Hinv. unfold clear_attr, tracked_by. rewrite bind_get.
  destruct (attention_control_hooks m) as [hooks|] eqn:E.
  - destruct (remove_quietly_spec hooks m Hinv)
      as (m1 & E1 & (F1 & F2 & F3 & F4 & F5) & N & A).
    rewrite (bind_ok _ _ _ _ _ E1). eexists. split; [reflexivity|].
    simpl. repeat split; auto. discriminate.
  - exists m. rewrite E. repeat split.
    symmetry. now apply without_all.
Qed.

Lemma clear_suppress_spec (m : model) :
  Forall (fun i => ~ In i (map hook_id (active m))) (invalid m) ->
  exists m',
    clear_attr lipsync_suppress_hooks set_lipsync_suppress_hooks m
      = (Ok tt, m') /\
    blocks m' = blocks m /\ invalid m' = invalid m /\
    next_id m' = next_id m /\
    attention_boost_hooks m' = attention_boost_hooks m /\
    attention_control_hooks m' = attention_control_hooks m /\
    tracked_by lipsync_suppress_hooks m' = [] /\
    (lipsync_suppress_hooks m = None -> lipsync_suppress_hooks m' = None) /\
    active m' = without (tracked_by lipsync_suppress_hooks m) (active m).
Proof.
  intros Hinv. unfold clear_attr, tracked_by. rewrite bind_get.
  destruct (lipsync_suppress_hooks m) as [hooks|] eqn:E.
  - destruct (remove_quietly_spec hooks m Hinv)
      as (m1 & E1 & (F1 & F2 & F3 & F4 & F5) & N & A).
    rewrite (bind_ok _ _ _ _ _ E1). eexists. split; [reflexivity|].
    simpl. repeat split; auto. discriminate.
  - exists m. rewrite E. repeat split.
    symmetry. now apply without_all.
Qed.

(** ** The general control node (v4) *)

Lemma bind_lift {A B : Type} (a : A) (k : A -> M B) (m : model) :
  bind (lift (Ok a)) k m = k a m.
Proof. reflexivity. Qed.

Lemma bind_quiet {B : Type} (c : M unit) (k : unit -> M B) (m : model) :
  quiet_step c ->
  exists m1, bind c k m = k tt m1 /\ frame m m1 /\
             active m1 = active m /\ next_id m1 = next_id m.
Proof.
  intros Hq. destruct (Hq m) as (m1 & E & F & A & N).
  exists m1. split; [now apply bind_ok|auto].
Qed.

(** Runs the quiet step at the head of the computation in the goal. *)
Ltac step_quiet Hq m1 F A N :=
  match goal with
  | |- context [bind ?c ?k ?m] =>
      destruct (bind_quiet c k m Hq) as (m1 & -> & F & A & N)
  end.

Lemma v4_quiet_print_config (kind : attn_kind) (s : settings string)
  (indices : list Z) :
  (enable s = true -> indices <> []) ->
  quiet_step (V4.print_config kind s indices).
Proof.
  intros H. unfold V4.print_config. destruct (enable s); [|apply quiet_ret].
  destruct indices; [now elim H|apply quiet_print].
Qed.

Lemma v4_resolve_nonneg (s : settings string) (indices : list Z) :
  V4.resolve s = Ok indices -> Forall (fun x => 0 <= x) indices.
Proof.
  unfold V4.resolve. destruct (enable s).
  - apply v4_parse_block_range_nonneg.
  - intros [= <-]. constructor.
Qed.

Lemma wf_invalid (m : model) :
  wf m -> Forall (fun i => ~ In i (map hook_id (active m))) (invalid m).
Proof.
  intros (_ & _ & H). eapply Forall_impl; [|exact H]. now intros i [_ Hi].
Qed.

Lemma wf_reattached (P : hook -> Prop) (old : list nat) (m m' : model)
  (new : list hook) :
  wf m -> reattached P old m m' new ->
  (forall i, In i (tracked_by attention_boost_hooks m' ++ shared_tracked m') ->
     In i (tracked_by attention_boost_hooks m ++ shared_tracked m)
     \/ In i (map hook_id new)) ->
  wf m'.
Proof.
  intros (Wa & Wt & Wi) (Hb & Hi & Ha & Hn & Hs & _) Htr.
  rewrite Forall_forall in Wa, Wt, Wi.
  assert (Hnew : forall i, In i (map hook_id new) ->
                   (next_id m <= i < next_id m')%nat).
  { intros i Hin. rewrite Hs in Hin. apply in_seq in Hin. lia. }
  unfold wf. repeat split; apply Forall_forall.
  - intros h Hh. rewrite Ha in Hh. apply in_app_or in Hh.
    destruct Hh as [Hh|Hh].
    + apply In_without in Hh. specialize (Wa _ (proj1 Hh)). lia.
    + apply Hnew. now apply in_map.
  - intros i Hin. destruct (Htr _ Hin) as [H|H].
    + specialize (Wt _ H). lia.
    + apply Hnew, H.
  - intros i Hin. rewrite Hi in Hin. destruct (Wi _ Hin) as [Hlt Hno].
    split; [lia|]. rewrite Ha, map_app. intros H. apply in_app_or in H.
    destruct H as [H|H].
    + apply Hno. apply in_map_iff in H. destruct H as [h [<- Hh]].
      apply In_without in Hh. apply in_map, Hh.
    + apply Hnew in H. lia.
Qed.

(** One run of [apply_attention_control] whose selectors resolve. *)
Lemma v4_apply_spec (P : hook -> Prop) (audio cross self_ : settings string)
  (ai ci si : list Z) (m : model) :
  wf m ->
  accepted V4.resolve audio ai -> accepted V4.resolve cross ci ->
  accepted V4.resolve self_ si ->
  permits P ScaleHook audio -> permits P ScaleHook cross ->
  permits P ScaleHook self_ ->
  exists r m' new,
    V4.apply_attention_control audio cross self_ m = (r, m') /\
    reattached P (shared_tracked m) m m' new /\
    attention_boost_hooks m' = attention_boost_hooks m /\
    tracked_by lipsync_suppress_hooks m' = [] /\
    (r = Ok tt -> attention_control_hooks m' = Some (map hook_id new)) /\
    (r <> Ok tt -> tracked_by attention_control_hooks m' = []) /\
    (complete (blocks m) -> r = Ok tt).
Proof.
  intros W [Ra Na] [Rc Nc] [Rs Ns] Pa Pc Ps.
  unfold V4.apply_attention_control. rewrite Ra, Rc, Rs, !bind_lift.
  step_quiet (quiet_print (DBanner ScaleHook)) m1 F1 A1 N1.
  step_quiet (v4_quiet_print_config Audio _ _ Na) m2 F2 A2 N2.
  step_quiet (v4_quiet_print_config Cross _ _ Nc) m3 F3 A3 N3.
  step_quiet (v4_quiet_print_config Self _ _ Ns) m4 F4 A4 N4.
  pose proof (frame_trans _ _ _ (frame_trans _ _ _ (frame_trans _ _ _ F1 F2)
                                               F3) F4)
    as (Fb & Fo & Fc & Fl & Fi).
  assert (A : active m4 = active m) by congruence.
  assert (N : next_id m4 = next_id m) by congruence.
  clear m1 m2 m3 F1 F2 F3 F4 A1 A2 A3 A4 N1 N2 N3 N4.
  assert (I4 : Forall (fun i => ~ In i (map hook_id (active m4))) (invalid m4)).
  { rewrite A, Fi. now apply wf_invalid. }
  destruct (clear_control_spec m4 I4)
    as (m5 & E5 & B5 & I5 & N5 & O5 & L5 & C5 & _ & A5).
  rewrite (bind_ok _ _ _ _ _ E5).
  assert (I5' : Forall (fun i => ~ In i (map hook_id (active m5))) (invalid m5)).
  { rewrite I5, A5. eapply Forall_impl; [|exact I4].
    intros i Hi Hin. apply Hi. apply in_map_iff in Hin.
    destruct Hin as [h [<- Hh]]. apply In_without in Hh. apply in_map, Hh. }
  destruct (clear_suppress_spec m5 I5')
    as (m6 & E6 & B6 & I6 & N6 & O6 & C6 & L6 & _ & A6).
  rewrite (bind_ok _ _ _ _ _ E6).
  assert (Aclear : active m6 = without (shared_tracked m) (active m)).
  { rewrite A6, A5, without_without, A. unfold shared_tracked, tracked_by.
    now rewrite L5, Fc, Fl. }
  unfold bind at 1.
  destruct (for_each (sorted_set (ai ++ ci ++ si))
              (V4.visit audio cross self_ ai ci si) ([], 0%nat) m6)
    as [r7 m7] eqn:E7.
  destruct (attaches_for_each P (fun x => 0 <= x)
              (V4.visit audio cross self_ ai ci si)
              (sorted_set (ai ++ ci ++ si))
              (fun x _ => v4_attaches_visit P audio cross self_ ai ci si x
                            Pa Pc Ps)
              ([], 0%nat) m6 r7 m7 E7)
    as (new & ((Gb & Go & Gc & Gl & Gi) & GA & GN & GS & GP) & Hh & Ht).
  assert (Hre : forall m', blocks m' = blocks m7 -> invalid m' = invalid m7 ->
                  active m' = active m7 -> next_id m' = next_id m7 ->
                  reattached P (shared_tracked m) m m' new).
  { intros m' Hb' Hi' Ha' Hn'. unfold reattached.
    rewrite Hb', Hi', Ha', Hn', GA, GN, GS, Aclear.
    repeat split; auto; congruence. }
  assert (TL7 : tracked_by lipsync_suppress_hooks m7 = []).
  { unfold tracked_by in *. rewrite Gl. exact L6. }
  assert (TC7 : tracked_by attention_control_hooks m7 = []).
  { unfold tracked_by in *. rewrite Gc, C6. exact C5. }
  destruct r7 as [st|e].
  - eexists (Ok tt), _, new. split; [reflexivity|].
    split; [apply Hre; reflexivity|].
    split; [simpl; congruence|]. split; [exact TL7|].
    split; [|split; [congruence|reflexivity]].
    intros _. simpl. now rewrite (Hh _ eq_refl).
  - eexists (Raise e), m7, new. split; [reflexivity|].
    split; [apply Hre; reflexivity|].
    split; [congruence|]. split; [exact TL7|].
    split; [discriminate|]. split; [intros _; exact TC7|].
    intros Hc. exfalso.
    assert (Hok : exists st' : list nat * nat, Raise e = Ok st').
    { apply Ht.
      - apply sorted_set_Forall. rewrite !Forall_app.
        repeat split; eapply v4_resolve_nonneg; eassumption.
      - congruence. }
    destruct Hok as [st' Hst']. discriminate.
Qed.

(** ** The lip-sync suppression node *)

(** One run of [suppress] with [enabled] set, whatever its outcome. *)
Lemma suppress_spec (strength : float) (block_start block_end : Z)
  (m : model) :
  wf m ->
  exists r m' new,
    Suppress.suppress true strength block_start block_end m = (r, m') /\
    reattached (suppress_hook strength) (shared_tracked m) m m' new /\
    attention_boost_hooks m' = attention_boost_hooks m /\
    tracked_by attention_control_hooks m' = [] /\
    (r = Ok tt -> lipsync_suppress_hooks m' = Some (map hook_id new)) /\
    (r <> Ok tt -> tracked_by lipsync_suppress_hooks m' = []).
Proof.
  intros W. unfold Suppress.suppress. change (negb true) with false.
  cbv iota.
  step_quiet (quiet_print (DBanner SuppressHook)) m4 Fr A Nx.
  destruct Fr as (Fb & Fo & Fc & Fl & Fi).
  assert (I4 : Forall (fun i => ~ In i (map hook_id (active m4))) (invalid m4)).
  { rewrite A, Fi. now apply wf_invalid. }
  destruct (clear_suppress_spec m4 I4)
    as (m5 & E5 & B5 & I5 & N5 & O5 & C5 & L5 & _ & A5).
  rewrite (bind_ok _ _ _ _ _ E5).
  assert (I5' : Forall (fun i => ~ In i (map hook_id (active m5))) (invalid m5)).
  { rewrite I5, A5. eapply Forall_impl; [|exact I4].
    intros i Hi Hin. apply Hi. apply in_map_iff in Hin.
    destruct Hin as [h [<- Hh]]. apply In_without in Hh. apply in_map, Hh. }
  destruct (clear_control_spec m5 I5')
    as (m6 & E6 & B6 & I6 & N6 & O6 & L6 & C6 & _ & A6).
  rewrite (bind_ok _ _ _ _ _ E6).
  assert (Aclear : active m6 = without (shared_tracked m) (active m)).
  { rewrite A6, A5, without_without, A. unfold shared_tracked, tracked_by.
    rewrite C5, Fc, Fl. apply without_ext. intros i.
    rewrite !in_app_iff. tauto. }
  unfold bind at 1.
  destruct (for_each (py_range block_start (block_end + 1))
              (Suppress.visit strength) ([], []) m6)
    as [r7 m7] eqn:E7.
  destruct (attaches_for_each (suppress_hook strength) (fun x => 0 <= x)
              (Suppress.visit strength)
              (py_range block_start (block_end + 1))
              (fun x _ => suppress_attaches_visit strength x)
              ([], []) m6 r7 m7 E7)
    as (new & ((Gb & Go & Gc & Gl & Gi) & GA & GN & GS & GP) & Hh & _).
  assert (Hre : forall m', blocks m' = blocks m7 -> invalid m' = invalid m7 ->
                  active m' = active m7 -> next_id m' = next_id m7 ->
                  reattached (suppress_hook strength) (shared_tracked m)
                    m m' new).
  { intros m' Hb' Hi' Ha' Hn'. unfold reattached.
    rewrite Hb', Hi', Ha', Hn', GA, GN, GS, Aclear.
    repeat split; auto; congruence. }
  assert (TL7 : tracked_by lipsync_suppress_hooks m7 = []).
  { unfold tracked_by in *. rewrite Gl, L6. exact L5. }
  assert (TC7 : tracked_by attention_control_hooks m7 = []).
  { unfold tracked_by in *. rewrite Gc. exact C6. }
  destruct r7 as [st|e].
  - destruct (snd st) as [|first rest] eqn:Hp.
    + eexists (Raise IndexError), m7, new. split; [reflexivity|].
      split; [apply Hre; reflexivity|].
      split; [congruence|]. split; [exact TC7|].
      split; [discriminate|]. intros _. exact TL7.
    + eexists (Ok tt), _, new. split; [reflexivity|].
      split; [apply Hre; reflexivity|].
      split; [simpl; congruence|]. split; [exact TC7|].
      split; [|congruence].
      intros _. simpl. now rewrite (Hh _ eq_refl).
  - eexists (Raise e), m7, new. split; [reflexivity|].
    split; [apply Hre; reflexivity|].
    split; [congruence|]. split; [exact TC7|].
    split; [discriminate|]. intros _. exact TL7.
Qed.

(** ** The general boost node (v3) *)

(** The clean-up loop of the v3 node, when no recorded handle is invalid. *)
Lemma remove_all_spec (hooks : list nat) (m : model) :
  Forall (fun i => ~ In i (invalid m)) hooks ->
  exists m',
    for_each hooks (fun h _ => remove h) tt m = (Ok tt, m') /\
    frame m m' /\ next_id m' = next_id m /\
    active m' = without hooks (active m).
Proof.
  revert m. induction hooks as [|h hooks IH]; intros m Hval.
  - exists m. repeat split. symmetry. now apply without_all.
  - inversion Hval as [|? ? Hh Hrest]; subst.
    simpl. unfold bind at 1. unfold remove.
    destruct (existsb (Nat.eqb h) (invalid m)) eqn:E.
    { exfalso. apply existsb_exists in E. destruct E as [i [Hi Ei]].
      apply Nat.eqb_eq in Ei. now subst. }
    set (m1 := set_active _ (next_id m) m).
    destruct (IH m1 Hrest) as (m' & Em & F & N & A).
    exists m'. split; [exact Em|]. split; [|split].
    + eapply frame_trans; [|exact F]. repeat split.
    + rewrite N. reflexivity.
    + rewrite A. simpl. apply without_remove.
Qed.

Lemma v3_quiet_print_config (kind : attn_kind) (s : settings (option string))
  (indices : list Z) :
  (enable s = true -> indices <> []) ->
  quiet_step (V3.print_config kind s indices).
Proof.
  intros H. unfold V3.print_config. destruct (enable s); [|apply quiet_ret].
  destruct indices as [|x t]; [now elim H|].
  intros m. eexists. split; [reflexivity|]. repeat split.
Qed.

Lemma v3_resolve_nonneg (s : settings (option string)) (indices : list Z) :
  V3.resolve s = Ok indices -> Forall (fun x => 0 <= x) indices.
Proof.
  unfold V3.resolve. destruct (enable s).
  - apply v3_parse_block_range_nonneg.
  - intros [= <-]. constructor.
Qed.

(** The clean-up step of [boost_attention], when no recorded handle is
    invalid. *)
Lemma v3_clear_spec {B : Type} (k : unit -> M B) (m : model) :
  Forall (fun i => ~ In i (invalid m)) (tracked_by attention_boost_hooks m) ->
  exists m1,
    bind (match attention_boost_hooks m with
          | Some hooks =>
              print (DRemoving (List.length hooks)) ;;
              for_each hooks (fun h _ => remove h) tt ;;
              modify (set_attention_boost_hooks (Some []))
          | None => ret tt
          end) k m = k tt m1 /\
    blocks m1 = blocks m /\ invalid m1 = invalid m /\
    next_id m1 = next_id m /\
    attention_control_hooks m1 = attention_control_hooks m /\
    lipsync_suppress_hooks m1 = lipsync_suppress_hooks m /\
    tracked_by attention_boost_hooks m1 = [] /\
    active m1 = without (tracked_by attention_boost_hooks m) (active m).
Proof.
  unfold tracked_by. intros Hval.
  destruct (attention_boost_hooks m) as [hooks|] eqn:E.
  - set (m0 := set_console (console m ++ [DRemoving (List.length hooks)]) m).
    destruct (remove_all_spec hooks m0 Hval)
      as (m1 & E1 & (F1 & F2 & F3 & F4 & F5) & Nx & A).
    eexists. split.
    + unfold bind at 1. unfold bind at 1. unfold print. fold m0.
      unfold bind at 1. rewrite E1. reflexivity.
    + simpl. repeat split; auto.
  - exists m. rewrite E. repeat split. symmetry. now apply without_all.
Qed.

(** One run of [boost_attention] whose selectors resolve, on a model none
    of whose recorded boost handles is invalid. *)
Lemma v3_boost_spec (P : hook -> Prop)
  (audio cross self_ : settings (option string))
  (ai ci si : list Z) (m : model) :
  wf m ->
  Forall (fun i => ~ In i (invalid m)) (tracked_by attention_boost_hooks m) ->
  accepted V3.resolve audio ai -> accepted V3.resolve cross ci ->
  accepted V3.resolve self_ si ->
  permits P BoostHook audio -> permits P BoostHook cross ->
  permits P BoostHook self_ ->
  exists r m' new,
    V3.boost_attention audio cross self_ m = (r, m') /\
    reattached P (tracked_by attention_boost_hooks m) m m' new /\
    attention_control_hooks m' = attention_control_hooks m /\
    lipsync_suppress_hooks m' = lipsync_suppress_hooks m /\
    (r = Ok tt -> attention_boost_hooks m' = Some (map hook_id new)) /\
    (r <> Ok tt -> tracked_by attention_boost_hooks m' = []) /\
    (complete (blocks m) -> r = Ok tt).
Proof.
  intros W Hval [Ra Na] [Rc Nc] [Rs Ns] Pa Pc Ps.
  unfold V3.boost_attention. rewrite bind_get.
  destruct (v3_clear_spec
              (fun _ =>
                 audio_block_indices <- lift (V3.resolve audio) ;;
                 cross_block_indices <- lift (V3.resolve cross) ;;
                 self_block_indices <- lift (V3.resolve self_) ;;
                 print (DBanner BoostHook) ;;
                 V3.print_config Audio audio audio_block_indices ;;
                 V3.print_config Cross cross cross_block_indices ;;
                 V3.print_config Self self_ self_block_indices ;;
                 st <- for_each
                         (sorted_set (audio_block_indices
                                      ++ cross_block_indices
                                      ++ self_block_indices))
                         (V3.visit audio cross self_ audio_block_indices
                            cross_block_indices self_block_indices)
                         ([], 0%nat) ;;
                 print (DRegistered (snd st)) ;;
                 tracked <- get attention_boost_hooks ;;
                 modify (set_attention_boost_hooks
                           (Some (match tracked with
                                  | Some hooks => hooks ++ fst st
                                  | None => [] ++ fst st
                                  end)))) m Hval)
    as (m0 & -> & B0 & I0 & N0' & C0 & L0 & T0 & A0).
  rewrite Ra, Rc, Rs, !bind_lift.
  step_quiet (quiet_print (DBanner BoostHook)) m1 F1 A1 N1.
  step_quiet (v3_quiet_print_config Audio _ _ Na) m2 F2 A2 N2.
  step_quiet (v3_quiet_print_config Cross _ _ Nc) m3 F3 A3 N3.
  step_quiet (v3_quiet_print_config Self _ _ Ns) m4 F4 A4 N4.
  pose proof (frame_trans _ _ _ (frame_trans _ _ _ (frame_trans _ _ _ F1 F2)
                                               F3) F4)
    as (Fb & Fo & Fc & Fl & Fi).
  assert (A : active m4 = active m0) by congruence.
  assert (Nn : next_id m4 = next_id m0) by congruence.
  clear m1 m2 m3 F1 F2 F3 F4 A1 A2 A3 A4 N1 N2 N3 N4.
  unfold bind at 1.
  destruct (for_each (sorted_set (ai ++ ci ++ si))
              (V3.visit audio cross self_ ai ci si) ([], 0%nat) m4)
    as [r7 m7] eqn:E7.
  destruct (attaches_for_each P (fun x => 0 <= x)
              (V3.visit audio cross self_ ai ci si)
              (sorted_set (ai ++ ci ++ si))
              (fun x _ => v3_attaches_visit P audio cross self_ ai ci si x
                            Pa Pc Ps)
              ([], 0%nat) m4 r7 m7 E7)
    as (new & ((Gb & Go & Gc & Gl & Gi) & GA & GN & GS & GP) & Hh & Ht).
  assert (Hre : forall m', blocks m' = blocks m7 -> invalid m' = invalid m7 ->
                  active m' = active m7 -> next_id m' = next_id m7 ->
                  reattached P (tracked_by attention_boost_hooks m) m m' new).
  { intros m' Hb' Hi' Ha' Hn'. unfold reattached.
    rewrite Hb', Hi', Ha', Hn', GA, GN, GS, A, A0.
    repeat split; auto; congruence. }
  assert (T7 : tracked_by attention_boost_hooks m7 = []).
  { unfold tracked_by in *. rewrite Go, Fo. exact T0. }
  destruct r7 as [st|e].
  - eexists (Ok tt), _, new. split; [reflexivity|].
    split; [apply Hre; reflexivity|].
    split; [simpl; congruence|]. split; [simpl; congruence|].
    split; [|split; [congruence|reflexivity]].
    intros _. simpl. rewrite (Hh _ eq_refl). simpl.
    unfold tracked_by in T7.
    destruct (attention_boost_hooks m7); [now subst|reflexivity].
  - eexists (Raise e), m7, new. split; [reflexivity|].
    split; [apply Hre; reflexivity|].
    split; [congruence|]. split; [congruence|].
    split; [discriminate|]. split; [intros _; exact T7|].
    intros Hc. exfalso.
    assert (Hok : exists st' : list nat * nat, Raise e = Ok st').
    { apply Ht.
      - apply sorted_set_Forall. rewrite !Forall_app.
        repeat split; eapply v3_resolve_nonneg; eassumption.
      - congruence. }
    destruct Hok as [st' Hst']. discriminate.
Qed.

Lemma bind_raise {A B : Type} (c : M A) (k : A -> M B) (m m1 : model)
  (e : exn) :
  c m = (Raise e, m1) -> bind c k m = (Raise e, m1).
Proof. intros E. unfold bind. now rewrite E. Qed.

(** The configuration line of a kind either fails, when the kind is enabled
    on an empty selection, or is a quiet step. *)
Lemma v4_print_config_cases (kind : attn_kind) (s : settings string)
  (indices : list Z) :
  (enable s = true /\ indices = [] /\
   forall m, V4.print_config kind s indices m = (Raise IndexError, m)) \/
  ((enable s = true -> indices <> []) /\
   quiet_step (V4.print_config kind s indices)).
Proof.
  destruct (Bool.bool_dec (enable s) true) as [E|E];
    [destruct indices as [|x l]|].
  - left. repeat split; try assumption.
    intros m. unfold V4.print_config. now rewrite E.
  - right. assert (H : enable s = true -> x :: l <> []) by discriminate.
    split; [exact H|]. apply v4_quiet_print_config. exact H.
  - right. assert (H : enable s = true -> indices <> []) by congruence.
    split; [exact H|]. apply v4_quiet_print_config. exact H.
Qed.

Lemma v3_print_config_cases (kind : attn_kind) (s : settings (option string))
  (indices : list Z) :
  (enable s = true /\ indices = [] /\
   forall m, V3.print_config kind s indices m = (Raise ValueError, m)) \/
  ((enable s = true -> indices <> []) /\
   quiet_step (V3.print_config kind s indices)).
Proof.
  destruct (Bool.bool_dec (enable s) true) as [E|E];
    [destruct indices as [|x l]|].
  - left. repeat split; try assumption.
    intros m. unfold V3.print_config. now rewrite E.
  - right. assert (H : enable s = true -> x :: l <> []) by discriminate.
    split; [exact H|]. apply v3_quiet_print_config. exact H.
  - right. assert (H : enable s = true -> indices <> []) by congruence.
    split; [exact H|]. apply v3_quiet_print_config. exact H.
Qed.







(** ** Successive invocations *)


(** Removing the hooks of a run that has just returned gives back the
    hooks the run had kept. *)
Lemma without_new (P : hook -> Prop) (old : list nat) (m m' : model)
  (new : list hook) :
  wf m -> reattached P old m m' new ->
  without (map hook_id new) (active m') = without old (active m).
Proof.
  intros (Wa & _) (_ & _ & Ha & _ & Hs & _).
  rewrite Ha, without_app.
  rewrite (without_none _ new) by (intros h Hh; now apply in_map).
  rewrite app_nil_r. apply without_all.
  intros h Hh Hin. apply In_without in Hh.
  rewrite Forall_forall in Wa. specialize (Wa _ (proj1 Hh)).
  rewrite Hs in Hin. apply in_seq in Hin. lia.
Qed.

Lemma permits_scaling {C : Type} (who : maker) (s : settings C) :
  permits (scaling_hook who) who s.
Proof.
  intros cs _ Hd id pos kind. split; [reflexivity|exact Hd].
Qed.






(** The sample inputs meet the premises of the statements. *)

Lemma wf_fresh_model : wf fresh_model.
Proof. unfold wf. simpl. repeat split; constructor. Qed.

Lemma complete_fresh_model : complete (blocks fresh_model).
Proof. unfold complete. simpl. repeat constructor; discriminate. Qed.



Module Reinvocation.




End Reinvocation.

(** ** The two v4 nodes on one model *)

Lemma owned_after (P : hook -> Prop) (m m' : model) (new : list hook) :
  owned m -> reattached P (shared_tracked m) m m' new ->
  (forall h, In h new -> In (hook_id h) (shared_tracked m')) ->
  owned m'.
Proof.
  intros Ho (_ & _ & Ha & _) Hnew. unfold owned in *.
  rewrite Forall_forall in *. intros h Hh. rewrite Ha in Hh.
  apply in_app_or in Hh. destruct Hh as [Hh|Hh].
  - apply In_without in Hh. destruct Hh as [Hin Hno].
    destruct (Ho _ Hin) as [H|H]; [now left|contradiction].
  - right. now apply Hnew.
Qed.


Lemma wf_shared_below (m : model) (i : nat) :
  wf m -> In i (shared_tracked m) -> (i < next_id m)%nat.
Proof.
  intros (_ & Wt & _) Hi. rewrite Forall_forall in Wt.
  apply Wt. apply in_or_app. now right.
Qed.





Module SharedKeys.




End SharedKeys.

(** ** Out-of-range blocks *)


Lemma v3_visit_out_of_range (audio cross self_ : settings (option string))
  (ai ci si : list Z) (block_idx : Z) (st : list nat * nat) (m : model) :
  len_blocks m <= block_idx ->
  V3.visit audio cross self_ ai ci si block_idx st m
  = (Ok st,
     set_console
       (console m ++ [DBlockMissing block_idx (len_blocks m - 1)]) m).
Proof.
  intros H. unfold V3.visit. rewrite bind_get.
  apply Z.leb_le in H. now rewrite H.
Qed.

(** The suppression node skips such an index without a word. *)
Lemma suppress_visit_out_of_range (strength : float) (block_idx : Z)
  (st : list nat * list Z) (m : model) :
  len_blocks m <= block_idx ->
  Suppress.visit strength block_idx st m = (Ok st, m).
Proof.
  intros H. unfold Suppress.visit. rewrite bind_get.
  apply Z.leb_le in H. now rewrite H.
Qed.

Lemma for_each_skip {A S : Type} (l : list A) (body : A -> S -> M S)
  (st : S) (m : model) :
  (forall x, In x l -> body x st m = (Ok st, m)) ->
  for_each l body st m = (Ok st, m).
Proof.
  induction l as [|x l IH]; intros H; [reflexivity|].
  simpl. unfold bind. rewrite (H x) by now left.
  apply IH. intros y Hy. apply H. now right.
Qed.

(** Whenever the range of the suppression node starts at or beyond the
    length of the block collection, the node clears the shared keys and then
    raises [IndexError]. *)
Lemma suppress_raises_beyond_last_block (strength : float)
  (block_start block_end : Z) (m : model) :
  wf m -> len_blocks m <= block_start ->
  exists m',
    Suppress.suppress true strength block_start block_end m
    = (Raise IndexError, m') /\
    active m' = without (shared_tracked m) (active m).
Proof.
  intros W Hlen. unfold Suppress.suppress. change (negb true) with false.
  cbv iota.
  step_quiet (quiet_print (DBanner SuppressHook)) m4 Fr A Nx.
  destruct Fr as (Fb & Fo & Fc & Fl & Fi).
  assert (I4 : Forall (fun i => ~ In i (map hook_id (active m4))) (invalid m4)).
  { rewrite A, Fi. now apply wf_invalid. }
  destruct (clear_suppress_spec m4 I4)
    as (m5 & E5 & B5 & I5 & N5 & O5 & C5 & L5 & _ & A5).
  rewrite (bind_ok _ _ _ _ _ E5).
  assert (I5' : Forall (fun i => ~ In i (map hook_id (active m5))) (invalid m5)).
  { rewrite I5, A5. eapply Forall_impl; [|exact I4].
    intros i Hi Hin. apply Hi. apply in_map_iff in Hin.
    destruct Hin as [h [<- Hh]]. apply In_without in Hh. apply in_map, Hh. }
  destruct (clear_control_spec m5 I5')
    as (m6 & E6 & B6 & I6 & N6 & O6 & L6 & C6 & _ & A6).
  rewrite (bind_ok _ _ _ _ _ E6).
  unfold bind at 1. rewrite for_each_skip.
  - exists m6. split; [reflexivity|].
    rewrite A6, A5, without_without, A. unfold shared_tracked, tracked_by.
    rewrite C5, Fc, Fl. apply without_ext. intros i.
    rewrite !in_app_iff. tauto.
  - intros x Hx. apply suppress_visit_out_of_range.
    apply In_py_range in Hx. unfold len_blocks in *.
    rewrite B6, B5, Fb. lia.
Qed.

Module OutOfRange.

(** C5, at the blocks 2 and 3 of a model with two blocks: the v4 control
    node and the v3 boost node report both indices and return; the
    suppression node prints nothing about them and then raises [IndexError],
    since no block was patched. *)
Theorem suppress_raises_when_all_blocks_missing :
  fst (V4.apply_attention_control (on_custom "2-3" two) (off "") (off "")
         fresh_model) = Ok tt /\
  console (snd (V4.apply_attention_control (on_custom "2-3" two) (off "")
                  (off "") fresh_model))
  = [DBanner ScaleHook; DConfig Audio 2 3; DBlockMissing 2 1;
     DBlockMissing 3 1; DRegistered 0] /\
  fst (V3.boost_attention (on_custom (Some "2-3") two) (off None) (off None)
         fresh_model) = Ok tt /\
  console (snd (V3.boost_attention (on_custom (Some "2-3") two) (off None)
                  (off None) fresh_model))
  = [DBanner BoostHook; DConfig Audio 2 3; DBlockMissing 2 1;
     DBlockMissing 3 1; DRegistered 0] /\
  fst (Suppress.suppress true 0.25 2 3 fresh_model) = Raise IndexError /\
  console (snd (Suppress.suppress true 0.25 2 3 fresh_model))
  = [DBanner SuppressHook].
Proof. repeat split. Qed.

End OutOfRange.

(** The suppression node never looks at its factor: whatever it is, the
    output projection of every block in range gets a hook with it. *)
Lemma suppress_attaches_any_strength (strength : float) :
  map hook_scale
    (active (snd (Suppress.suppress true strength 0 1 fresh_model)))
  = [strength; strength].
Proof. reflexivity. Qed.

Module FactorOne.

(** C3, at factor 1.0 on the blocks 0 and 1 of a fresh model: the v4
    control node and the v3 boost node attach nothing; the suppression node
    attaches a hook of factor 1.0 to the output projection of each block and
    records both. *)
Theorem suppress_attaches_at_factor_one :
  active (snd (V4.apply_attention_control (on_custom "0-1" one) (off "")
                 (off "") fresh_model)) = [] /\
  active (snd (V3.boost_attention (on_custom (Some "0-1") one) (off None)
                 (off None) fresh_model)) = [] /\
  fst (Suppress.suppress true one 0 1 fresh_model) = Ok tt /\
  active (snd (Suppress.suppress true one 0 1 fresh_model))
  = [ {| hook_id := 0; hook_block := 0; hook_kind := Audio; hook_comp := O;
         hook_scale := one; hook_maker := SuppressHook |};
      {| hook_id := 1; hook_block := 1; hook_kind := Audio; hook_comp := O;
         hook_scale := one; hook_maker := SuppressHook |} ] /\
  lipsync_suppress_hooks (snd (Suppress.suppress true one 0 1 fresh_model))
  = Some [0%nat; 1%nat].
Proof. repeat split. Qed.

End FactorOne.

(** ** Handles whose removal fails *)






























(** The v3 node has no guard around the removal: were the first handle it
    recorded to fail, the node would raise right after its first line of
    output, with the model otherwise untouched. *)
Lemma v3_boost_raises_on_invalid_first
  (audio cross self_ : settings (option string)) (h : nat) (rest : list nat)
  (m : model) :
  attention_boost_hooks m = Some (h :: rest) ->
  existsb (Nat.eqb h) (invalid m) = true ->
  V3.boost_attention audio cross self_ m
  = (Raise RuntimeError,
     set_console (console m ++ [DRemoving (S (List.length rest))]) m).
Proof.
  intros Hh Hinv. unfold V3.boost_attention. rewrite bind_get, Hh.
  unfold bind at 1. unfold bind at 1. unfold print at 1.
  unfold bind at 1. cbn [for_each]. unfold bind at 1. unfold remove at 1.
  cbn [invalid set_console]. now rewrite Hinv.
Qed.

Module StaleHandles.



End StaleHandles.

Module Disabled.

(** C10: with [enabled] unset the suppression node returns at once and the
    model is exactly as it was: no hook is removed, no bookkeeping attribute
    is written, nothing is printed. *)
Theorem suppress_disabled_changes_nothing (strength : float)
  (block_start block_end : Z) (m : model) :
  Suppress.suppress false strength block_start block_end m = (Ok tt, m).
Proof. reflexivity. Qed.

End Disabled.

(** ** Forward-hook callbacks *)

Module HookFacts.

Section WithTensor.

Variable tensor : Type.
Variable tensor_mul : tensor -> float -> tensor.

Local Abbreviation PTensor := (Hooks.PTensor tensor).
Local Abbreviation PTuple := (Hooks.PTuple tensor).
Local Abbreviation PNone := (Hooks.PNone tensor).

(** All three callbacks agree on a plain tensor: the result is [x * f]. *)
Lemma hooks_scale_tensor (f : float) (x : tensor) :
  Hooks.create_boost_hook tensor tensor_mul f (PTensor x)
    = Ok (PTensor (tensor_mul x f)) /\
  Hooks.create_scale_hook tensor tensor_mul f (PTensor x)
    = Ok (PTensor (tensor_mul x f)) /\
  Hooks.create_suppress_hook tensor tensor_mul f (PTensor x)
    = Ok (PTensor (tensor_mul x f)).
Proof. repeat split. Qed.

(** The v3 callback hands [None] back. *)
Lemma boost_hook_none (f : float) :
  Hooks.create_boost_hook tensor tensor_mul f PNone = Ok PNone.
Proof. reflexivity. Qed.

(** C1, at a tuple output whose first element is a tensor: the v3 callback
    returns the tuple with index 0 scaled and the other elements unchanged,
    whereas the v4 callback and the suppression callback multiply the tuple
    itself and raise [TypeError]. *)
Theorem scale_hooks_on_tuple (f : float) (x : tensor)
  (rest : list (Hooks.pyobj tensor)) :
  Hooks.create_boost_hook tensor tensor_mul f (PTuple (PTensor x :: rest))
    = Ok (PTuple (PTensor (tensor_mul x f) :: rest)) /\
  Hooks.create_scale_hook tensor tensor_mul f (PTuple (PTensor x :: rest))
    = Raise TypeError /\
  Hooks.create_suppress_hook tensor tensor_mul f (PTuple (PTensor x :: rest))
    = Raise TypeError.
Proof. repeat split. Qed.

End WithTensor.

End HookFacts.

(** * Further properties of the range parsers *)

Lemma seq_shift_ascending (a : Z) (start n : nat) :
  StronglySorted Z.lt (map (fun i => a + Z.of_nat i) (seq start n)).
Proof.
  revert start. induction n as [|n IH]; intros start; simpl.
  - constructor.
  - constructor; [apply IH|].
    apply Forall_forall. intros x Hx. apply in_map_iff in Hx.
    destruct Hx as [i [<- Hi]]. apply in_seq in Hi. lia.
Qed.

Lemma py_range_ascending (a b : Z) : StronglySorted Z.lt (py_range a b).
Proof. apply seq_shift_ascending. Qed.

Module ParserShape.

(** X1: whatever the preset name and the custom text, a list returned by either
    [parse_block_range] is strictly ascending, hence free of duplicates. *)
Theorem parse_block_range_ascending (name custom4 : string)
  (custom3 : option string) (out : list Z) :
  (V4.parse_block_range name custom4 = Ok out -> StronglySorted Z.lt out) /\
  (V3.parse_block_range name custom3 = Ok out -> StronglySorted Z.lt out).
Proof.
  split.
  - unfold V4.parse_block_range.
    destruct (V4.parse_parts _ []) as [blocks|]; [|discriminate].
    simpl. intros [= <-]. apply sorted_set_sorted.
  - unfold V3.parse_block_range.
    destruct (String.eqb name "custom" && V3.truthy custom3).
    + destruct custom3 as [text|]; [|discriminate].
      destruct (V3.parse_parts _ []) as [blocks|]; [|discriminate].
      simpl. intros [= <-]. apply sorted_set_sorted.
    + intros [= <-]. unfold V3.ranges. simpl dict_get.
      repeat match goal with
             | |- context [if ?b then _ else _] => destruct b
             end; apply py_range_ascending.
Qed.

Lemma parse_block_range_ascending_witness :
  V4.parse_block_range "custom" "5,3,5,1-2" = Ok [1; 2; 3; 5] /\
  V3.parse_block_range "custom" (Some "5,3,5,1-2") = Ok [1; 2; 3; 5] /\
  StronglySorted Z.lt [1; 2; 3; 5].
Proof.
  destruct (parse_block_range_ascending "custom" "5,3,5,1-2"
              (Some "5,3,5,1-2") [1; 2; 3; 5]) as [H4 H3].
  split; [reflexivity|]. split; [reflexivity|]. apply H4. reflexivity.
Defined.

(** X2: no list returned by either [parse_block_range] holds a negative index:
    a minus sign is always read as the separator of a pair. *)
Theorem parse_block_range_nonneg (name custom4 : string)
  (custom3 : option string) (out : list Z) :
  (V4.parse_block_range name custom4 = Ok out ->
   Forall (fun x => 0 <= x) out) /\
  (V3.parse_block_range name custom3 = Ok out ->
   Forall (fun x => 0 <= x) out).
Proof.
  split.
  - apply v4_parse_block_range_nonneg.
  - apply v3_parse_block_range_nonneg.
Qed.

Lemma parse_block_range_nonneg_witness :
  V4.parse_block_range "custom" "7, +3-4" = Ok [3; 4; 7] /\
  V3.parse_block_range "custom" (Some "7, +3-4") = Ok [3; 4; 7] /\
  Forall (fun x => 0 <= x) [3; 4; 7].
Proof.
  destruct (parse_block_range_nonneg "custom" "7, +3-4" (Some "7, +3-4")
              [3; 4; 7]) as [H4 H3].
  split; [reflexivity|]. split; [reflexivity|]. apply H3. reflexivity.
Defined.

End ParserShape.

(** ** White space around segments *)

Lemma space_is_not_comma (s : string) :
  all_chars PyStr.is_space s = true -> PyStr.contains "," s = false.
Proof.
  intros H. now apply all_chars_contains with (p := PyStr.is_space).
Qed.

Module Padding.

(** X4: white space around the segments of a custom range is ignored: padding
    every segment on the left and on the right with white space does not
    change what the v4 [parse_block_range] returns or raises; the same holds
    for the v3 function as long as the unpadded text is not empty (an empty
    custom text makes it fall back to the preset table instead). *)
Theorem padding_is_ignored (parts : list string) (l r : string) :
  parts <> [] ->
  Forall (fun p => PyStr.contains "," p = false) parts ->
  all_chars PyStr.is_space l = true -> all_chars PyStr.is_space r = true ->
  V4.parse_block_range "custom"
    (PyStr.join "," (map (fun p => l ++ p ++ r)%string parts))
  = V4.parse_block_range "custom" (PyStr.join "," parts) /\
  (PyStr.join "," parts <> EmptyString ->
   V3.parse_block_range "custom"
     (Some (PyStr.join "," (map (fun p => l ++ p ++ r)%string parts)))
   = V3.parse_block_range "custom" (Some (PyStr.join "," parts))).
Proof.
  intros Hne Hc Hl Hr.
  assert (Hne' : map (fun p => l ++ p ++ r)%string parts <> []).
  { destruct parts; [congruence|discriminate]. }
  assert (Hc' : Forall (fun p => PyStr.contains "," p = false)
                       (map (fun p => l ++ p ++ r)%string parts)).
  { apply Forall_forall. intros q Hq. apply in_map_iff in Hq.
    destruct Hq as [p [<- Hp]]. rewrite Forall_forall in Hc.
    rewrite !contains_app, (Hc _ Hp).
    now rewrite (space_is_not_comma _ Hl), (space_is_not_comma _ Hr). }
  assert (E4 : forall blocks,
             V4.parse_parts (map (fun p => l ++ p ++ r)%string parts) blocks
             = V4.parse_parts parts blocks).
  { clear - Hl Hr.
    induction parts as [|p ps IH]; intros blocks; [reflexivity|].
    simpl. rewrite (v4_parse_part_pad _ _ _ Hl Hr).
    destruct (V4.parse_part p); simpl; [apply IH|reflexivity]. }
  assert (E3 : forall blocks,
             V3.parse_parts (map (fun p => l ++ p ++ r)%string parts) blocks
             = V3.parse_parts parts blocks).
  { clear - Hl Hr.
    induction parts as [|p ps IH]; intros blocks; [reflexivity|].
    simpl. rewrite (v3_parse_part_pad _ _ _ Hl Hr).
    destruct (V3.parse_part p); simpl; [apply IH|reflexivity]. }
  split.
  - unfold V4.parse_block_range. simpl String.eqb. cbv iota.
    now rewrite (split_join _ _ Hne' Hc'), (split_join _ _ Hne Hc), E4.
  - intros Htext. unfold V3.parse_block_range. simpl String.eqb.
    assert (T1 : V3.truthy (Some (PyStr.join "," parts)) = true).
    { simpl. destruct (PyStr.join "," parts); [congruence|reflexivity]. }
    assert (T2 : V3.truthy
                   (Some (PyStr.join ","
                            (map (fun p => l ++ p ++ r)%string parts)))
                 = true).
    { simpl.
      destruct (PyStr.join "," (map (fun p => l ++ p ++ r)%string parts))
        eqn:E; [|reflexivity].
      exfalso. apply Htext.
      destruct parts as [|p [|q ps]]; [congruence| |].
      - simpl in E. simpl.
        destruct l; [|discriminate E]. simpl in E.
        destruct p; [reflexivity|discriminate E].
      - change (PyStr.join "," (map (fun p => l ++ p ++ r)%string
                                  (p :: q :: ps)))
          with ((l ++ p ++ r) ++ String ","
                  (PyStr.join "," (map (fun p => l ++ p ++ r)%string
                                     (q :: ps))))%string in E.
        destruct l; [|discriminate E]. simpl in E.
        destruct p; [|discriminate E]. simpl in E.
        destruct r; discriminate E. }
    rewrite T1, T2. simpl andb. cbv iota.
    now rewrite (split_join _ _ Hne' Hc'), (split_join _ _ Hne Hc), E3.
Qed.

Lemma padding_is_ignored_witness :
  V4.parse_block_range "custom" "  6-24 ,  30 "
  = V4.parse_block_range "custom" "6-24,30" /\
  V3.parse_block_range "custom" (Some "  6-24 ,  30 ")
  = V3.parse_block_range "custom" (Some "6-24,30").
Proof.
  destruct (padding_is_ignored ["6-24"; "30"] "  " " ") as [H4 H3];
    try reflexivity.
  - discriminate.
  - repeat constructor.
  - split; [exact H4|]. apply H3. discriminate.
Defined.

End Padding.

(** ** The preset tables *)

Module PresetTables.

(** X5: the names offered to the user and the parsers' tables agree: every
    offered preset other than the custom marker is a key of the table of its
    node and resolves, whatever the custom text, to the range its name
    announces; and a preset offered by both nodes resolves to the same list
    in both. *)
Theorem offered_presets_resolve_as_announced (name custom4 : string)
  (custom3 : option string) :
  name <> "custom" ->
  (In name V4.block_presets ->
   dict_has V4.range_map name = true /\
   V4.parse_block_range name custom4
   = V4.parse_block_range "custom" (announced name)) /\
  (In name V3.block_presets ->
   dict_has V3.ranges name = true /\
   V3.parse_block_range name custom3
   = V3.parse_block_range "custom" (Some (announced name))) /\
  (In name V4.block_presets -> In name V3.block_presets ->
   V4.parse_block_range name custom4 = V3.parse_block_range name custom3).
Proof.
  intros Hne. split; [|split].
  - intros Hin. simpl in Hin.
    repeat (destruct Hin as [<-|Hin]; [try congruence; split; reflexivity|]).
    destruct Hin.
  - intros Hin. simpl in Hin.
    repeat (destruct Hin as [<-|Hin]; [try congruence; split; reflexivity|]).
    destruct Hin.
  - intros Hin4 Hin3. simpl in Hin4.
    repeat (destruct Hin4 as [<-|Hin4];
            [try congruence; try reflexivity;
             exfalso; simpl in Hin3;
             repeat (destruct Hin3 as [E|Hin3]; [discriminate E|]);
             exact Hin3|]).
    destruct Hin4.
Qed.

Lemma offered_presets_resolve_as_announced_witness :
  V4.parse_block_range "mid_10-25_gestures" "0-1"
  = V4.parse_block_range "custom" "10-25" /\
  V3.parse_block_range "mid_10-25_gestures" (Some "0-1")
  = V3.parse_block_range "custom" (Some "10-25") /\
  V4.parse_block_range "mid_10-25_gestures" "0-1"
  = V3.parse_block_range "mid_10-25_gestures" (Some "0-1").
Proof.
  destruct (offered_presets_resolve_as_announced "mid_10-25_gestures" "0-1"
              (Some "0-1")) as (H4 & H3 & H43); [discriminate|].
  split; [apply H4; simpl; tauto|].
  split; [apply H3; simpl; tauto|].
  apply H43; simpl; tauto.
Defined.

End PresetTables.


(** ** Preset selectors always resolve *)

Lemma dict_get_cases {V : Type} (d : list (string * V)) (key : string)
  (default : V) :
  dict_get d key default = default \/
  In (dict_get d key default) (map snd d).
Proof.
  induction d as [|[k v] d IH]; simpl; [now left|].
  destruct (String.eqb k key); [right; now left|].
  destruct IH as [IH|IH]; [now left|right; now right].
Qed.

Lemma v4_preset_nonempty (name custom : string) :
  name <> "custom" ->
  exists x l, V4.parse_block_range name custom = Ok (x :: l).
Proof.
  intros Hne. unfold V4.parse_block_range.
  rewrite (proj2 (String.eqb_neq _ _) Hne).
  pose proof (dict_get_cases V4.range_map name "0-10") as Hcases.
  remember (dict_get V4.range_map name "0-10") as text eqn:Et. clear Et.
  destruct Hcases as [->|Hin].
  - vm_compute. eauto.
  - simpl in Hin.
    repeat (destruct Hin as [<-|Hin]; [vm_compute; eauto|]).
    destruct Hin.
Qed.

Lemma v3_preset_nonempty (name : string) (custom : option string) :
  name <> "custom" ->
  exists x l, V3.parse_block_range name custom = Ok (x :: l).
Proof.
  intros Hne. unfold V3.parse_block_range.
  rewrite (proj2 (String.eqb_neq _ _) Hne). simpl andb. cbv iota.
  pose proof (dict_get_cases V3.ranges name (py_range 0 11)) as Hcases.
  remember (dict_get V3.ranges name (py_range 0 11)) as found eqn:Et.
  clear Et.
  destruct Hcases as [->|Hin].
  - vm_compute. eauto.
  - simpl in Hin.
    repeat (destruct Hin as [<-|Hin]; [vm_compute; eauto|]).
    destruct Hin.
Qed.

Lemma v4_preset_accepted (s : settings string) :
  preset_selector s -> exists indices, accepted V4.resolve s indices.
Proof.
  intros Hs. unfold accepted, V4.resolve.
  destruct (enable s) eqn:E.
  - destruct Hs as [Hs|Hs]; [congruence|].
    destruct (v4_preset_nonempty (preset s) (custom_range s) Hs)
      as (x & l & Hp).
    exists (x :: l). split; [exact Hp|]. intros _. discriminate.
  - exists []. split; [reflexivity|]. intros H. discriminate H.
Qed.

Lemma v3_preset_accepted (s : settings (option string)) :
  preset_selector s -> exists indices, accepted V3.resolve s indices.
Proof.
  intros Hs. unfold accepted, V3.resolve.
  destruct (enable s) eqn:E.
  - destruct Hs as [Hs|Hs]; [congruence|].
    destruct (v3_preset_nonempty (preset s) (custom_range s) Hs)
      as (x & l & Hp).
    exists (x :: l). split; [exact Hp|]. intros _. discriminate.
  - exists []. split; [reflexivity|]. intros H. discriminate H.
Qed.

Module PresetRuns.

(** X6: with preset selectors (any name but the custom marker, known to the
    table or not) the two general nodes always return normally on a model
    that meets the host contract, whatever the factors and the custom texts;
    for the v3 node the recorded handles must be removable. *)
Theorem preset_runs_return (a4 c4 s4 : settings string)
  (a3 c3 s3 : settings (option string)) (m : model) :
  wf m -> complete (blocks m) ->
  (preset_selector a4 -> preset_selector c4 -> preset_selector s4 ->
   fst (V4.apply_attention_control a4 c4 s4 m) = Ok tt) /\
  (preset_selector a3 -> preset_selector c3 -> preset_selector s3 ->
   Forall (fun i => ~ In i (invalid m))
          (tracked_by attention_boost_hooks m) ->
   fst (V3.boost_attention a3 c3 s3 m) = Ok tt).
Proof.
  intros W Hc. split.
  - intros Ha Hcr Hs.
    destruct (v4_preset_accepted _ Ha) as [ai Aa].
    destruct (v4_preset_accepted _ Hcr) as [ci Ac].
    destruct (v4_preset_accepted _ Hs) as [si As].
    destruct (v4_apply_spec (scaling_hook ScaleHook) a4 c4 s4 _ _ _ m W
                Aa Ac As (permits_scaling _ _) (permits_scaling _ _)
                (permits_scaling _ _))
      as (r & m' & new & E & _ & _ & _ & _ & _ & T).
    rewrite E. simpl. now apply T.
  - intros Ha Hcr Hs Hval.
    destruct (v3_preset_accepted _ Ha) as [ai Aa].
    destruct (v3_preset_accepted _ Hcr) as [ci Ac].
    destruct (v3_preset_accepted _ Hs) as [si As].
    destruct (v3_boost_spec (scaling_hook BoostHook) a3 c3 s3 _ _ _ m W Hval
                Aa Ac As (permits_scaling _ _) (permits_scaling _ _)
                (permits_scaling _ _))
      as (r & m' & new & E & _ & _ & _ & _ & _ & T).
    rewrite E. simpl. now apply T.
Qed.

Lemma preset_runs_return_witness :
  fst (V4.apply_attention_control
         {| enable := true; preset := "late_25-39_texture";
            custom_range := "x"; q_scale := two; k_scale := one;
            v_scale := two; o_scale := one |}
         (off "") (off "") fresh_model) = Ok tt /\
  fst (V3.boost_attention
         {| enable := true; preset := "all_0-39_maximum";
            custom_range := Some "x"; q_scale := two; k_scale := one;
            v_scale := two; o_scale := one |}
         (off None) (off None) fresh_model) = Ok tt.
Proof.
  destruct (preset_runs_return
              {| enable := true; preset := "late_25-39_texture";
                 custom_range := "x"; q_scale := two; k_scale := one;
                 v_scale := two; o_scale := one |}
              (off "") (off "")
              {| enable := true; preset := "all_0-39_maximum";
                 custom_range := Some "x"; q_scale := two; k_scale := one;
                 v_scale := two; o_scale := one |}
              (off None) (off None) fresh_model
              wf_fresh_model complete_fresh_model) as [H4 H3].
  split.
  - apply H4; first [right; discriminate | left; reflexivity].
  - apply H3; first [right; discriminate | left; reflexivity | constructor].
Defined.

End PresetRuns.

(** ** What the nodes attach *)

Module AttachedHooks.

(** X7: whatever the model and the (resolving) selectors, every hook that is
    active after [apply_attention_control] or [boost_attention] and was not
    active before was built by the node's own factory with a factor other
    than 1.0; this holds for every outcome of the run. *)
Theorem general_nodes_skip_factor_one (a4 c4 s4 : settings string)
  (a3 c3 s3 : settings (option string))
  (ai4 ci4 si4 ai3 ci3 si3 : list Z) (m : model) :
  wf m ->
  (accepted V4.resolve a4 ai4 -> accepted V4.resolve c4 ci4 ->
   accepted V4.resolve s4 si4 ->
   forall h, In h (active (snd (V4.apply_attention_control a4 c4 s4 m))) ->
     In h (active m) \/
     (hook_maker h = ScaleHook /\ differs_from_one (hook_scale h) = true)) /\
  (accepted V3.resolve a3 ai3 -> accepted V3.resolve c3 ci3 ->
   accepted V3.resolve s3 si3 ->
   Forall (fun i => ~ In i (invalid m))
          (tracked_by attention_boost_hooks m) ->
   forall h, In h (active (snd (V3.boost_attention a3 c3 s3 m))) ->
     In h (active m) \/
     (hook_maker h = BoostHook /\ differs_from_one (hook_scale h) = true)).
Proof.
  intros W. split.
  - intros Aa Ac As h.
    destruct (v4_apply_spec (scaling_hook ScaleHook) a4 c4 s4 _ _ _ m W
                Aa Ac As (permits_scaling _ _) (permits_scaling _ _)
                (permits_scaling _ _))
      as (r & m' & new & E & (_ & _ & Ha & _ & _ & HP) & _).
    rewrite E. simpl. rewrite Ha. intros Hh. apply in_app_or in Hh.
    destruct Hh as [Hh|Hh].
    + left. apply In_without in Hh. tauto.
    + right. rewrite Forall_forall in HP. exact (HP _ Hh).
  - intros Aa Ac As Hval h.
    destruct (v3_boost_spec (scaling_hook BoostHook) a3 c3 s3 _ _ _ m W Hval
                Aa Ac As (permits_scaling _ _) (permits_scaling _ _)
                (permits_scaling _ _))
      as (r & m' & new & E & (_ & _ & Ha & _ & _ & HP) & _).
    rewrite E. simpl. rewrite Ha. intros Hh. apply in_app_or in Hh.
    destruct Hh as [Hh|Hh].
    + left. apply In_without in Hh. tauto.
    + right. rewrite Forall_forall in HP. exact (HP _ Hh).
Qed.

Lemma general_nodes_skip_factor_one_witness :
  Forall (fun h => hook_maker h = ScaleHook
                   /\ differs_from_one (hook_scale h) = true)
    (active (snd (V4.apply_attention_control (on_custom "0-1" two) (off "")
                    (off "") fresh_model))) /\
  Forall (fun h => hook_maker h = BoostHook
                   /\ differs_from_one (hook_scale h) = true)
    (active (snd (V3.boost_attention (on_custom (Some "0-1") two) (off None)
                    (off None) fresh_model))).
Proof.
  destruct (general_nodes_skip_factor_one
              (on_custom "0-1" two) (off "") (off "")
              (on_custom (Some "0-1") two) (off None) (off None)
              [0; 1] [] [] [0; 1] [] [] fresh_model wf_fresh_model)
    as [H4 H3].
  split; apply Forall_forall; intros h Hh.
  - destruct (H4 ltac:(split; [reflexivity|simpl; congruence])
                 ltac:(split; [reflexivity|simpl; congruence])
                 ltac:(split; [reflexivity|simpl; congruence]) h Hh)
      as [[]|H]; exact H.
  - destruct (H3 ltac:(split; [reflexivity|simpl; congruence])
                 ltac:(split; [reflexivity|simpl; congruence])
                 ltac:(split; [reflexivity|simpl; congruence])
                 ltac:(constructor) h Hh)
      as [[]|H]; exact H.
Defined.

(** X8: whatever the model, the range and the outcome, every hook that is
    active after [suppress] and was not active before sits on the output
    projection of an audio attention and multiplies by the node's strength:
    the node never hooks a query, key or value projection, nor the text or
    the self attention. *)
Theorem suppress_hooks_only_audio_output (enabled : bool) (strength : float)
  (block_start block_end : Z) (m : model) :
  wf m ->
  forall h,
    In h (active (snd (Suppress.suppress enabled strength block_start
                         block_end m))) ->
    In h (active m) \/
    (hook_maker h = SuppressHook /\ hook_kind h = Audio /\ hook_comp h = O
     /\ hook_scale h = strength).
Proof.
  intros W h. destruct enabled.
  - destruct (suppress_spec strength block_start block_end m W)
      as (r & m' & new & E & (_ & _ & Ha & _ & _ & HP) & _).
    rewrite E. simpl. rewrite Ha. intros Hh. apply in_app_or in Hh.
    destruct Hh as [Hh|Hh].
    + left. apply In_without in Hh. tauto.
    + right. rewrite Forall_forall in HP.
      destruct (HP _ Hh) as (H1 & H2 & H3 & H4). auto.
  - simpl. auto.
Qed.

Lemma suppress_hooks_only_audio_output_witness :
  Forall (fun h => hook_maker h = SuppressHook /\ hook_kind h = Audio
                   /\ hook_comp h = O /\ hook_scale h = 0.25%float)
    (active (snd (Suppress.suppress true 0.25 0 1 fresh_model))).
Proof.
  apply Forall_forall. intros h Hh.
  destruct (suppress_hooks_only_audio_output true 0.25 0 1 fresh_model
              wf_fresh_model h Hh) as [[]|H]; exact H.
Defined.

End AttachedHooks.

(** ** Runs that attach nothing *)



Module Resets.



End Resets.

(** ** Rejected configurations *)

Module Rejected.

(** X10: when a selector of the control node does not resolve, or resolves to no
    block for an enabled kind, the node raises (the exception of the parser,
    or [IndexError] from the configuration line) before its clear step: no
    hook is removed, none is attached and both shared lists are as they
    were. *)
Theorem control_rejects_before_clearing (audio cross self_ : settings string)
  (m : model) :
  ~ (exists ai ci si,
       accepted V4.resolve audio ai /\ accepted V4.resolve cross ci /\
       accepted V4.resolve self_ si) ->
  exists e m',
    V4.apply_attention_control audio cross self_ m = (Raise e, m') /\
    (e = IndexError \/ V4.resolve audio = Raise e
     \/ V4.resolve cross = Raise e \/ V4.resolve self_ = Raise e) /\
    active m' = active m /\ next_id m' = next_id m /\
    attention_control_hooks m' = attention_control_hooks m /\
    lipsync_suppress_hooks m' = lipsync_suppress_hooks m.
Proof.
  intros Hrej. unfold V4.apply_attention_control.
  destruct (V4.resolve audio) as [ai|e] eqn:Ra.
  2:{ exists e, m. split; [reflexivity|]. split; [|repeat split].
      right. now left. }
  destruct (V4.resolve cross) as [ci|e] eqn:Rc.
  2:{ exists e, m. split; [reflexivity|]. split; [|repeat split].
      right. right. now left. }
  destruct (V4.resolve self_) as [si|e] eqn:Rs.
  2:{ exists e, m. split; [reflexivity|]. split; [|repeat split].
      right. right. now right. }
  rewrite !bind_lift.
  step_quiet (quiet_print (DBanner ScaleHook)) m1 F1 A1 N1.
  destruct F1 as (_ & _ & C1 & L1 & _).
  destruct (v4_print_config_cases Audio audio ai) as [(_ & _ & Hr)|[Na Hq]].
  { exists IndexError, m1. split; [apply bind_raise, Hr|].
    split; [now left|]. repeat split; assumption. }
  step_quiet Hq m2 F2 A2 N2. destruct F2 as (_ & _ & C2 & L2 & _).
  destruct (v4_print_config_cases Cross cross ci) as [(_ & _ & Hr)|[Nc Hq']].
  { exists IndexError, m2. split; [apply bind_raise, Hr|].
    split; [now left|]. repeat split; congruence. }
  step_quiet Hq' m3 F3 A3 N3. destruct F3 as (_ & _ & C3 & L3 & _).
  destruct (v4_print_config_cases Self self_ si) as [(_ & _ & Hr)|[Ns Hq'']].
  { exists IndexError, m3. split; [apply bind_raise, Hr|].
    split; [now left|]. repeat split; congruence. }
  exfalso. apply Hrej. exists ai, ci, si. repeat split; assumption.
Qed.

Lemma control_rejects_before_clearing_witness :
  exists m',
    V4.apply_attention_control (on_custom "9-4" two) (off "") (off "")
      stale_control_model = (Raise IndexError, m') /\
    active m' = active stale_control_model /\
    attention_control_hooks m' = Some [0%nat; 1%nat].
Proof.
  destruct (control_rejects_before_clearing (on_custom "9-4" two) (off "")
              (off "") stale_control_model)
    as (e & m' & E & He & A & _ & K & _).
  - intros (ai & ci & si & [Ra Na] & _).
    vm_compute in Ra. injection Ra as <-. now apply Na.
  - assert (e = IndexError) as ->.
    { destruct He as [He|[He|[He|He]]]; [exact He| | |];
        vm_compute in He; discriminate He. }
    exists m'. repeat split; assumption.
Defined.

(** X11: the v3 boost node clears first and parses afterwards: when a selector
    does not resolve, or resolves to no block for an enabled kind, the node
    raises (the exception of the parser, or [ValueError] from the
    configuration line) with its recorded hooks already removed and its list
    reset, and nothing attached. *)
Theorem boost_clears_before_rejecting
  (audio cross self_ : settings (option string)) (m : model) :
  Forall (fun i => ~ In i (invalid m)) (tracked_by attention_boost_hooks m) ->
  ~ (exists ai ci si,
       accepted V3.resolve audio ai /\ accepted V3.resolve cross ci /\
       accepted V3.resolve self_ si) ->
  exists e m',
    V3.boost_attention audio cross self_ m = (Raise e, m') /\
    (e = ValueError \/ V3.resolve audio = Raise e
     \/ V3.resolve cross = Raise e \/ V3.resolve self_ = Raise e) /\
    active m' = without (tracked_by attention_boost_hooks m) (active m) /\
    tracked_by attention_boost_hooks m' = [] /\
    next_id m' = next_id m.
Proof.
  intros Hval Hrej. unfold V3.boost_attention. rewrite bind_get.
  match goal with
  | |- context [bind _ ?k m] =>
      destruct (v3_clear_spec k m Hval)
        as (m0 & -> & _ & _ & N0 & _ & _ & T0 & A0)
  end.
  destruct (V3.resolve audio) as [ai|e] eqn:Ra.
  2:{ exists e, m0. split; [reflexivity|].
      split; [right; now left|]. repeat split; assumption. }
  destruct (V3.resolve cross) as [ci|e] eqn:Rc.
  2:{ exists e, m0. split; [reflexivity|].
      split; [right; right; now left|]. repeat split; assumption. }
  destruct (V3.resolve self_) as [si|e] eqn:Rs.
  2:{ exists e, m0. split; [reflexivity|].
      split; [right; right; now right|]. repeat split; assumption. }
  rewrite !bind_lift.
  step_quiet (quiet_print (DBanner BoostHook)) m1 F1 A1 N1.
  destruct F1 as (_ & O1 & _).
  assert (T1 : tracked_by attention_boost_hooks m1 = []).
  { unfold tracked_by in *. now rewrite O1. }
  destruct (v3_print_config_cases Audio audio ai) as [(_ & _ & Hr)|[Na Hq]].
  { exists ValueError, m1. split; [apply bind_raise, Hr|].
    split; [now left|]. repeat split; congruence. }
  step_quiet Hq m2 F2 A2 N2. destruct F2 as (_ & O2 & _).
  assert (T2 : tracked_by attention_boost_hooks m2 = []).
  { unfold tracked_by in *. now rewrite O2. }
  destruct (v3_print_config_cases Cross cross ci) as [(_ & _ & Hr)|[Nc Hq']].
  { exists ValueError, m2. split; [apply bind_raise, Hr|].
    split; [now left|]. repeat split; congruence. }
  step_quiet Hq' m3 F3 A3 N3. destruct F3 as (_ & O3 & _).
  assert (T3 : tracked_by attention_boost_hooks m3 = []).
  { unfold tracked_by in *. now rewrite O3. }
  destruct (v3_print_config_cases Self self_ si) as [(_ & _ & Hr)|[Ns Hq'']].
  { exists ValueError, m3. split; [apply bind_raise, Hr|].
    split; [now left|]. repeat split; congruence. }
  exfalso. apply Hrej. exists ai, ci, si. repeat split; assumption.
Qed.

Lemma boost_clears_before_rejecting_witness :
  exists m',
    V3.boost_attention (on_custom (Some "9-4") two) (off None) (off None)
      {| blocks := [full_block];
         attention_boost_hooks := Some [0%nat];
         attention_control_hooks := None;
         lipsync_suppress_hooks := None;
         active := [ {| hook_id := 0; hook_block := 0; hook_kind := Audio;
                        hook_comp := V; hook_scale := two;
                        hook_maker := BoostHook |} ];
         next_id := 1; invalid := []; console := [] |}
    = (Raise ValueError, m') /\
    active m' = [] /\ tracked_by attention_boost_hooks m' = [].
Proof.
  destruct (boost_clears_before_rejecting
              (on_custom (Some "9-4") two) (off None) (off None)
              {| blocks := [full_block];
                 attention_boost_hooks := Some [0%nat];
                 attention_control_hooks := None;
                 lipsync_suppress_hooks := None;
                 active := [ {| hook_id := 0; hook_block := 0;
                                hook_kind := Audio; hook_comp := V;
                                hook_scale := two;
                                hook_maker := BoostHook |} ];
                 next_id := 1; invalid := []; console := [] |})
    as (e & m' & E & He & A & T & _).
  - repeat constructor. simpl. tauto.
  - intros (ai & ci & si & [Ra Na] & _).
    vm_compute in Ra. injection Ra as <-. now apply Na.
  - assert (e = ValueError) as ->.
    { destruct He as [He|[He|[He|He]]]; [exact He| | |];
        vm_compute in He; discriminate He. }
    exists m'. repeat split; assumption.
Defined.

End Rejected.

(** ** Invariants of the bookkeeping *)

Lemma v4_apply_keeps_wf (P : hook -> Prop) (m m' : model) (new : list hook) :
  wf m -> reattached P (shared_tracked m) m m' new ->
  attention_boost_hooks m' = attention_boost_hooks m ->
  (forall i, In i (shared_tracked m') -> In i (map hook_id new)) ->
  wf m'.
Proof.
  intros W R O Hs. eapply wf_reattached; [exact W|exact R|].
  intros i Hi. apply in_app_or in Hi. destruct Hi as [Hi|Hi].
  - left. apply in_or_app. left. unfold tracked_by in *. now rewrite <- O.
  - right. now apply Hs.
Qed.

Lemma shared_after_control (m' : model) (new : list hook) (r : result unit) :
  tracked_by lipsync_suppress_hooks m' = [] ->
  (r = Ok tt -> attention_control_hooks m' = Some (map hook_id new)) ->
  (r <> Ok tt -> tracked_by attention_control_hooks m' = []) ->
  (forall i, In i (shared_tracked m') -> In i (map hook_id new)) /\
  (r = Ok tt -> shared_tracked m' = map hook_id new).
Proof.
  intros L K T. unfold shared_tracked. rewrite L, app_nil_r.
  destruct r as [[]|e].
  - specialize (K eq_refl). unfold tracked_by. rewrite K. auto.
  - rewrite T by discriminate. split; [intros i []|discriminate].
Qed.

Lemma shared_after_suppress (m' : model) (new : list hook) (r : result unit) :
  tracked_by attention_control_hooks m' = [] ->
  (r = Ok tt -> lipsync_suppress_hooks m' = Some (map hook_id new)) ->
  (r <> Ok tt -> tracked_by lipsync_suppress_hooks m' = []) ->
  (forall i, In i (shared_tracked m') -> In i (map hook_id new)) /\
  (r = Ok tt -> shared_tracked m' = map hook_id new).
Proof.
  intros C K T. unfold shared_tracked. rewrite C. simpl.
  destruct r as [[]|e].
  - specialize (K eq_refl). unfold tracked_by. rewrite K. auto.
  - rewrite T by discriminate. split; [intros i []|discriminate].
Qed.

Module Invariants.

(** X12: the two v4 nodes keep the bookkeeping sound.  Whatever the outcome of a
    run, handles stay below the host's counter and invalidated handles have
    no active hook; and after a run that returns, every active hook built by
    a v4 factory is recorded under one of the two shared keys, so the next
    run can remove it. *)
Theorem v4_nodes_keep_bookkeeping (audio cross self_ : settings string)
  (ai ci si : list Z) (enabled : bool) (strength : float)
  (block_start block_end : Z) (m : model) :
  wf m -> owned m ->
  (accepted V4.resolve audio ai -> accepted V4.resolve cross ci ->
   accepted V4.resolve self_ si ->
   wf (snd (V4.apply_attention_control audio cross self_ m)) /\
   (fst (V4.apply_attention_control audio cross self_ m) = Ok tt ->
    owned (snd (V4.apply_attention_control audio cross self_ m)))) /\
  (wf (snd (Suppress.suppress enabled strength block_start block_end m)) /\
   (fst (Suppress.suppress enabled strength block_start block_end m) = Ok tt
    -> owned (snd (Suppress.suppress enabled strength block_start block_end
                     m)))).
Proof.
  intros W Ho. split.
  - intros Aa Ac As.
    destruct (v4_apply_spec (scaling_hook ScaleHook) audio cross self_ _ _ _ m
                W Aa Ac As (permits_scaling _ _) (permits_scaling _ _)
                (permits_scaling _ _))
      as (r & m' & new & E & R & O & L & K & T & _).
    rewrite E. simpl.
    destruct (shared_after_control m' new r L K T) as [Hs Hs'].
    split.
    + eapply v4_apply_keeps_wf; eassumption.
    + intros Hr. eapply owned_after; [exact Ho|exact R|].
      intros h Hh. rewrite (Hs' Hr). now apply in_map.
  - destruct enabled; [|simpl; auto].
    destruct (suppress_spec strength block_start block_end m W)
      as (r & m' & new & E & R & O & C & K & T).
    rewrite E. simpl.
    destruct (shared_after_suppress m' new r C K T) as [Hs Hs'].
    split.
    + eapply v4_apply_keeps_wf; eassumption.
    + intros Hr. eapply owned_after; [exact Ho|exact R|].
      intros h Hh. rewrite (Hs' Hr). now apply in_map.
Qed.

Lemma v4_nodes_keep_bookkeeping_witness :
  wf (snd (V4.apply_attention_control (on_custom "0-1" two) (off "") (off "")
             stale_control_model)) /\
  owned (snd (V4.apply_attention_control (on_custom "0-1" two) (off "")
                (off "") stale_control_model)) /\
  wf (snd (Suppress.suppress true 0.25 0 1 stale_control_model)) /\
  owned (snd (Suppress.suppress true 0.25 0 1 stale_control_model)).
Proof.
  assert (W : wf stale_control_model).
  { unfold wf. simpl. repeat split; repeat constructor.
    simpl. intros [H|H]; [discriminate H|exact H]. }
  assert (Ho : owned stale_control_model).
  { constructor; [right; simpl; tauto|constructor]. }
  destruct (v4_nodes_keep_bookkeeping (on_custom "0-1" two) (off "") (off "")
              [0; 1] [] [] true 0.25 0 1 stale_control_model W Ho)
    as [H4 [Hsw Hso]].
  destruct H4 as [H4w H4o];
    try (split; [reflexivity|simpl; congruence]).
  split; [exact H4w|]. split; [apply H4o; reflexivity|].
  split; [exact Hsw|apply Hso; reflexivity].
Defined.

(** X13: the v3 node and the v4 control node keep separate lists and never
    remove each other's hooks: after a v3 run followed by a v4 run on a model
    that meets the host contract, both runs have returned and the hooks of
    both are active at once, each recorded under its own key. *)
Theorem v3_and_v4_hooks_coexist (a3 c3 s3 : settings (option string))
  (a4 c4 s4 : settings string) (ai3 ci3 si3 ai4 ci4 si4 : list Z)
  (m : model) :
  wf m -> complete (blocks m) ->
  Forall (fun i => ~ In i (invalid m)) (tracked_by attention_boost_hooks m) ->
  accepted V3.resolve a3 ai3 -> accepted V3.resolve c3 ci3 ->
  accepted V3.resolve s3 si3 ->
  accepted V4.resolve a4 ai4 -> accepted V4.resolve c4 ci4 ->
  accepted V4.resolve s4 si4 ->
  exists m1 m2 new3 new4,
    V3.boost_attention a3 c3 s3 m = (Ok tt, m1) /\
    V4.apply_attention_control a4 c4 s4 m1 = (Ok tt, m2) /\
    attention_boost_hooks m2 = Some (map hook_id new3) /\
    attention_control_hooks m2 = Some (map hook_id new4) /\
    incl new3 (active m2) /\ incl new4 (active m2) /\
    Forall (scaling_hook BoostHook) new3 /\
    Forall (scaling_hook ScaleHook) new4.
Proof.
  intros W Hc Hval A3 C3 S3 A4 C4 S4.
  destruct (v3_boost_spec (scaling_hook BoostHook) a3 c3 s3 _ _ _ m W Hval
              A3 C3 S3 (permits_scaling _ _) (permits_scaling _ _)
              (permits_scaling _ _))
    as (r1 & m1 & new3 & E1 & R1 & K1 & L1 & B1 & _ & T1).
  specialize (T1 Hc). subst r1. specialize (B1 eq_refl).
  assert (Sh1 : shared_tracked m1 = shared_tracked m).
  { unfold shared_tracked, tracked_by. now rewrite K1, L1. }
  assert (W1 : wf m1).
  { eapply wf_reattached; [exact W|exact R1|].
    intros i Hi. rewrite Sh1 in Hi. unfold tracked_by at 1 in Hi.
    rewrite B1 in Hi. apply in_app_or in Hi.
    destruct Hi as [Hi|Hi]; [now right|left; apply in_or_app; now right]. }
  assert (Hc1 : complete (blocks m1)).
  { destruct R1 as (Hb & _). now rewrite Hb. }
  destruct (v4_apply_spec (scaling_hook ScaleHook) a4 c4 s4 _ _ _ m1 W1
              A4 C4 S4 (permits_scaling _ _) (permits_scaling _ _)
              (permits_scaling _ _))
    as (r2 & m2 & new4 & E2 & R2 & O2 & L2 & K2 & _ & T2).
  specialize (T2 Hc1). subst r2. specialize (K2 eq_refl).
  exists m1, m2, new3, new4.
  split; [exact E1|]. split; [exact E2|].
  split; [congruence|]. split; [exact K2|].
  destruct R1 as (_ & _ & Ha1 & _ & Hs1 & HP1).
  destruct R2 as (_ & _ & Ha2 & _ & _ & HP2).
  split; [|split; [|split; assumption]].
  - intros h Hh. rewrite Ha2. apply in_or_app. left.
    apply In_without. split.
    + rewrite Ha1. apply in_or_app. now right.
    + rewrite Sh1. intros Hin.
      assert (Hlt : (hook_id h < next_id m)%nat).
      { now apply wf_shared_below. }
      assert (Hge : In (hook_id h) (map hook_id new3)) by now apply in_map.
      rewrite Hs1 in Hge. apply in_seq in Hge. lia.
  - intros h Hh. rewrite Ha2. apply in_or_app. now right.
Qed.

Lemma v3_and_v4_hooks_coexist_witness :
  exists m1 m2,
    V3.boost_attention (on_custom (Some "0-1") two) (off None) (off None)
      fresh_model = (Ok tt, m1) /\
    V4.apply_attention_control (on_custom "0-1" two) (off "") (off "") m1
    = (Ok tt, m2) /\
    attention_boost_hooks m2 = Some [0%nat; 1%nat] /\
    attention_control_hooks m2 = Some [2%nat; 3%nat] /\
    map hook_maker (active m2) = [BoostHook; BoostHook; ScaleHook; ScaleHook].
Proof.
  destruct (v3_and_v4_hooks_coexist
              (on_custom (Some "0-1") two) (off None) (off None)
              (on_custom "0-1" two) (off "") (off "")
              [0; 1] [] [] [0; 1] [] [] fresh_model
              wf_fresh_model complete_fresh_model)
    as (m1 & m2 & new3 & new4 & E1 & E2 & _);
    try (split; [reflexivity|simpl; congruence]).
  - constructor.
  - exists m1, m2. split; [exact E1|]. split; [exact E2|].
    vm_compute in E1. injection E1 as <-.
    vm_compute in E2. injection E2 as <-.
    repeat split.
Defined.

End Invariants.

(** ** When the suppression node returns *)

Lemma bind_ok_inv {A B : Type} (c : M A) (k : A -> M B) (m m' : model)
  (b : B) :
  bind c k m = (Ok b, m') ->
  exists a m1, c m = (Ok a, m1) /\ k a m1 = (Ok b, m').
Proof.
  unfold bind. destruct (c m) as [[a|e] m1]; [eauto|discriminate].
Qed.

Lemma suppress_visit_balanced (strength : float) (block_idx : Z)
  (st st' : list nat * list Z) (m m' : model) :
  Suppress.visit strength block_idx st m = (Ok st', m') ->
  (List.length (fst st') + List.length (snd st)
   = List.length (snd st') + List.length (fst st))%nat.
Proof.
  unfold Suppress.visit. rewrite bind_get.
  destruct (len_blocks m <=? block_idx); [intros [= <- _]; lia|].
  intros E. apply bind_ok_inv in E. destruct E as (pb & m1 & _ & E).
  destruct (audio_cross_attn_wrapper (snd pb)) as [[attn|]|];
    [|discriminate|injection E as <- _; lia].
  destruct (has_o attn); [|injection E as <- _; lia].
  unfold bind, register_forward_hook, ret in E. injection E as <- _.
  simpl. rewrite !length_app. simpl. lia.
Qed.

Lemma suppress_loop_balanced (strength : float) (l : list Z)
  (st st' : list nat * list Z) (m m' : model) :
  for_each l (Suppress.visit strength) st m = (Ok st', m') ->
  (List.length (fst st') + List.length (snd st)
   = List.length (snd st') + List.length (fst st))%nat.
Proof.
  revert st m. induction l as [|x l IH]; intros st m; simpl.
  - intros [= <- _]. lia.
  - intros E. apply bind_ok_inv in E. destruct E as (st1 & m1 & E1 & E2).
    apply suppress_visit_balanced in E1. apply IH in E2. lia.
Qed.

Lemma suppress_visit_no_audio (strength : float) (block_idx : Z)
  (st : list nat * list Z) (m : model) :
  Forall (fun b => audio_cross_attn_wrapper b = None) (blocks m) ->
  Suppress.visit strength block_idx st m = (Ok st, m) \/
  Suppress.visit strength block_idx st m = (Raise IndexError, m).
Proof.
  intros Hno. unfold Suppress.visit. rewrite bind_get.
  destruct (len_blocks m <=? block_idx); [now left|].
  unfold bind.
  destruct (get_block_cases block_idx m)
    as [(pos & b & -> & Hn)|[-> _]]; [|now right].
  rewrite Forall_forall in Hno. simpl.
  rewrite (Hno b (nth_error_In _ _ Hn)). now left.
Qed.

Lemma suppress_loop_no_audio (strength : float) (l : list Z)
  (st : list nat * list Z) (m : model) :
  Forall (fun b => audio_cross_attn_wrapper b = None) (blocks m) ->
  for_each l (Suppress.visit strength) st m = (Ok st, m) \/
  for_each l (Suppress.visit strength) st m = (Raise IndexError, m).
Proof.
  intros Hno. induction l as [|x l IH]; simpl; [now left|].
  unfold bind.
  destruct (suppress_visit_no_audio strength x st m Hno) as [->| ->];
    [exact IH|now right].
Qed.

Lemma remove_quietly_frame (hooks : list nat) (m : model) :
  exists m',
    for_each hooks (fun h _ => try_pass (remove h)) tt m = (Ok tt, m') /\
    frame m m'.
Proof.
  revert m. induction hooks as [|h hooks IH]; intros m.
  - exists m. split; [reflexivity|apply frame_refl].
  - simpl. unfold bind at 1. unfold try_pass, remove.
    destruct (existsb (Nat.eqb h) (invalid m)).
    + apply IH.
    + destruct (IH (set_active
                      (filter (fun e => negb (Nat.eqb (hook_id e) h))
                              (active m)) (next_id m) m))
        as (m' & E & F).
      exists m'. split; [exact E|].
      eapply frame_trans; [|exact F]. repeat split.
Qed.

Lemma clear_attr_keeps_blocks (attr : model -> option (list nat))
  (set_attr : option (list nat) -> model -> model) (m : model) :
  (forall v x, blocks (set_attr v x) = blocks x) ->
  exists m', clear_attr attr set_attr m = (Ok tt, m') /\
             blocks m' = blocks m.
Proof.
  intros Hset. unfold clear_attr. rewrite bind_get.
  destruct (attr m) as [hooks|]; [|exists m; split; reflexivity].
  destruct (remove_quietly_frame hooks m) as (m1 & E1 & (Fb & _)).
  rewrite (bind_ok _ _ _ _ _ E1). eexists. split; [reflexivity|].
  simpl. now rewrite Hset.
Qed.

Module SuppressOutcome.

(** X14: the suppression node never returns with an empty list: whenever an
    enabled call returns normally, it has attached at least one hook and
    recorded its handle (when no block was patched it raises instead). *)
Theorem suppress_returns_only_with_hooks (strength : float)
  (block_start block_end : Z) (m m' : model) :
  Suppress.suppress true strength block_start block_end m = (Ok tt, m') ->
  exists h hs, lipsync_suppress_hooks m' = Some (h :: hs).
Proof.
  unfold Suppress.suppress. change (negb true) with false. cbv iota.
  intros E.
  apply bind_ok_inv in E. destruct E as (_ & m1 & _ & E).
  apply bind_ok_inv in E. destruct E as (_ & m2 & _ & E).
  apply bind_ok_inv in E. destruct E as (_ & m3 & _ & E).
  apply bind_ok_inv in E. destruct E as (st & m4 & Eloop & E).
  apply bind_ok_inv in E. destruct E as (u & m5 & Esum & E).
  unfold modify in E. injection E as Em. rewrite <- Em. simpl.
  apply suppress_loop_balanced in Eloop. simpl in Eloop.
  destruct (snd st) as [|first rest]; [discriminate Esum|].
  destruct (fst st) as [|h hs] eqn:Eh; [simpl in Eloop; lia|].
  exists h, hs. reflexivity.
Qed.

Lemma suppress_returns_only_with_hooks_witness :
  exists h hs,
    lipsync_suppress_hooks
      (snd (Suppress.suppress true 0.25 0 1 fresh_model)) = Some (h :: hs).
Proof.
  apply (suppress_returns_only_with_hooks 0.25 0 1 fresh_model).
  reflexivity.
Defined.

(** X15: on a model none of whose blocks has an audio attention wrapper (any
    model that is not of the audio-driven kind) an enabled call of the
    suppression node raises [IndexError], whatever the range and the
    strength. *)
Theorem suppress_needs_audio_attention (strength : float)
  (block_start block_end : Z) (m : model) :
  Forall (fun b => audio_cross_attn_wrapper b = None) (blocks m) ->
  fst (Suppress.suppress true strength block_start block_end m)
  = Raise IndexError.
Proof.
  intros Hno. unfold Suppress.suppress. change (negb true) with false.
  cbv iota.
  step_quiet (quiet_print (DBanner SuppressHook)) m1 F1 A1 N1.
  destruct F1 as (B1 & _).
  destruct (clear_attr_keeps_blocks lipsync_suppress_hooks
              set_lipsync_suppress_hooks m1) as (m2 & E2 & B2);
    [reflexivity|].
  rewrite (bind_ok _ _ _ _ _ E2).
  destruct (clear_attr_keeps_blocks attention_control_hooks
              set_attention_control_hooks m2) as (m3 & E3 & B3);
    [reflexivity|].
  rewrite (bind_ok _ _ _ _ _ E3).
  assert (Hno3 : Forall (fun b => audio_cross_attn_wrapper b = None)
                        (blocks m3)) by (rewrite B3, B2, B1; exact Hno).
  unfold bind at 1.
  destruct (suppress_loop_no_audio strength
              (py_range block_start (block_end + 1)) ([], []) m3 Hno3)
    as [-> | ->]; reflexivity.
Qed.

Lemma suppress_needs_audio_attention_witness :
  fst (Suppress.suppress true 0.25 0 0
         {| blocks := [ {| audio_cross_attn_wrapper := None;
                           cross_attn := Some full_attention;
                           self_attn := Some full_attention |} ];
            attention_boost_hooks := None;
            attention_control_hooks := None;
            lipsync_suppress_hooks := None;
            active := []; next_id := 0; invalid := []; console := [] |})
  = Raise IndexError.
Proof.
  apply suppress_needs_audio_attention. repeat constructor.
Defined.

End SuppressOutcome.

Module SuppressRerun.

(** X16: running the suppression node again replaces its hooks instead of
    stacking them: when two enabled calls return one after the other, the
    hooks active after the second are those the model had outside the shared
    keys before the first, plus the hooks of the second call, which are
    exactly the recorded ones; so strengths never compound. *)
Theorem suppress_rerun_replaces (f1 f2 : float) (s1 e1 s2 e2 : Z)
  (m m1 m2 : model) :
  wf m ->
  Suppress.suppress true f1 s1 e1 m = (Ok tt, m1) ->
  Suppress.suppress true f2 s2 e2 m1 = (Ok tt, m2) ->
  exists new2,
    lipsync_suppress_hooks m2 = Some (map hook_id new2) /\
    active m2 = without (shared_tracked m) (active m) ++ new2 /\
    Forall (suppress_hook f2) new2.
Proof.
  intros W E1 E2.
  destruct (suppress_spec f1 s1 e1 m W)
    as (r & m' & new1 & E & R1 & O1 & C1 & K1 & T1).
  rewrite E1 in E. injection E as <- <-. specialize (K1 eq_refl).
  destruct (shared_after_suppress m1 new1 (Ok tt) C1 (fun _ => K1) T1)
    as [Hs Hs'].
  specialize (Hs' eq_refl).
  assert (W1 : wf m1) by (eapply v4_apply_keeps_wf; eassumption).
  destruct (suppress_spec f2 s2 e2 m1 W1)
    as (r & m' & new2 & E & R2 & _ & _ & K2 & _).
  rewrite E2 in E. injection E as <- <-. specialize (K2 eq_refl).
  exists new2. split; [exact K2|]. split.
  - destruct R2 as (_ & _ & Ha & _). rewrite Ha, Hs'. f_equal.
    eapply without_new; eassumption.
  - now destruct R2 as (_ & _ & _ & _ & _ & HP).
Qed.

Lemma suppress_rerun_replaces_witness :
  exists new2,
    lipsync_suppress_hooks
      (snd (Suppress.suppress true 0.5 0 0
              (snd (Suppress.suppress true 0.25 0 1 fresh_model))))
    = Some (map hook_id new2) /\
    active (snd (Suppress.suppress true 0.5 0 0
                   (snd (Suppress.suppress true 0.25 0 1 fresh_model))))
    = without (shared_tracked fresh_model) (active fresh_model) ++ new2 /\
    Forall (suppress_hook 0.5) new2.
Proof.
  apply (suppress_rerun_replaces 0.25 0.5 0 1 0 0 fresh_model
           (snd (Suppress.suppress true 0.25 0 1 fresh_model))).
  - exact wf_fresh_model.
  - vm_compute. reflexivity.
  - vm_compute. reflexivity.
Defined.

End SuppressRerun.

(** ** When the callbacks return *)

Module HookOutcomes.

Section WithTensor.

Variable tensor : Type.
Variable tensor_mul : tensor -> float -> tensor.

Local Abbreviation PTensor := (Hooks.PTensor tensor).
Local Abbreviation PTuple := (Hooks.PTuple tensor).
Local Abbreviation PNone := (Hooks.PNone tensor).

(** X17: the callbacks of the v4 nodes return exactly on a plain tensor, which
    they scale; the callback of the v3 node returns exactly on [None], which
    it hands back, on a plain tensor, which it scales, and on a tuple whose
    first element is a tensor, of which it scales that element and keeps the
    others.  On every other output each of them raises. *)
Theorem hooks_return_exactly_on (f : float)
  (output r : Hooks.pyobj tensor) :
  (Hooks.create_scale_hook tensor tensor_mul f output = Ok r <->
   exists x, output = PTensor x /\ r = PTensor (tensor_mul x f)) /\
  (Hooks.create_suppress_hook tensor tensor_mul f output = Ok r <->
   exists x, output = PTensor x /\ r = PTensor (tensor_mul x f)) /\
  (Hooks.create_boost_hook tensor tensor_mul f output = Ok r <->
   (output = PNone /\ r = PNone) \/
   (exists x, output = PTensor x /\ r = PTensor (tensor_mul x f)) \/
   (exists x rest, output = PTuple (PTensor x :: rest) /\
                   r = PTuple (PTensor (tensor_mul x f) :: rest))).
Proof.
  split; [|split].
  - unfold Hooks.create_scale_hook. destruct output as [|x|items]; simpl;
      split; try discriminate.
    + intros (x & H & _). discriminate H.
    + intros [= <-]. eauto.
    + intros (y & [= <-] & ->). reflexivity.
    + intros (x & H & _). discriminate H.
  - unfold Hooks.create_suppress_hook. destruct output as [|x|items]; simpl;
      split; try discriminate.
    + intros (x & H & _). discriminate H.
    + intros [= <-]. eauto.
    + intros (y & [= <-] & ->). reflexivity.
    + intros (x & H & _). discriminate H.
  - destruct output as [|x|[|[|x|inner] rest]]; simpl; split;
      try discriminate;
      try (intros [[H _]|[(y & H & _)|(y & rest' & H & _)]];
           discriminate H).
    + intros [= <-]. now left.
    + intros [[_ ->]|[(y & H & _)|(y & rest' & H & _)]];
        [reflexivity|discriminate H|discriminate H].
    + intros [= <-]. right. left. eauto.
    + intros [[H _]|[(y & [= <-] & ->)|(y & rest' & H & _)]];
        [discriminate H|reflexivity|discriminate H].
    + intros [= <-]. right. right. eauto.
    + intros [[H _]|[(y & H & _)|(y & rest' & [= <- <-] & ->)]];
        [discriminate H|discriminate H|reflexivity].
Qed.

End WithTensor.

End HookOutcomes.

(** ** The two parsers side by side, and texts put together *)

Lemma split_has_piece (sep : ascii) (s : string) :
  PyStr.split sep s <> [].
Proof.
  destruct s as [|c s]; simpl; [discriminate|].
  destruct (Ascii.eqb c sep); [discriminate|].
  destruct (PyStr.split sep s); discriminate.
Qed.

Lemma split_concat (sep : ascii) (a b : string) :
  PyStr.split sep (a ++ String sep b)%string
  = PyStr.split sep a ++ PyStr.split sep b.
Proof.
  induction a as [|c a IH]; simpl.
  - now rewrite Ascii.eqb_refl.
  - destruct (Ascii.eqb c sep); [now rewrite IH|].
    rewrite IH. pose proof (split_has_piece sep a) as Hne.
    destruct (PyStr.split sep a); [congruence|reflexivity].
Qed.

Lemma v4_parse_parts_acc (parts : list string) (blocks : list Z) :
  V4.parse_parts parts blocks
  = rbind (V4.parse_parts parts []) (fun xs => Ok (blocks ++ xs)).
Proof.
  revert blocks. induction parts as [|p ps IH]; intros blocks; simpl.
  - now rewrite app_nil_r.
  - destruct (V4.parse_part p) as [xs|e]; simpl; [|reflexivity].
    rewrite (IH (blocks ++ xs)), (IH xs).
    destruct (V4.parse_parts ps []); simpl; [|reflexivity].
    now rewrite app_assoc.
Qed.

Lemma v4_parse_parts_app (l1 l2 : list string) (blocks : list Z) :
  V4.parse_parts (l1 ++ l2) blocks
  = rbind (V4.parse_parts l1 blocks) (V4.parse_parts l2).
Proof.
  revert blocks. induction l1 as [|p ps IH]; intros blocks; simpl;
    [reflexivity|].
  destruct (V4.parse_part p); simpl; [apply IH|reflexivity].
Qed.

Lemma sorted_set_app_idem (xs ys : list Z) :
  sorted_set (sorted_set xs ++ sorted_set ys) = sorted_set (xs ++ ys).
Proof.
  apply sorted_set_ext. intros x.
  rewrite !in_app_iff, !sorted_set_In. tauto.
Qed.

Module ParserAlgebra.

(** X18: on every non-empty custom text the parsers of the two node classes do
    the same: they return the same list or raise the same exception.  (On
    the empty text they differ: v4 raises [ValueError], v3 falls back to its
    preset table.) *)
Theorem custom_parsers_agree (text : string) :
  text <> EmptyString ->
  V3.parse_block_range "custom" (Some text)
  = V4.parse_block_range "custom" text.
Proof.
  intros Hne. unfold V3.parse_block_range, V4.parse_block_range.
  simpl String.eqb. cbv iota.
  assert (T : V3.truthy (Some text) = true).
  { destruct text; [congruence|reflexivity]. }
  rewrite T. simpl andb. cbv iota. now rewrite parse_parts_agree.
Qed.

Lemma custom_parsers_agree_witness :
  V3.parse_block_range "custom" (Some "0-5,x")
  = V4.parse_block_range "custom" "0-5,x" /\
  V3.parse_block_range "custom" (Some "")
  <> V4.parse_block_range "custom" "".
Proof.
  split.
  - apply custom_parsers_agree. discriminate.
  - discriminate.
Defined.

(** X19: custom texts compose: joining two texts with a comma resolves to the
    sorted union of what each resolves to, and fails as soon as one of them
    fails. *)
Theorem joined_texts_resolve_to_union (a b : string) :
  V4.parse_block_range "custom" (a ++ String "," b)
  = rbind (V4.parse_block_range "custom" a) (fun xa =>
    rbind (V4.parse_block_range "custom" b) (fun xb =>
    Ok (sorted_set (xa ++ xb)))).
Proof.
  unfold V4.parse_block_range. simpl String.eqb. cbv iota.
  rewrite split_concat, v4_parse_parts_app.
  destruct (V4.parse_parts (PyStr.split "," a) []) as [ra|e]; simpl;
    [|reflexivity].
  rewrite v4_parse_parts_acc.
  destruct (V4.parse_parts (PyStr.split "," b) []) as [rb|e]; simpl;
    [|reflexivity].
  now rewrite sorted_set_app_idem.
Qed.

End ParserAlgebra.


(** ** A suppression call that finds no block *)

Module SuppressFailure.

(** X20: an enabled suppression call whose range is empty (the end below the
    start) or starts at or beyond the number of blocks raises [IndexError],
    but only after its clear step: the hooks recorded under the two shared
    keys are gone and both lists are empty, so the failed call also switches
    off what earlier v4 runs had attached; the v3 list and the host's
    counter are untouched. *)
Theorem suppress_failure_still_clears (strength : float)
  (block_start block_end : Z) (m : model) :
  wf m ->
  block_end < block_start \/ len_blocks m <= block_start ->
  exists m',
    Suppress.suppress true strength block_start block_end m
    = (Raise IndexError, m') /\
    active m' = without (shared_tracked m) (active m) /\
    tracked_by lipsync_suppress_hooks m' = [] /\
    tracked_by attention_control_hooks m' = [] /\
    attention_boost_hooks m' = attention_boost_hooks m /\
    next_id m' = next_id m.
Proof.
  intros W Hr. unfold Suppress.suppress. change (negb true) with false.
  cbv iota.
  step_quiet (quiet_print (DBanner SuppressHook)) m4 Fr A Nx.
  destruct Fr as (Fb & Fo & Fc & Fl & Fi).
  assert (I4 : Forall (fun i => ~ In i (map hook_id (active m4))) (invalid m4)).
  { rewrite A, Fi. now apply wf_invalid. }
  destruct (clear_suppress_spec m4 I4)
    as (m5 & E5 & B5 & I5 & N5 & O5 & C5 & L5 & _ & A5).
  rewrite (bind_ok _ _ _ _ _ E5).
  assert (I5' : Forall (fun i => ~ In i (map hook_id (active m5))) (invalid m5)).
  { rewrite I5, A5. eapply Forall_impl; [|exact I4].
    intros i Hi Hin. apply Hi. apply in_map_iff in Hin.
    destruct Hin as [h [<- Hh]]. apply In_without in Hh. apply in_map, Hh. }
  destruct (clear_control_spec m5 I5')
    as (m6 & E6 & B6 & I6 & N6 & O6 & L6 & C6 & _ & A6).
  rewrite (bind_ok _ _ _ _ _ E6).
  unfold bind at 1. rewrite for_each_skip.
  - exists m6. split; [reflexivity|]. split; [|split; [|split; [|split]]].
    + rewrite A6, A5, without_without, A. unfold shared_tracked, tracked_by.
      rewrite C5, Fc, Fl. apply without_ext. intros i.
      rewrite !in_app_iff. tauto.
    + unfold tracked_by in *. now rewrite L6.
    + exact C6.
    + now rewrite O6, O5, Fo.
    + now rewrite N6, N5, Nx.
  - intros x Hx. destruct Hr as [Hr|Hr].
    + rewrite py_range_empty in Hx by lia. destruct Hx.
    + apply suppress_visit_out_of_range.
      apply In_py_range in Hx. unfold len_blocks in *.
      rewrite B6, B5, Fb. lia.
Qed.

Lemma suppress_failure_still_clears_witness :
  wf stale_control_model /\
  (6 < 24 \/ len_blocks stale_control_model <= 24) /\
  exists m',
    Suppress.suppress true 0.25 24 6 stale_control_model
    = (Raise IndexError, m') /\
    active m' = without (shared_tracked stale_control_model)
                  (active stale_control_model) /\
    tracked_by lipsync_suppress_hooks m' = [] /\
    tracked_by attention_control_hooks m' = [] /\
    attention_boost_hooks m' = attention_boost_hooks stale_control_model /\
    next_id m' = next_id stale_control_model.
Proof.
  assert (W : wf stale_control_model).
  { unfold wf. simpl. repeat split; repeat constructor; simpl; try lia;
      intuition congruence. }
  split; [exact W|]. split; [left; lia|].
  apply (suppress_failure_still_clears 0.25 24 6 stale_control_model W).
  left. lia.
Defined.

End SuppressFailure.
